(** * coregx/stream: WebSocket (RFC 6455) and Server-Sent Events

    A shallow embedding of the protocol engine of the library:
    the frame codec ([readFrame], [writeFrame], [applyMask]), the
    connection state machine ([Conn.Read], [Conn.Write], the close
    handshake), the opening handshake ([Upgrade], [computeAcceptKey],
    [negotiateSubprotocol]), the two broadcast hubs and the SSE event
    serializer, followed by the properties established about them.

    Conventions.
    - A Go [byte] is a [Z] in [0, 256); a [[]byte] is a [list Z]; a Go
      [string] is a [string] (a sequence of 8-bit characters).
    - A [*bufio.Reader] is the list of bytes still to be read; a
      [*bufio.Writer] is the list of bytes delivered to the peer plus a flag
      telling whether the underlying sink rejects writes.
    - Functions that return [(T, error)] return a [result T]; methods that
      mutate their receiver return the new receiver.
    - Pointers to connections are identifiers into a store ([gmap]); the
      hub's [map[*Conn]bool] is a set of identifiers. *)

From Stdlib Require Import ZArith Lia List Bool String Ascii DecimalString.
From stdpp Require Import gmap strings list.
Import ListNotations.

Set Default Proof Using "Type".

(* stdpp keeps [simpl] from unfolding string concatenation. *)
#[local] Arguments String.append !s1 s2 / : simpl nomatch.

(* ===================================================================== *)
(** ** Errors *)
(* ===================================================================== *)

(** Errors of the standard [io] package that the code can observe. *)
Inductive io_error :=
| EOF
| ErrUnexpectedEOF
| ErrWriteFailed.

(** The sentinel errors of the [websocket] package.  An error wrapped with
    [fmt.Errorf("...%w...")] is represented by the sentinel it wraps, which
    is what [errors.Is] observes. *)
Inductive error :=
| ErrProtocolError
| ErrInvalidUTF8
| ErrFrameTooLarge
| ErrReservedBits
| ErrInvalidOpcode
| ErrControlFragmented
| ErrControlTooLarge
| ErrUnexpectedContinuation
| ErrMaskRequired
| ErrMaskUnexpected
| ErrInvalidMethod
| ErrMissingUpgrade
| ErrMissingConnection
| ErrMissingSecKey
| ErrInvalidVersion
| ErrOriginDenied
| ErrHijackFailed
| ErrClosed
| ErrInvalidMessageType
| ErrMessageTooLarge
| ErrIO (e : io_error)
| ErrJSON.

Inductive result (A : Type) :=
| Ok (a : A)
| Err (e : error).
Arguments Ok {A} a.
Arguments Err {A} e.

(* ===================================================================== *)
(** ** Bytes, strings and UTF-8 *)
(* ===================================================================== *)

Module utf8.
Local Open Scope Z_scope.

Definition RuneSelf : Z := 0x80.
Definition locb : Z := 0x80.
Definition hicb : Z := 0xBF.

(** The [first] table of [unicode/utf8] together with [acceptRanges]:
    for a leading byte, the size of the sequence and the range accepted
    for the second byte; [None] is the entry [xx] (illegal starter). *)
Definition first (b : Z) : option (Z * Z * Z) :=
  if (0xC2 <=? b) && (b <=? 0xDF) then Some (2, locb, hicb)
  else if b =? 0xE0 then Some (3, 0xA0, hicb)
  else if (0xE1 <=? b) && (b <=? 0xEC) then Some (3, locb, hicb)
  else if b =? 0xED then Some (3, locb, 0x9F)
  else if (0xEE <=? b) && (b <=? 0xEF) then Some (3, locb, hicb)
  else if b =? 0xF0 then Some (4, 0x90, hicb)
  else if (0xF1 <=? b) && (b <=? 0xF3) then Some (4, locb, hicb)
  else if b =? 0xF4 then Some (4, locb, 0x8F)
  else None.

(** [utf8.Valid]: walks the bytes, one encoded rune at a time. *)
Fixpoint Valid (p : list Z) : bool :=
  match p with
  | [] => true
  | pi :: t1 =>
    if pi <? RuneSelf then Valid t1
    else
      match first pi with
      | None => false
      | Some (size, lo, hi) =>
        match t1 with
        | [] => false
        | c1 :: t2 =>
          if (c1 <? lo) || (hi <? c1) then false
          else if size =? 2 then Valid t2
          else
            match t2 with
            | [] => false
            | c2 :: t3 =>
              if (c2 <? locb) || (hicb <? c2) then false
              else if size =? 3 then Valid t3
              else
                match t3 with
                | [] => false
                | c3 :: t4 =>
                  if (c3 <? locb) || (hicb <? c3) then false
                  else Valid t4
                end
            end
        end
      end
  end.
End utf8.

(** [[]byte(s)] and [string(b)]. *)
Definition bytes_of_string (s : string) : list Z :=
  map (fun c => Z.of_N (N_of_ascii c)) (list_ascii_of_string s).

Definition string_of_bytes (b : list Z) : string :=
  string_of_list_ascii (map (fun z => ascii_of_N (Z.to_N z)) b).

(** [utf8.ValidString]. *)
Definition ValidString (s : string) : bool := utf8.Valid (bytes_of_string s).

(** A value of Go type [byte]. *)
Definition is_byte (b : Z) : Prop := (0 <= b < 256)%Z.

(* ===================================================================== *)
(** ** crypto/sha1 and encoding/base64 *)
(* ===================================================================== *)

(** The hash of the standard [crypto/sha1] package, as FIPS 180-4 defines
    it: 32-bit words are [Z] reduced modulo [2^32]. *)
Module sha1.
Local Open Scope Z_scope.

Definition Size : nat := 20.

Definition w32 (x : Z) : Z := Z.land x 0xFFFFFFFF.
Definition rotl (n x : Z) : Z := w32 (Z.lor (Z.shiftl x n) (Z.shiftr x (32 - n))).
Definition not32 (x : Z) : Z := Z.lxor x 0xFFFFFFFF.

Definition be32 (b0 b1 b2 b3 : Z) : Z :=
  Z.lor (Z.shiftl b0 24) (Z.lor (Z.shiftl b1 16) (Z.lor (Z.shiftl b2 8) b3)).

Definition bytes32 (x : Z) : list Z :=
  [Z.land (Z.shiftr x 24) 0xFF; Z.land (Z.shiftr x 16) 0xFF;
   Z.land (Z.shiftr x 8) 0xFF; Z.land x 0xFF].

Definition bytes64 (x : Z) : list Z :=
  bytes32 (Z.shiftr x 32) ++ bytes32 (w32 x).

(** Padding: a [1] bit, zeros up to 56 modulo 64 bytes, and the length
    of the message in bits as a 64-bit big-endian integer. *)
Definition pad (msg : list Z) : list Z :=
  let len := Z.of_nat (List.length msg) in
  msg ++ [0x80] ++ repeat 0 (Z.to_nat ((55 - len) mod 64)) ++ bytes64 (8 * len).

(** The sixteen words of a block (the block is read as far as it goes). *)
Fixpoint words (n : nat) (block : list Z) : list Z :=
  match n, block with
  | S n', b0 :: b1 :: b2 :: b3 :: rest => be32 b0 b1 b2 b3 :: words n' rest
  | _, _ => []
  end.

(** The message schedule, most recent word first: [extend k ws] adds
    [k] words, each [rotl 1 (w[t-3] xor w[t-8] xor w[t-14] xor w[t-16])]. *)
Fixpoint extend (k : nat) (rev_ws : list Z) : list Z :=
  match k with
  | O => rev_ws
  | S k' =>
    let w := rotl 1 (Z.lxor (Z.lxor (nth 2 rev_ws 0) (nth 7 rev_ws 0))
                            (Z.lxor (nth 13 rev_ws 0) (nth 15 rev_ws 0))) in
    extend k' (w :: rev_ws)
  end.

Definition schedule (block : list Z) : list Z :=
  rev (extend 64 (rev (words 16 block))).

Definition state : Type := Z * Z * Z * Z * Z.

Definition init : state :=
  (0x67452301, 0xEFCDAB89, 0x98BADCFE, 0x10325476, 0xC3D2E1F0).

Definition round (t : nat) (s : state) (w : Z) : state :=
  let '(a, b, c, d, e) := s in
  let '(f, k) :=
    if (t <? 20)%nat then
      (Z.lor (Z.land b c) (Z.land (not32 b) d), 0x5A827999)
    else if (t <? 40)%nat then
      (Z.lxor (Z.lxor b c) d, 0x6ED9EBA1)
    else if (t <? 60)%nat then
      (Z.lor (Z.lor (Z.land b c) (Z.land b d)) (Z.land c d), 0x8F1BBCDC)
    else
      (Z.lxor (Z.lxor b c) d, 0xCA62C1D6) in
  let temp := w32 (rotl 5 a + f + e + k + w) in
  (temp, a, rotl 30 b, c, d).

Fixpoint rounds (t : nat) (s : state) (ws : list Z) : state :=
  match ws with
  | [] => s
  | w :: rest => rounds (S t) (round t s w) rest
  end.

Definition compress (h : state) (block : list Z) : state :=
  let '(h0, h1, h2, h3, h4) := h in
  let '(a, b, c, d, e) := rounds 0 h (schedule block) in
  (w32 (h0 + a), w32 (h1 + b), w32 (h2 + c), w32 (h3 + d), w32 (h4 + e)).

(** All 64-byte blocks of the padded message, in order. *)
Fixpoint blocks (n : nat) (h : state) (data : list Z) : state :=
  match n with
  | O => h
  | S n' => blocks n' (compress h (firstn 64 data)) (skipn 64 data)
  end.

Definition digest_bytes (h : state) : list Z :=
  let '(h0, h1, h2, h3, h4) := h in
  bytes32 h0 ++ bytes32 h1 ++ bytes32 h2 ++ bytes32 h3 ++ bytes32 h4.

Definition Sum20 (msg : list Z) : list Z :=
  let p := pad msg in
  digest_bytes (blocks (List.length p / 64) init p).

(** The [hash.Hash] interface as [computeAcceptKey] uses it: the hash
    is the bytes written so far. *)
Definition Hash : Type := list Z.
Definition New : Hash := [].
Definition Write (h : Hash) (p : list Z) : Hash := h ++ p.
Definition Sum (h : Hash) (b : list Z) : list Z := b ++ Sum20 h.
End sha1.

(** [base64.StdEncoding] (RFC 4648, with padding). *)
Module base64.
Local Open Scope Z_scope.

Definition encodeStd : string :=
  "ABCDEFGHIJKLMNOPQRSTUVWXYZabcdefghijklmnopqrstuvwxyz0123456789+/".

Definition char_at (i : Z) : ascii :=
  match String.get (Z.to_nat i) encodeStd with
  | Some c => c
  | None => "="%char
  end.

Fixpoint encode (src : list Z) : list ascii :=
  match src with
  | [] => []
  | [b0] =>
    [char_at (Z.shiftr b0 2);
     char_at (Z.land (Z.shiftl b0 4) 0x3F);
     "="%char; "="%char]
  | [b0; b1] =>
    [char_at (Z.shiftr b0 2);
     char_at (Z.land (Z.lor (Z.shiftl b0 4) (Z.shiftr b1 4)) 0x3F);
     char_at (Z.land (Z.shiftl b1 2) 0x3F);
     "="%char]
  | b0 :: b1 :: b2 :: rest =>
    char_at (Z.shiftr b0 2)
    :: char_at (Z.land (Z.lor (Z.shiftl b0 4) (Z.shiftr b1 4)) 0x3F)
    :: char_at (Z.land (Z.lor (Z.shiftl b1 2) (Z.shiftr b2 6)) 0x3F)
    :: char_at (Z.land b2 0x3F)
    :: encode rest
  end.

Definition EncodeToString (src : list Z) : string :=
  string_of_list_ascii (encode src).
End base64.

(** The functions of the standard [strings] package that the library
    calls with a one-byte separator. *)
Module gostrings.

(** [strings.Split(s, sep)] for a separator [sep] of one byte: the
    pieces of [s] between consecutive separators; [aux] carries the
    piece being read, last character first. *)
Fixpoint split_aux (sep : ascii) (cur : list ascii) (s : list ascii) : list string :=
  match s with
  | [] => [string_of_list_ascii (rev cur)]
  | c :: rest =>
    if Ascii.eqb c sep then string_of_list_ascii (rev cur) :: split_aux sep [] rest
    else split_aux sep (c :: cur) rest
  end.

Definition Split (s : string) (sep : ascii) : list string :=
  split_aux sep [] (list_ascii_of_string s).

(** [strings.Join(elems, sep)]. *)
Fixpoint Join (elems : list string) (sep : string) : string :=
  match elems with
  | [] => ""
  | [e] => e
  | e :: rest => e ++ sep ++ Join rest sep
  end.

(** [strings.Count(s, sep)] for a separator of one byte. *)
Fixpoint count_byte (sep : ascii) (s : list ascii) : nat :=
  match s with
  | [] => 0
  | c :: rest => (if Ascii.eqb c sep then 1 else 0) + count_byte sep rest
  end.

Definition Count (s : string) (sep : ascii) : nat :=
  count_byte sep (list_ascii_of_string s).

(** [strings.ContainsRune(s, c)] for a one-byte character. *)
Definition Contains (s : string) (c : ascii) : bool :=
  existsb (Ascii.eqb c) (list_ascii_of_string s).

(** The behaviour of [strings.TrimSpace] and [strings.ToLower] on
    strings of ASCII characters: white space is tab, line feed, vertical
    tab, form feed, carriage return and space. *)
Definition asciiSpace (c : ascii) : bool :=
  let n := nat_of_ascii c in
  (n =? 9)%nat || (n =? 10)%nat || (n =? 11)%nat || (n =? 12)%nat
  || (n =? 13)%nat || (n =? 32)%nat.

Fixpoint trim_left (s : list ascii) : list ascii :=
  match s with
  | c :: rest => if asciiSpace c then trim_left rest else s
  | [] => []
  end.

Definition ascii_TrimSpace (s : string) : string :=
  string_of_list_ascii (rev (trim_left (rev (trim_left (list_ascii_of_string s))))).

Definition lower (c : ascii) : ascii :=
  let n := nat_of_ascii c in
  if (65 <=? n)%nat && (n <=? 90)%nat then ascii_of_nat (n + 32) else c.

Definition ascii_ToLower (s : string) : string :=
  string_of_list_ascii (map lower (list_ascii_of_string s)).
End gostrings.

(* ===================================================================== *)
(** ** Package websocket *)
(* ===================================================================== *)

Module websocket.
Local Open Scope Z_scope.

(** *** Opcodes (RFC 6455 Section 5.2) *)

Definition opcodeContinuation : Z := 0x0.
Definition opcodeText : Z := 0x1.
Definition opcodeBinary : Z := 0x2.
Definition opcodeClose : Z := 0x8.
Definition opcodePing : Z := 0x9.
Definition opcodePong : Z := 0xA.

Definition isControlFrame (opcode : Z) : bool :=
  negb (Z.land opcode 0x08 =? 0).

Definition isDataFrame (opcode : Z) : bool :=
  (opcode =? opcodeContinuation) || (opcode =? opcodeText) || (opcode =? opcodeBinary).

Definition isValidOpcode (opcode : Z) : bool :=
  (opcode =? opcodeContinuation) || (opcode =? opcodeText) || (opcode =? opcodeBinary)
  || (opcode =? opcodeClose) || (opcode =? opcodePing) || (opcode =? opcodePong).

(** *** Message types and close codes *)

Definition MessageType := Z.
Definition TextMessage : MessageType := 1.
Definition BinaryMessage : MessageType := 2.

Definition CloseCode := Z.
Definition CloseNormalClosure : CloseCode := 1000.
Definition CloseGoingAway : CloseCode := 1001.
Definition CloseProtocolError : CloseCode := 1002.
Definition CloseUnsupportedData : CloseCode := 1003.
Definition CloseNoStatusReceived : CloseCode := 1005.
Definition CloseAbnormalClosure : CloseCode := 1006.
Definition CloseInvalidFramePayloadData : CloseCode := 1007.
Definition ClosePolicyViolation : CloseCode := 1008.
Definition CloseMessageTooBig : CloseCode := 1009.
Definition CloseMandatoryExtension : CloseCode := 1010.
Definition CloseInternalServerErr : CloseCode := 1011.
Definition CloseServiceRestart : CloseCode := 1012.
Definition CloseTryAgainLater : CloseCode := 1013.
Definition CloseTLSHandshake : CloseCode := 1015.

(** *** The frame codec *)

Definition maxControlPayload : Z := 125.
Definition maxFramePayload : Z := 32 * 1024 * 1024.
Definition payloadLen7Bit : Z := 125.
Definition payloadLen16Bit : Z := 126.
Definition payloadLen64Bit : Z := 127.

(** A [[4]byte]. *)
Definition mask4 : Type := Z * Z * Z * Z.
Definition zero_mask : mask4 := (0, 0, 0, 0).

(** [mask[j]] for [j] in [0, 4). *)
Definition mask_at (m : mask4) (j : Z) : Z :=
  let '(m0, m1, m2, m3) := m in
  match j with
  | 0 => m0
  | 1 => m1
  | 2 => m2
  | _ => m3
  end.

Definition mask_bytes (m : mask4) : list Z :=
  let '(m0, m1, m2, m3) := m in [m0; m1; m2; m3].

Record frame := mkFrame {
  fin : bool;
  rsv1 : bool;
  rsv2 : bool;
  rsv3 : bool;
  opcode : Z;
  masked : bool;
  mask : mask4;
  payload : list Z
}.

(** [applyMask]: [data[i] ^= mask[i%4]] for every index [i]; the
    auxiliary function carries the index of the head of the list. *)
Fixpoint applyMask_from (i : Z) (data : list Z) (m : mask4) : list Z :=
  match data with
  | [] => []
  | b :: rest => Z.lxor b (mask_at m (i mod 4)) :: applyMask_from (i + 1) rest m
  end.

Definition applyMask (data : list Z) (m : mask4) : list Z :=
  applyMask_from 0 data m.

(** [binary.BigEndian]. *)
Definition PutUint16 (v : Z) : list Z :=
  [Z.land (Z.shiftr v 8) 0xFF; Z.land v 0xFF].

Definition Uint16 (b : list Z) : Z :=
  match b with
  | [b0; b1] => Z.lor (Z.shiftl b0 8) b1
  | _ => 0
  end.

Definition PutUint64 (v : Z) : list Z :=
  [Z.land (Z.shiftr v 56) 0xFF; Z.land (Z.shiftr v 48) 0xFF;
   Z.land (Z.shiftr v 40) 0xFF; Z.land (Z.shiftr v 32) 0xFF;
   Z.land (Z.shiftr v 24) 0xFF; Z.land (Z.shiftr v 16) 0xFF;
   Z.land (Z.shiftr v 8) 0xFF; Z.land v 0xFF].

Definition Uint64 (b : list Z) : Z :=
  match b with
  | [b0; b1; b2; b3; b4; b5; b6; b7] =>
    Z.lor (Z.shiftl b0 56) (Z.lor (Z.shiftl b1 48) (Z.lor (Z.shiftl b2 40)
    (Z.lor (Z.shiftl b3 32) (Z.lor (Z.shiftl b4 24) (Z.lor (Z.shiftl b5 16)
    (Z.lor (Z.shiftl b6 8) b7))))))
  | _ => 0
  end.

(** [io.ReadFull(r, buf)] with [len(buf) = n]: the bytes read and the
    reader after the call.  A short read consumes what is left. *)
Definition ReadFull (r : list Z) (n : nat) : result (list Z) * list Z :=
  if (n <=? List.length r)%nat then (Ok (firstn n r), skipn n r)
  else match r with
       | [] => (Err (ErrIO EOF), [])
       | _ => (Err (ErrIO ErrUnexpectedEOF), [])
       end.

(** [readFrame]: the parsed frame or the error, and the reader after the
    call. *)
Definition readFrame (r : list Z) : result frame * list Z :=
  (* Step 1: 2-byte header. *)
  match ReadFull r 2 with
  | (Err e, r1) => (Err e, r1)
  | (Ok header, r1) =>
    let h0 := nth 0 header 0 in
    let h1 := nth 1 header 0 in
    let f_fin := negb (Z.land h0 0x80 =? 0) in
    let f_rsv1 := negb (Z.land h0 0x40 =? 0) in
    let f_rsv2 := negb (Z.land h0 0x20 =? 0) in
    let f_rsv3 := negb (Z.land h0 0x10 =? 0) in
    let f_opcode := Z.land h0 0x0F in
    let f_masked := negb (Z.land h1 0x80 =? 0) in
    if negb (isValidOpcode f_opcode) then (Err ErrInvalidOpcode, r1)
    else if f_rsv1 || f_rsv2 || f_rsv3 then (Err ErrReservedBits, r1)
    else if isControlFrame f_opcode && negb f_fin then (Err ErrControlFragmented, r1)
    else
      (* Step 2: payload length. *)
      let len7 := Z.land h1 0x7F in
      let ext :=
        if len7 =? payloadLen16Bit then
          match ReadFull r1 2 with
          | (Err e, r2) => (Err e, r2)
          | (Ok buf, r2) => (Ok (Uint16 buf), r2)
          end
        else if len7 =? payloadLen64Bit then
          match ReadFull r1 8 with
          | (Err e, r2) => (Err e, r2)
          | (Ok buf, r2) =>
            let n := Uint64 buf in
            if negb (Z.land n (Z.shiftl 1 63) =? 0) then (Err ErrProtocolError, r2)
            else (Ok n, r2)
          end
        else (Ok len7, r1) in
      match ext with
      | (Err e, r2) => (Err e, r2)
      | (Ok payloadLen, r2) =>
        if isControlFrame f_opcode && (maxControlPayload <? payloadLen)
        then (Err ErrControlTooLarge, r2)
        else if maxFramePayload <? payloadLen then (Err ErrFrameTooLarge, r2)
        else
          (* Step 3: masking key. *)
          let key :=
            if f_masked then
              match ReadFull r2 4 with
              | (Err e, r3) => (Err e, r3)
              | (Ok k, r3) => (Ok (nth 0 k 0, nth 1 k 0, nth 2 k 0, nth 3 k 0), r3)
              end
            else (Ok zero_mask, r2) in
          match key with
          | (Err e, r3) => (Err e, r3)
          | (Ok f_mask, r3) =>
            (* Steps 4 and 5: payload, unmasked when the mask bit is set. *)
            let body :=
              if 0 <? payloadLen then
                match ReadFull r3 (Z.to_nat payloadLen) with
                | (Err e, r4) => (Err e, r4)
                | (Ok p, r4) =>
                  (Ok (if f_masked then applyMask p f_mask else p), r4)
                end
              else (Ok [], r3) in
            match body with
            | (Err e, r4) => (Err e, r4)
            | (Ok f_payload, r4) =>
              (* Step 6: UTF-8 for text frames. *)
              if (f_opcode =? opcodeText) && negb (utf8.Valid f_payload)
              then (Err ErrInvalidUTF8, r4)
              else (Ok (mkFrame f_fin f_rsv1 f_rsv2 f_rsv3 f_opcode f_masked
                                f_mask f_payload), r4)
            end
          end
      end
  end.

(** A [*bufio.Writer]: the bytes that reached the peer, and whether the
    underlying sink rejects writes.  The sink of this model takes the
    octets of a frame whole, or, when [broken] is set, fails without
    taking any of them, as a write on a closed socket does.  A sink that
    fails after it has taken a part of a frame is not represented. *)
Record Writer := mkWriter {
  wire : list Z;
  broken : bool
}.

(** The header, extended length, masking key and payload octets that
    [writeFrame] and [writeFrameNoValidation] hand to the writer
    (steps 1 to 5 of both functions, which are the same text). *)
Definition frameBytes (f : frame) : list Z :=
  let payloadLen := Z.of_nat (List.length (payload f)) in
  let h0 := 0 in
  let h0 := if fin f then Z.lor h0 0x80 else h0 in
  let h0 := if rsv1 f then Z.lor h0 0x40 else h0 in
  let h0 := if rsv2 f then Z.lor h0 0x20 else h0 in
  let h0 := if rsv3 f then Z.lor h0 0x10 else h0 in
  let h0 := Z.lor h0 (Z.land (opcode f) 0x0F) in
  let h1 := 0 in
  let h1 := if masked f then Z.lor h1 0x80 else h1 in
  let h1 :=
    if payloadLen <=? payloadLen7Bit then Z.lor h1 (Z.land payloadLen 0xFF)
    else if payloadLen <=? 0xFFFF then Z.lor h1 payloadLen16Bit
    else Z.lor h1 payloadLen64Bit in
  let out := [h0; h1] in
  let out :=
    if (payloadLen7Bit <? payloadLen) && (payloadLen <=? 0xFFFF)
    then out ++ PutUint16 payloadLen
    else if 0xFFFF <? payloadLen then out ++ PutUint64 payloadLen
    else out in
  let out := if masked f then out ++ mask_bytes (mask f) else out in
  let out :=
    if (0 <? Z.of_nat (List.length (payload f)))%Z then
      out ++ (if masked f then applyMask (payload f) (mask f) else payload f)
    else out in
  out.

(** Step 6 of both write functions: [w.Flush()]. *)
Definition flush (w : Writer) (out : list Z) : Writer * option error :=
  if broken w then (w, Some (ErrIO ErrWriteFailed))
  else (mkWriter (wire w ++ out) (broken w), None).

Definition writeFrameNoValidation (w : Writer) (f : frame) : Writer * option error :=
  flush w (frameBytes f).

Definition writeFrame (w : Writer) (f : frame) : Writer * option error :=
  if negb (isValidOpcode (opcode f)) then (w, Some ErrInvalidOpcode)
  else if isControlFrame (opcode f) && negb (fin f) then (w, Some ErrControlFragmented)
  else if isControlFrame (opcode f)
          && (maxControlPayload <? Z.of_nat (List.length (payload f)))
  then (w, Some ErrControlTooLarge)
  else if (opcode f =? opcodeText) && negb (utf8.Valid (payload f))
  then (w, Some ErrInvalidUTF8)
  else if maxFramePayload <? Z.of_nat (List.length (payload f))
  then (w, Some ErrFrameTooLarge)
  else flush w (frameBytes f).


(** *** Connections *)

(** The underlying [net.Conn]: all that the library does with it
    directly is to close it. *)
Record NetConn := mkNetConn {
  net_closed : bool
}.

Record Conn := mkConn {
  conn : option NetConn;
  reader : list Z;
  writer : Writer;
  isServer : bool;
  closeOnce : bool;          (* the [sync.Once] has run *)
  closed : bool;
  fragmentBuf : list Z;
  fragmentType : Z;
  inFragment : bool
}.

Definition newConn (netConn : option NetConn) (r : list Z) (w : Writer)
           (server : bool) : Conn :=
  mkConn netConn r w server false false [] 0 false.

Definition set_conn (c : Conn) (n : option NetConn) : Conn :=
  mkConn n (reader c) (writer c) (isServer c) (closeOnce c) (closed c)
         (fragmentBuf c) (fragmentType c) (inFragment c).
Definition set_reader (c : Conn) (r : list Z) : Conn :=
  mkConn (conn c) r (writer c) (isServer c) (closeOnce c) (closed c)
         (fragmentBuf c) (fragmentType c) (inFragment c).
Definition set_writer (c : Conn) (w : Writer) : Conn :=
  mkConn (conn c) (reader c) w (isServer c) (closeOnce c) (closed c)
         (fragmentBuf c) (fragmentType c) (inFragment c).
Definition set_closeOnce (c : Conn) (b : bool) : Conn :=
  mkConn (conn c) (reader c) (writer c) (isServer c) b (closed c)
         (fragmentBuf c) (fragmentType c) (inFragment c).
Definition set_closed (c : Conn) (b : bool) : Conn :=
  mkConn (conn c) (reader c) (writer c) (isServer c) (closeOnce c) b
         (fragmentBuf c) (fragmentType c) (inFragment c).
Definition set_fragment (c : Conn) (buf : list Z) (ty : Z) (inf : bool) : Conn :=
  mkConn (conn c) (reader c) (writer c) (isServer c) (closeOnce c) (closed c)
         buf ty inf.

(** The key that the library gives to every frame it masks. *)
Definition constMask : mask4 := (0x12, 0x34, 0x56, 0x78).

(** The frame that [Write], [Ping], [Pong] and [CloseWithCode] build:
    [fin] set, masked exactly on a client connection. *)
Definition outFrame (c : Conn) (op : Z) (data : list Z) : frame :=
  mkFrame true false false false op (negb (isServer c))
          (if negb (isServer c) then constMask else zero_mask) data.

Definition Write (c : Conn) (messageType : MessageType) (data : list Z)
  : Conn * option error :=
  if closed c then (c, Some ErrClosed)
  else if messageType =? TextMessage then
    if negb (utf8.Valid data) then (c, Some ErrInvalidUTF8)
    else let '(w, e) := writeFrame (writer c) (outFrame c opcodeText data) in
         (set_writer c w, e)
  else if messageType =? BinaryMessage then
    let '(w, e) := writeFrame (writer c) (outFrame c opcodeBinary data) in
    (set_writer c w, e)
  else (c, Some ErrInvalidMessageType).

Definition WriteText (c : Conn) (text : string) : Conn * option error :=
  Write c TextMessage (bytes_of_string text).

Definition Ping (c : Conn) (data : list Z) : Conn * option error :=
  if closed c then (c, Some ErrClosed)
  else if (125 <? List.length data)%nat then (c, Some ErrControlTooLarge)
  else let '(w, e) := writeFrame (writer c) (outFrame c opcodePing data) in
       (set_writer c w, e).

Definition Pong (c : Conn) (data : list Z) : Conn * option error :=
  if closed c then (c, Some ErrClosed)
  else if (125 <? List.length data)%nat then (c, Some ErrControlTooLarge)
  else let '(w, e) := writeFrame (writer c) (outFrame c opcodePong data) in
       (set_writer c w, e).

(** The payload of a close frame: the status code, big-endian, then
    the reason. *)
Definition closePayload (code : CloseCode) (reason : string) : list Z :=
  [Z.land (Z.shiftr code 8) 0xFF; Z.land (Z.land code 0xFF) 0xFF]
    ++ bytes_of_string reason.

(** [CloseWithCode]: the body runs under [closeOnce.Do]; a later call
    finds the once spent and returns the zero [error]. *)
Definition CloseWithCode (c : Conn) (code : CloseCode) (reason : string)
  : Conn * option error :=
  if closeOnce c then (c, None)
  else
    let c := set_closeOnce c true in
    let c := set_closed c true in
    let payload := closePayload code reason in
    if negb (String.eqb reason "") && negb (ValidString reason)
    then (c, Some ErrInvalidUTF8)
    else
      let '(w, writeErr) := writeFrame (writer c) (outFrame c opcodeClose payload) in
      let c := set_writer c w in
      match writeErr with
      | Some e => (c, Some e)
      | None =>
        match conn c with
        | Some _ => (set_conn c (Some (mkNetConn true)), None)
        | None => (c, None)
        end
      end.

Definition Close (c : Conn) : Conn * option error :=
  CloseWithCode c CloseNormalClosure "".

Definition handleCloseFrame (c : Conn) (payload : list Z) : Conn :=
  let c := set_closed c true in
  let code :=
    if (2 <=? List.length payload)%nat
    then Z.lor (Z.shiftl (nth 0 payload 0) 8) (nth 1 payload 0)
    else CloseNoStatusReceived in
  fst (CloseWithCode c code "").

(** The loop of [Read].  Every iteration consumes a frame from the
    reader, so the length of the reader bounds the iterations; [None]
    is a loop cut short by [fuel]. *)
Fixpoint Read_loop (fuel : nat) (c : Conn)
  : option (Conn * result (MessageType * list Z)) :=
  match fuel with
  | O => None
  | S fuel' =>
    match readFrame (reader c) with
    | (Err e, r) => Some (set_reader c r, Err e)
    | (Ok f, r) =>
      let c := set_reader c r in
      if opcode f =? opcodePing then
        match Pong c (payload f) with
        | (c', Some e) => Some (c', Err e)
        | (c', None) => Read_loop fuel' c'
        end
      else if opcode f =? opcodePong then Read_loop fuel' c
      else if opcode f =? opcodeClose then
        Some (handleCloseFrame c (payload f), Err ErrClosed)
      else if (opcode f =? opcodeText) || (opcode f =? opcodeBinary) then
        if fin f then
          let msgType := opcode f in
          if (msgType =? TextMessage) && negb (utf8.Valid (payload f)) then
            Some (fst (CloseWithCode c CloseInvalidFramePayloadData "invalid UTF-8"),
                  Err ErrInvalidUTF8)
          else Some (c, Ok (msgType, payload f))
        else
          Read_loop fuel' (set_fragment c (payload f) (opcode f) true)
      else if opcode f =? opcodeContinuation then
        if negb (inFragment c) then
          Some (fst (CloseWithCode c CloseProtocolError "unexpected continuation"),
                Err ErrUnexpectedContinuation)
        else
          let c := set_fragment c (fragmentBuf c ++ payload f) (fragmentType c)
                                (inFragment c) in
          if fin f then
            let c := set_fragment c (fragmentBuf c) (fragmentType c) false in
            let msgType := fragmentType c in
            let payload := fragmentBuf c in
            if (msgType =? TextMessage) && negb (utf8.Valid payload) then
              Some (fst (CloseWithCode c CloseInvalidFramePayloadData "invalid UTF-8"),
                    Err ErrInvalidUTF8)
            else Some (c, Ok (msgType, payload))
          else Read_loop fuel' c
      else Read_loop fuel' c
    end
  end.

Definition Read (c : Conn) : option (Conn * result (MessageType * list Z)) :=
  if closed c then Some (c, Err ErrClosed)
  else Read_loop (S (List.length (reader c))) c.


(** [ReadText]: [Read], then the check of the message type. *)
Definition ReadText (c : Conn) : option (Conn * result string) :=
  match Read c with
  | None => None
  | Some (c', Err e) => Some (c', Err e)
  | Some (c', Ok (msgType, data)) =>
    if negb (msgType =? TextMessage) then Some (c', Err ErrInvalidMessageType)
    else Some (c', Ok (string_of_bytes data))
  end.

(** [errors.Is(err, ErrClosed)] on the sentinels. *)
Definition is_ErrClosed (e : error) : bool :=
  match e with
  | ErrClosed => true
  | _ => false
  end.

(** [IsCloseError]; [None] is the [nil] error. *)
Definition IsCloseError (err : option error) : bool :=
  match err with
  | None => false
  | Some e => is_ErrClosed e
  end.

(** *** The broadcast hub *)

(** A [*Conn] is an identifier; the connections themselves live in a
    store that the application owns and the hub only refers to.  A channel
    is the list of the values sent and not yet received; its capacity, and
    so the blocking of a sender, is not represented in the sends, and is
    looked at only where the channels are closed. *)
Module Hub.

Record t := mk {
  clients : gset nat;            (* map[*Conn]bool *)
  register : list nat;           (* values waiting in each channel *)
  unregister : list nat;
  broadcast : list (list Z);
  done : bool;                   (* the done channel is closed *)
  closed : bool
}.

Definition NewHub : t := mk ∅ [] [] [] false false.

Definition Register (h : t) (client : nat) : t :=
  if closed h then h
  else mk (clients h) (register h ++ [client]) (unregister h) (broadcast h)
          (done h) (closed h).

Definition Unregister (h : t) (client : nat) : t :=
  if closed h then h
  else mk (clients h) (register h) (unregister h ++ [client]) (broadcast h)
          (done h) (closed h).

Definition Broadcast (h : t) (message : list Z) : t :=
  if closed h then h
  else mk (clients h) (register h) (unregister h) (broadcast h ++ [message])
          (done h) (closed h).

Definition BroadcastText (h : t) (text : string) : t :=
  Broadcast h (bytes_of_string text).

(** [json.Marshal] is the argument [Marshal]. *)
Definition BroadcastJSON {V : Type} (Marshal : V -> result (list Z))
           (h : t) (v : V) : t * option error :=
  match Marshal v with
  | Err e => (h, Some e)
  | Ok data => (Broadcast h data, None)
  end.

Definition ClientCount (h : t) : nat := size (clients h).

(** The goroutine that [Run] starts for one client of a broadcast. *)
Definition send (message : list Z) (acc : t * gmap nat Conn) (c : nat)
  : t * gmap nat Conn :=
  let '(h, σ) := acc in
  match σ !! c with
  | None => (h, σ)
  | Some cn =>
    let '(cn', err) := Write cn BinaryMessage message in
    (match err with
     | Some _ => Unregister h c
     | None => h
     end, <[c := cn']> σ)
  end.

(** The case of the [select] in [Run] that is taken. *)
Inductive ready :=
| RecvRegister
| RecvUnregister
| RecvBroadcast
| RecvDone.

(** One iteration of the loop of [Run] on the chosen case: the hub
    and the store after it, and whether the loop goes on.  [None]
    when the chosen channel has nothing to receive.  The goroutines
    of a broadcast run one after the other, in the order in which
    the membership is iterated. *)
Definition Run_iter (sel : ready) (h : t) (σ : gmap nat Conn)
  : option (t * gmap nat Conn * bool) :=
  match sel with
  | RecvRegister =>
    match register h with
    | [] => None
    | client :: q =>
      Some (mk ({[client]} ∪ clients h) q (unregister h) (broadcast h)
               (done h) (closed h), σ, true)
    end
  | RecvUnregister =>
    match unregister h with
    | [] => None
    | client :: q =>
      if decide (client ∈ clients h) then
        Some (mk (clients h ∖ {[client]}) (register h) q (broadcast h)
                 (done h) (closed h),
              match σ !! client with
              | Some cn => <[client := fst (Close cn)]> σ
              | None => σ
              end, true)
      else
        Some (mk (clients h) (register h) q (broadcast h) (done h) (closed h),
              σ, true)
    end
  | RecvBroadcast =>
    match broadcast h with
    | [] => None
    | message :: q =>
      let h1 := mk (clients h) (register h) (unregister h) q (done h) (closed h) in
      let '(h2, σ2) := foldl (send message) (h1, σ) (elements (clients h)) in
      Some (h2, σ2, true)
    end
  | RecvDone =>
    if done h then Some (h, σ, false) else None
  end.

(** [client.Close()] on a member, in the store. *)
Definition close_client (σ : gmap nat Conn) (client : nat) : gmap nat Conn :=
  match σ !! client with
  | Some cn => <[client := fst (Close cn)]> σ
  | None => σ
  end.

(** The capacity that [NewHub] gives the broadcast channel; the
    register and unregister channels have none. *)
Definition broadcastCapacity : nat := 256.

(** Is a sender blocked in a send on one of the three channels?  What
    waits in an unbuffered channel is the value of a sender that is
    blocked, and so is what waits in the broadcast channel beyond its
    capacity. *)
Definition senders_waiting (h : t) : bool :=
  match register h, unregister h with
  | [], [] => (broadcastCapacity <? List.length (broadcast h))%nat
  | _, _ => true
  end.

(** What a call of [Hub.Close] comes to: it returns, or its closing of
    the channels makes a sender that is blocked on one of them panic with
    a send on a closed channel. *)
Inductive closing :=
| Closes (h : t) (σ : gmap nat Conn) (err : option error)
| SendPanics (h : t) (σ : gmap nat Conn).

(** [Hub.Close], with the loop of [Run] taking the done case as soon
    as the done channel is closed (another order is the iterations of
    [Run_iter] that come first, then [Close]): the flag is set, the done
    channel closed, every member closed, the membership emptied, and the
    three channels closed.  What is buffered in the broadcast channel
    stays there unread. *)
Definition Close (h : t) (σ : gmap nat Conn) : closing :=
  if closed h then Closes h σ None
  else
    let h' := mk ∅ (register h) (unregister h) (broadcast h) true true in
    let σ' := foldl close_client σ (elements (clients h)) in
    if senders_waiting h then SendPanics h' σ' else Closes h' σ' None.

End Hub.

(** *** The opening handshake *)

Definition websocketGUID : string := "258EAFA5-E914-47DA-95CA-C5AB0DC85B11".
Definition defaultReadBufferSize : Z := 4096.
Definition defaultWriteBufferSize : Z := 4096.

(** An [*http.Request]: the method and the headers, by canonical name. *)
Record Request := mkRequest {
  Method : string;
  Header : gmap string string
}.

(** [r.Header.Get(key)]. *)
Definition Get (h : gmap string string) (key : string) : string :=
  default "" (h !! key).

Record UpgradeOptions := mkUpgradeOptions {
  Subprotocols : list string;
  CheckOrigin : option (Request -> bool);
  ReadBufferSize : Z;
  WriteBufferSize : Z
}.

(** What [w.(http.Hijacker)] and [Hijack()] answer. *)
Inductive hijacker :=
| NotHijacker                                   (* the type assertion fails *)
| HijackFails (e : error)
| Hijacked (netConn : NetConn) (input : list Z) (flushOk : bool).

(** An [http.ResponseWriter]: the headers set, the status written. *)
Record ResponseWriter := mkResponseWriter {
  rw_Header : gmap string string;
  rw_status : option Z;
  rw_hijacker : hijacker
}.

Definition StatusSwitchingProtocols : Z := 101.

(** [computeAcceptKey]. *)
Definition computeAcceptKey (key : string) : string :=
  let h := sha1.New in
  let h := sha1.Write h (bytes_of_string key) in
  let h := sha1.Write h (bytes_of_string websocketGUID) in
  base64.EncodeToString (sha1.Sum h []).

Section Handshake.

(** [strings.ToLower] and [strings.TrimSpace] of the standard
    library. *)
Variable ToLower : string -> string.
Variable TrimSpace : string -> string.

(** The inner loop of [negotiateSubprotocol]: is [clientProto] one
    of the server's? *)
Fixpoint offered (clientProto : string) (serverProtos : list string) : bool :=
  match serverProtos with
  | [] => false
  | serverProto :: rest =>
    if String.eqb clientProto serverProto then true
    else offered clientProto rest
  end.

(** The outer loop of [negotiateSubprotocol]. *)
Fixpoint negotiate_loop (clientProtos : list string) (serverProtos : list string)
  : string :=
  match clientProtos with
  | [] => ""
  | clientProto :: rest =>
    let clientProto := TrimSpace clientProto in
    if offered clientProto serverProtos then clientProto
    else negotiate_loop rest serverProtos
  end.

Definition negotiateSubprotocol (r : Request) (serverProtos : list string) : string :=
  match serverProtos with
  | [] => ""
  | _ =>
    negotiate_loop
      (gostrings.Split (Get (Header r) "Sec-WebSocket-Protocol") ","%char)
      serverProtos
  end.

Definition headerContainsToken (header token : string) : bool :=
  let header := ToLower header in
  let token := ToLower token in
  existsb (fun h => String.eqb (TrimSpace h) token)
          (gostrings.Split header ","%char).

(** [Upgrade]: the response writer after the call and the connection or
    the error.  The buffer sizes only set the capacity of the buffered
    reader and writer of the new connection, which a list of bytes does
    not have. *)
Definition Upgrade (w : ResponseWriter) (r : Request) (opts : option UpgradeOptions)
  : ResponseWriter * result Conn :=
  let opts := match opts with
              | Some o => o
              | None => mkUpgradeOptions [] None 0 0
              end in
  let opts := if (ReadBufferSize opts =? 0)%Z
              then mkUpgradeOptions (Subprotocols opts) (CheckOrigin opts)
                                    defaultReadBufferSize (WriteBufferSize opts)
              else opts in
  let opts := if (WriteBufferSize opts =? 0)%Z
              then mkUpgradeOptions (Subprotocols opts) (CheckOrigin opts)
                                    (ReadBufferSize opts) defaultWriteBufferSize
              else opts in
  if negb (String.eqb (Method r) "GET") then (w, Err ErrInvalidMethod)
  else if negb (headerContainsToken (Get (Header r) "Upgrade") "websocket")
  then (w, Err ErrMissingUpgrade)
  else if negb (headerContainsToken (Get (Header r) "Connection") "upgrade")
  then (w, Err ErrMissingConnection)
  else if negb (String.eqb (Get (Header r) "Sec-WebSocket-Version") "13")
  then (w, Err ErrInvalidVersion)
  else
    let key := Get (Header r) "Sec-WebSocket-Key" in
    if String.eqb key "" then (w, Err ErrMissingSecKey)
    else if match CheckOrigin opts with
            | Some check => negb (check r)
            | None => false
            end
    then (w, Err ErrOriginDenied)
    else
      let subprotocol := negotiateSubprotocol r (Subprotocols opts) in
      let accept := computeAcceptKey key in
      let hd := <["Upgrade" := "websocket"]> (rw_Header w) in
      let hd := <["Connection" := "Upgrade"]> hd in
      let hd := <["Sec-WebSocket-Accept" := accept]> hd in
      let hd := if negb (String.eqb subprotocol "")
                then <["Sec-WebSocket-Protocol" := subprotocol]> hd
                else hd in
      let w := mkResponseWriter hd (Some StatusSwitchingProtocols) (rw_hijacker w) in
      match rw_hijacker w with
      | NotHijacker => (w, Err ErrHijackFailed)
      | HijackFails e => (w, Err e)
      | Hijacked netConn input flushOk =>
        if negb flushOk then (w, Err (ErrIO ErrWriteFailed))
        else (w, Ok (newConn (Some netConn) input (mkWriter [] false) true))
      end.

End Handshake.

End websocket.

(* ===================================================================== *)
(** ** Package sse *)
(* ===================================================================== *)

Module sse.

Inductive error :=
| ErrConnectionClosed
| ErrNoFlusher
| ErrHubClosed
| ErrWrite                   (* "sse: failed to write event" *)
| ErrMarshal.                (* "sse: failed to marshal JSON" *)

(** *** Events *)

Record Event := mkEvent {
  Type_ : string;            (* the field [Type] *)
  ID : string;
  Data : string;
  Retry : Z
}.

Definition NewEvent (data : string) : Event := mkEvent "" "" data 0.
Definition WithType (e : Event) (typ : string) : Event :=
  mkEvent typ (ID e) (Data e) (Retry e).
Definition WithID (e : Event) (id : string) : Event :=
  mkEvent (Type_ e) id (Data e) (Retry e).
Definition WithRetry (e : Event) (ms : Z) : Event :=
  mkEvent (Type_ e) (ID e) (Data e) ms.

(** The line feed character. *)
Definition LF : ascii := "010"%char.

(** A [strings.Builder] is the string built so far. *)
Definition WriteString (b : string) (s : string) : string := b ++ s.
Definition WriteByte (b : string) (c : ascii) : string := b ++ String c EmptyString.

(** [fmt.Sprintf("%d", n)]. *)
Definition Sprintf_d (n : Z) : string :=
  DecimalString.NilZero.string_of_int (Z.to_int n).

(** [Event.String]. *)
Definition String (e : Event) : string :=
  let b := "" in
  let b := if negb (String.eqb (Type_ e) "")
           then WriteByte (WriteString (WriteString b "event: ") (Type_ e)) LF
           else b in
  let b := if negb (String.eqb (ID e) "")
           then WriteByte (WriteString (WriteString b "id: ") (ID e)) LF
           else b in
  let b := if (0 <? Retry e)%Z
           then WriteByte (WriteString (WriteString b "retry: ") (Sprintf_d (Retry e))) LF
           else b in
  let lines := gostrings.Split (Data e) LF in
  let b := fold_left
             (fun b line => WriteByte (WriteString (WriteString b "data: ") line) LF)
             lines b in
  WriteByte b LF.

Definition Comment (text : string) : string :=
  ": " ++ text ++ String.String LF (String.String LF EmptyString).

(** *** Connections *)

(** The response stream of a connection: what was written (and
    flushed) to the client, whether the writer fails, how often the
    cancel function was called and how often the done channel was
    closed. *)
Record Conn := mkConn {
  w : string;
  w_fails : bool;
  cancel : nat;
  done : nat;
  closed : bool
}.

Definition Send (c : Conn) (event : Event) : Conn * option error :=
  if closed c then (c, Some ErrConnectionClosed)
  else if w_fails c then (c, Some ErrWrite)
  else (mkConn (w c ++ String event) (w_fails c) (cancel c) (done c) (closed c), None).

Definition SendData (c : Conn) (data : string) : Conn * option error :=
  Send c (NewEvent data).

Definition Close (c : Conn) : Conn * option error :=
  if closed c then (c, None)
  else (mkConn (w c) (w_fails c) (S (cancel c)) (S (done c)) true, None).

(** *** The typed hub *)

(** What the type switch of [convertToString] and [json.Marshal] see of
    a value of type [T]: the string it is when its dynamic type is
    [string], the result of its [String] method when it is a
    [fmt.Stringer], and its JSON encoding ([None] when encoding
    fails). *)
Class Payload (T : Type) := {
  as_string : T -> option string;
  as_Stringer : T -> option string;
  Marshal : T -> option string
}.

Module Hub.
Section Typed.
Context {T : Type} `{Payload T}.

Record t := mk {
  clients : gset nat;
  broadcast : list T;
  register : list nat;
  unregister : list nat;
  done : bool;
  closed : bool
}.

Definition NewHub : t := mk ∅ [] [] [] false false.

Definition convertToString (data : T) : string :=
  match as_string data with
  | Some v => v
  | None =>
    match as_Stringer data with
    | Some s => s
    | None =>
      match Marshal data with
      | None => ""
      | Some jsonData => jsonData
      end
    end
  end.

Definition handleRegister (h : t) (client : nat) : t :=
  mk ({[client]} ∪ clients h) (broadcast h) (register h) (unregister h)
     (done h) (closed h).

Definition close_in (σ : gmap nat Conn) (client : nat) : gmap nat Conn :=
  match σ !! client with
  | Some c => <[client := fst (Close c)]> σ
  | None => σ
  end.

Definition handleUnregister (h : t) (σ : gmap nat Conn) (client : nat)
  : t * gmap nat Conn :=
  if decide (client ∈ clients h) then
    (mk (clients h ∖ {[client]}) (broadcast h) (register h) (unregister h)
        (done h) (closed h), close_in σ client)
  else (h, σ).

Definition removeClient (h : t) (σ : gmap nat Conn) (client : nat)
  : t * gmap nat Conn :=
  (mk (clients h ∖ {[client]}) (broadcast h) (register h) (unregister h)
      (done h) (closed h), close_in σ client).

(** The body of the loop of [handleBroadcast]. *)
Definition send (dataStr : string) (acc : t * gmap nat Conn) (client : nat)
  : t * gmap nat Conn :=
  let '(h, σ) := acc in
  match σ !! client with
  | None => (h, σ)
  | Some c =>
    let '(c', err) := SendData c dataStr in
    match err with
    | Some _ => removeClient h (<[client := c']> σ) client
    | None => (h, <[client := c']> σ)
    end
  end.

Definition handleBroadcast (h : t) (σ : gmap nat Conn) (data : T)
  : t * gmap nat Conn :=
  let clients := elements (clients h) in
  let dataStr := convertToString data in
  if String.eqb dataStr "" then (h, σ)
  else foldl (send dataStr) (h, σ) clients.

Definition Register (h : t) (conn : nat) : t * option error :=
  if closed h then (h, Some ErrHubClosed)
  else (mk (clients h) (broadcast h) (register h ++ [conn]) (unregister h)
           (done h) (closed h), None).

Definition Unregister (h : t) (conn : nat) : t * option error :=
  if closed h then (h, Some ErrHubClosed)
  else (mk (clients h) (broadcast h) (register h) (unregister h ++ [conn])
           (done h) (closed h), None).

Definition Broadcast (h : t) (data : T) : t * option error :=
  if closed h then (h, Some ErrHubClosed)
  else (mk (clients h) (broadcast h ++ [data]) (register h) (unregister h)
           (done h) (closed h), None).

Definition Clients (h : t) : nat := size (clients h).

(** [Hub.Close]: the flag is set, the done channel closed, every
    member closed and the membership emptied. *)
Definition Close (h : t) (σ : gmap nat Conn) : t * gmap nat Conn * option error :=
  if closed h then (h, σ, None)
  else (mk ∅ (broadcast h) (register h) (unregister h) true true,
        foldl close_in σ (elements (clients h)), None).

End Typed.
Arguments t T : clear implicits.
End Hub.

(** [Hub[string]]: every value is a [string]. *)
#[global] Instance Payload_string : Payload string := {
  as_string := fun s => Some s;
  as_Stringer := fun _ => None;
  Marshal := fun _ => None
}.

End sse.


(* ===================================================================== *)
(** ** Scenarios *)
(* ===================================================================== *)

(** A server-side connection whose peer has sent [input] and to which
    nothing has been written yet. *)
Definition server_conn (input : list Z) : websocket.Conn :=
  websocket.newConn None input (websocket.mkWriter [] false) true.

(** An unmasked frame with the reserved bits clear. *)
Definition plain_frame (fin : bool) (opcode : Z) (payload : list Z) : websocket.frame :=
  websocket.mkFrame fin false false false opcode false websocket.zero_mask payload.

(** [{FIN=1, text, 0xFF 0xFE}]. *)
Definition text_FF_FE : websocket.frame :=
  plain_frame true websocket.opcodeText [0xFF; 0xFE]%Z.

(** The euro sign, U+20AC, is E2 82 AC in UTF-8: a text message cut
    after its second byte. *)
Definition euro_head : websocket.frame :=
  plain_frame false websocket.opcodeText [0xE2; 0x82]%Z.
Definition euro_tail : websocket.frame :=
  plain_frame true websocket.opcodeContinuation [0xAC]%Z.

(** The same character cut between two continuation frames. *)
Definition letter_A : websocket.frame :=
  plain_frame false websocket.opcodeText [0x41]%Z.
Definition euro_mid : websocket.frame :=
  plain_frame false websocket.opcodeContinuation [0xE2; 0x82]%Z.

(** A text message whose final continuation frame is not UTF-8. *)
Definition hello_head : websocket.frame :=
  plain_frame false websocket.opcodeText (bytes_of_string "Hello ").
Definition bad_tail : websocket.frame :=
  plain_frame true websocket.opcodeContinuation [0xFF; 0xFE]%Z.

(** A close frame with the given payload. *)
Definition close_frame (payload : list Z) : websocket.frame :=
  plain_frame true websocket.opcodeClose payload.

(** The status code that a close payload carries. *)
Definition close_code (payload : list Z) : Z :=
  (nth 0 payload 0 * 256 + nth 1 payload 0)%Z.

(** [K] calls of [Close], one after the other: the connection after the
    last call and what each call returned. *)
Fixpoint ws_Close_n (K : nat) (c : websocket.Conn)
  : websocket.Conn * list (option error) :=
  match K with
  | O => (c, [])
  | S K' =>
    let '(c1, e) := websocket.Close c in
    let '(c2, es) := ws_Close_n K' c1 in
    (c2, e :: es)
  end.

Fixpoint sse_Close_n (K : nat) (c : sse.Conn)
  : sse.Conn * list (option sse.error) :=
  match K with
  | O => (c, [])
  | S K' =>
    let '(c1, e) := sse.Close c in
    let '(c2, es) := sse_Close_n K' c1 in
    (c2, e :: es)
  end.

(** The close frame of a plain [Close()]: status 1000, no reason. *)
Definition normal_close_bytes (c : websocket.Conn) : list Z :=
  websocket.frameBytes
    (websocket.outFrame c websocket.opcodeClose
       (websocket.closePayload websocket.CloseNormalClosure "")).

(** One field line of the event stream: the name, a colon and a space,
    the value, a line feed. *)
Definition sse_field (name value : string) : string :=
  name ++ ": " ++ value ++ String.String sse.LF EmptyString.

(** The wire form of an event as the specification words it: the type,
    the id and the retry delay when present, one data line per line of
    the data, and a closing line feed. *)
Definition serialize_spec (e : sse.Event) : string :=
  (if String.eqb (sse.Type_ e) "" then "" else sse_field "event" (sse.Type_ e))
  ++ (if String.eqb (sse.ID e) "" then "" else sse_field "id" (sse.ID e))
  ++ (if (0 <? sse.Retry e)%Z then sse_field "retry" (sse.Sprintf_d (sse.Retry e)) else "")
  ++ String.concat "" (map (sse_field "data") (gostrings.Split (sse.Data e) sse.LF))
  ++ String.String sse.LF EmptyString.

(** Scenario 7: data of three lines, type [msg], id [42]. *)
Definition three_lines : string :=
  "line1" ++ String.String sse.LF "line2" ++ String.String sse.LF "line3".
Definition three_lines_event : sse.Event :=
  sse.WithID (sse.WithType (sse.NewEvent three_lines) "msg") "42".
Definition three_lines_wire : string :=
  "event: msg" ++ String.String sse.LF
  ("id: 42" ++ String.String sse.LF
  ("data: line1" ++ String.String sse.LF
  ("data: line2" ++ String.String sse.LF
  ("data: line3" ++ String.String sse.LF
  (String.String sse.LF EmptyString))))).

(** The client's offer as the handshake reads it: the tokens of the
    [Sec-WebSocket-Protocol] header, each trimmed, in the client's
    order. *)
Definition client_offers (TrimSpace : string -> string) (r : websocket.Request)
  : list string :=
  map TrimSpace
      (gostrings.Split (websocket.Get (websocket.Header r) "Sec-WebSocket-Protocol")
                       ","%char).

(** The opening request of RFC 6455 Section 1.3, offering two
    subprotocols. *)
Definition sample_request : websocket.Request :=
  websocket.mkRequest "GET"
    (<["Upgrade" := "websocket"]>
     (<["Connection" := "Upgrade"]>
     (<["Sec-WebSocket-Version" := "13"]>
     (<["Sec-WebSocket-Key" := "dGhlIHNhbXBsZSBub25jZQ=="]>
     (<["Sec-WebSocket-Protocol" := "chat, superchat"]> ∅))))).

(** A response writer that can be hijacked. *)
Definition sample_writer : websocket.ResponseWriter :=
  websocket.mkResponseWriter ∅ None
    (websocket.Hijacked (websocket.mkNetConn false) [] true).

(** What one goroutine of a WebSocket broadcast leaves of a connection,
    and what one round of the loop of the SSE broadcast leaves of one: a
    failed send is followed by [Close]. *)
Definition ws_delivered (message : list Z) (c : websocket.Conn) : websocket.Conn :=
  fst (websocket.Write c websocket.BinaryMessage message).

Definition sse_delivered (dataStr : string) (c : sse.Conn) : sse.Conn :=
  match sse.SendData c dataStr with
  | (c', Some _) => fst (sse.Close c')
  | (c', None) => c'
  end.

(** A hub with two clients: 1 is a live server-side connection, 2 has
    been closed. *)
Definition closed_conn : websocket.Conn :=
  websocket.mkConn None [] (websocket.mkWriter [] false) true true true [] 0 false.
Definition two_clients : gmap nat websocket.Conn :=
  <[1%nat := server_conn []]> (<[2%nat := closed_conn]> ∅).
Definition hello : list Z := bytes_of_string "hello".
Definition hub_with_hello : websocket.Hub.t :=
  websocket.Hub.BroadcastText
    (websocket.Hub.mk {[1%nat; 2%nat]} [] [] [] false false) "hello".

(** An SSE hub of strings with one live client. *)
Definition live_sse : sse.Conn := sse.mkConn "" false 0 0 false.

(** A valid frame: a defined opcode; a control frame is final and
    carries at most 125 bytes; the reserved bits are clear; a text payload
    is valid UTF-8; the payload is within the limit of the
    implementation. *)
Definition valid_frame (f : websocket.frame) : bool :=
  websocket.isValidOpcode (websocket.opcode f)
  && (negb (websocket.isControlFrame (websocket.opcode f))
      || (websocket.fin f
          && (Z.of_nat (List.length (websocket.payload f))
              <=? websocket.maxControlPayload)%Z))
  && negb (websocket.rsv1 f) && negb (websocket.rsv2 f) && negb (websocket.rsv3 f)
  && (negb (websocket.opcode f =? websocket.opcodeText)%Z
      || utf8.Valid (websocket.payload f))
  && (Z.of_nat (List.length (websocket.payload f)) <=? websocket.maxFramePayload)%Z.

(** The frame as the wire carries it: the masking key is sent only when
    the mask bit is set. *)
Definition on_wire (f : websocket.frame) : websocket.frame :=
  websocket.mkFrame (websocket.fin f) (websocket.rsv1 f) (websocket.rsv2 f)
    (websocket.rsv3 f) (websocket.opcode f) (websocket.masked f)
    (if websocket.masked f then websocket.mask f else websocket.zero_mask)
    (websocket.payload f).

(** A text frame of [n] letters, masked with the key of scenario 2 or
    not masked. *)
Definition letters (masked : bool) (n : Z) : websocket.frame :=
  websocket.mkFrame true false false false websocket.opcodeText masked
    (if masked then (0x12, 0x34, 0x56, 0x78)%Z else websocket.zero_mask)
    (repeat 0x61%Z (Z.to_nat n)).

(** The payload lengths at which the length encoding changes. *)
Definition boundary_lengths : list Z := [0; 125; 126; 1000; 65535; 65536]%Z.

(** Does [f] come back from the wire as [g]? *)
Definition reads_back (f g : websocket.frame) : bool :=
  match websocket.writeFrame (websocket.mkWriter [] false) f with
  | (w, None) =>
    match websocket.readFrame (websocket.wire w) with
    | (Ok f', []) =>
      Bool.eqb (websocket.fin f') (websocket.fin g)
      && Bool.eqb (websocket.rsv1 f') (websocket.rsv1 g)
      && Bool.eqb (websocket.rsv2 f') (websocket.rsv2 g)
      && Bool.eqb (websocket.rsv3 f') (websocket.rsv3 g)
      && (websocket.opcode f' =? websocket.opcode g)%Z
      && Bool.eqb (websocket.masked f') (websocket.masked g)
      && forallb (fun '(x, y) => (x =? y)%Z)
           (combine (websocket.mask_bytes (websocket.mask f'))
                    (websocket.mask_bytes (websocket.mask g)))
      && (List.length (websocket.payload f') =? List.length (websocket.payload g))%nat
      && forallb (fun '(x, y) => (x =? y)%Z)
           (combine (websocket.payload f') (websocket.payload g))
    | _ => false
    end
  | _ => false
  end.

(** On every connection that the library builds and updates, a spent
    [closeOnce] goes with the closed latch. *)
Definition once_closed (c : websocket.Conn) : Prop :=
  websocket.closeOnce c = true -> websocket.closed c = true.

(** What [writeFrame] checks of a frame before it writes: like
    [valid_frame], without the reserved bits. *)
Definition writable (f : websocket.frame) : bool :=
  websocket.isValidOpcode (websocket.opcode f)
  && (negb (websocket.isControlFrame (websocket.opcode f))
      || (websocket.fin f
          && (Z.of_nat (List.length (websocket.payload f))
              <=? websocket.maxControlPayload)%Z))
  && (negb (websocket.opcode f =? websocket.opcodeText)%Z
      || utf8.Valid (websocket.payload f))
  && (Z.of_nat (List.length (websocket.payload f)) <=? websocket.maxFramePayload)%Z.

(** The number of octets of the extended payload length. *)
Definition ext_size (n : Z) : nat :=
  if (n <=? 125)%Z then 0%nat else if (n <=? 0xFFFF)%Z then 2%nat else 8%nat.

(** A binary frame of one byte, read from three octets. *)
Definition one_byte_frame : websocket.frame :=
  websocket.mkFrame true false false false websocket.opcodeBinary false
    websocket.zero_mask [0xAA%Z].

(** A text frame with the first reserved bit set, as the test
    [TestWriteFrame_RSVBits] writes one. *)
Definition rsv_frame : websocket.frame :=
  websocket.mkFrame true true false false websocket.opcodeText false
    websocket.zero_mask (bytes_of_string "Test").

(** The first octet of the header as the write functions build it: the
    final bit, the three reserved bits and the low four bits of the
    opcode. *)
Definition first_octet (f : websocket.frame) : Z :=
  Z.lor
    (let h0 := 0%Z in
     let h0 := if websocket.fin f then Z.lor h0 0x80 else h0 in
     let h0 := if websocket.rsv1 f then Z.lor h0 0x40 else h0 in
     let h0 := if websocket.rsv2 f then Z.lor h0 0x20 else h0 in
     if websocket.rsv3 f then Z.lor h0 0x10 else h0)
    (Z.land (websocket.opcode f) 0x0F).

(** One frame of a fragmented message, or a whole message when [op] is
    a data opcode and [final] is set. *)
Definition fragment (op : Z) (final masked : bool) (key : websocket.mask4)
           (p : list Z) : websocket.frame :=
  websocket.mkFrame final false false false op masked key p.

(** The octets of the continuation frames that carry [p], then the
    payloads of [ps]; the last of them is final. *)
Fixpoint continuations (masked : bool) (key : websocket.mask4) (p : list Z)
         (ps : list (list Z)) : list Z :=
  match ps with
  | [] => websocket.frameBytes (fragment websocket.opcodeContinuation true masked key p)
  | q :: ps' =>
    websocket.frameBytes (fragment websocket.opcodeContinuation false masked key p)
    ++ continuations masked key q ps'
  end.

(** The errors that [readFrame] returns. *)
Definition read_errors (e : error) : bool :=
  match e with
  | ErrIO EOF | ErrIO ErrUnexpectedEOF
  | ErrInvalidOpcode | ErrReservedBits | ErrControlFragmented
  | ErrProtocolError | ErrControlTooLarge | ErrFrameTooLarge
  | ErrInvalidUTF8 => true
  | _ => false
  end.

(** A reason of 124 bytes: with the status code it does not fit a
    control frame. *)
Definition long_reason : string := string_of_list_ascii (repeat "a"%char 124).

(** A client-side connection that reads [input]. *)
Definition client_conn (input : list Z) : websocket.Conn :=
  websocket.newConn (Some (websocket.mkNetConn false)) input
    (websocket.mkWriter [] false) false.

(** A ping and a pong as a client sends them, with payload [hello]. *)
Definition ping_hello : websocket.frame :=
  fragment websocket.opcodePing true true (0x12, 0x34, 0x56, 0x78)%Z hello.
Definition pong_hello : websocket.frame :=
  fragment websocket.opcodePong true true (0x12, 0x34, 0x56, 0x78)%Z hello.

(** The text [A], then the euro sign cut in two, as a client sends them
    in three masked frames. *)
Definition split_euro_wire : list Z :=
  websocket.frameBytes (fragment websocket.opcodeText false true websocket.constMask
                          [0x41]%Z)
  ++ continuations true websocket.constMask [0xE2; 0x82]%Z [[0xAC]%Z] ++ [].

(** A final continuation frame with payload [hello], not masked. *)
Definition stray_continuation : websocket.frame :=
  fragment websocket.opcodeContinuation true false websocket.zero_mask hello.

(** A close frame with status 1001 and the reason [hello], masked. *)
Definition going_away : websocket.frame :=
  fragment websocket.opcodeClose true true websocket.constMask
    ([0x03; 0xE9]%Z ++ hello).

(** The checks of [Write] on an open connection. *)
Definition sendable (mt : websocket.MessageType) (data : list Z) : bool :=
  (((mt =? websocket.TextMessage)%Z && utf8.Valid data)
   || (negb (mt =? websocket.TextMessage)%Z && (mt =? websocket.BinaryMessage)%Z))
  && (Z.of_nat (List.length data) <=? websocket.maxFramePayload)%Z.

(** The error of the first call of [CloseWithCode] that fails before
    the underlying connection is closed: the reason is not valid UTF-8, or
    the payload does not fit a control frame (both are found before
    anything is written), or the sink rejects the write. *)
Definition close_error (c : websocket.Conn) (reason : string) : option error :=
  if negb (String.eqb reason "") && negb (ValidString reason) then Some ErrInvalidUTF8
  else if (125 <? 2 + List.length (bytes_of_string reason))%nat
       then Some ErrControlTooLarge
  else if websocket.broken (websocket.writer c) then Some (ErrIO ErrWriteFailed)
  else None.

(** The error with which [Ping] and [Pong] refuse a call before they
    build a frame. *)
Definition control_refused (c : websocket.Conn) (data : list Z) : option error :=
  if websocket.closed c then Some ErrClosed
  else if (125 <? List.length data)%nat then Some ErrControlTooLarge
  else None.

(** The options that [Upgrade] reads after its defaults: the protocols
    of the server and the origin check. *)
Definition server_protocols (opts : option websocket.UpgradeOptions) : list string :=
  match opts with
  | Some o => websocket.Subprotocols o
  | None => []
  end.

Definition origin_check (opts : option websocket.UpgradeOptions)
  : option (websocket.Request -> bool) :=
  match opts with
  | Some o => websocket.CheckOrigin o
  | None => None
  end.

(** The six checks of [Upgrade] on the request. *)
Definition request_ok (ToLower TrimSpace : string -> string) (r : websocket.Request)
           (opts : option websocket.UpgradeOptions) : bool :=
  String.eqb (websocket.Method r) "GET"
  && websocket.headerContainsToken ToLower TrimSpace
       (websocket.Get (websocket.Header r) "Upgrade") "websocket"
  && websocket.headerContainsToken ToLower TrimSpace
       (websocket.Get (websocket.Header r) "Connection") "upgrade"
  && String.eqb (websocket.Get (websocket.Header r) "Sec-WebSocket-Version") "13"
  && negb (String.eqb (websocket.Get (websocket.Header r) "Sec-WebSocket-Key") "")
  && match origin_check opts with
     | Some check => check r
     | None => true
     end.

(** The headers of the response that [Upgrade] sets on [hd]. *)
Definition response_headers (TrimSpace : string -> string) (r : websocket.Request)
           (opts : option websocket.UpgradeOptions) (hd : gmap string string)
  : gmap string string :=
  let subprotocol := websocket.negotiateSubprotocol TrimSpace r (server_protocols opts) in
  let hd := <["Upgrade" := "websocket"]> hd in
  let hd := <["Connection" := "Upgrade"]> hd in
  let hd := <["Sec-WebSocket-Accept" :=
              websocket.computeAcceptKey
                (websocket.Get (websocket.Header r) "Sec-WebSocket-Key")]> hd in
  if negb (String.eqb subprotocol "")
  then <["Sec-WebSocket-Protocol" := subprotocol]> hd
  else hd.

(** A response writer that cannot be hijacked. *)
Definition plain_writer : websocket.ResponseWriter :=
  websocket.mkResponseWriter ∅ None websocket.NotHijacker.

(** A WebSocket hub whose members are the two clients of the store
    [two_clients]. *)
Definition two_member_hub : websocket.Hub.t :=
  websocket.Hub.mk {[1%nat; 2%nat]} [] [] [] false false.

(** The same hub with a caller of [Unregister] waiting for the loop to
    take client 2. *)
Definition waiting_hub : websocket.Hub.t :=
  websocket.Hub.Unregister two_member_hub 2%nat.

(** Does a binary [Write] of [message] fail on the connection that the
    store has for [id]?  A member without a connection in the store is
    skipped. *)
Definition ws_fails (message : list Z) (σ : gmap nat websocket.Conn) (id : nat) : bool :=
  match σ !! id with
  | Some cn =>
    match snd (websocket.Write cn websocket.BinaryMessage message) with
    | Some _ => true
    | None => false
    end
  | None => false
  end.

(** Does [SendData] fail on the connection that the store has for
    [id]: is it closed, or does its writer fail? *)
Definition sse_fails (σ : gmap nat sse.Conn) (id : nat) : bool :=
  match σ !! id with
  | Some c => sse.closed c || sse.w_fails c
  | None => false
  end.

(** An SSE store with a live client 1 and a client 2 whose writer
    fails, and a hub of strings with both as members. *)
Definition broken_sse : sse.Conn := sse.mkConn "" true 0 0 false.
Definition two_listeners : gmap nat sse.Conn :=
  <[1%nat := live_sse]> (<[2%nat := broken_sse]> ∅).
Definition two_listener_hub : sse.Hub.t string :=
  sse.Hub.mk {[1%nat; 2%nat]} [] [] [] false false.

(** A frame with the reserved opcode 3, and a ping that is not
    final. *)
Definition reserved_opcode_frame : websocket.frame :=
  fragment 0x3%Z true false websocket.zero_mask hello.
Definition fragmented_ping : websocket.frame :=
  fragment websocket.opcodePing false false websocket.zero_mask hello.

(* ===================================================================== *)
(** * Properties *)
(* ===================================================================== *)

(** ** Strings and bytes *)

Lemma list_ascii_of_string_app (a b : string) :
  list_ascii_of_string (a ++ b) = list_ascii_of_string a ++ list_ascii_of_string b.
Proof.
  induction a as [|c a IH]; simpl.
  - reflexivity.
  - now rewrite IH.
Qed.

Lemma bytes_of_string_app (a b : string) :
  bytes_of_string (a ++ b) = bytes_of_string a ++ bytes_of_string b.
Proof.
  unfold bytes_of_string. now rewrite list_ascii_of_string_app, map_app.
Qed.

(** ** The accept key *)

Lemma digest_bytes_length (h : sha1.state) :
  List.length (sha1.digest_bytes h) = sha1.Size.
Proof.
  destruct h as [[[[h0 h1] h2] h3] h4]. reflexivity.
Qed.

Lemma Sum20_length (msg : list Z) : List.length (sha1.Sum20 msg) = 20%nat.
Proof.
  unfold sha1.Sum20. apply digest_bytes_length.
Qed.

(** C8: the accept value is the base64 encoding of the SHA-1 digest, 20
    bytes long, of the client key followed by the fixed GUID
    258EAFA5-E914-47DA-95CA-C5AB0DC85B11; for the key
    dGhlIHNhbXBsZSBub25jZQ== it is s3pPLMBiTxaQ9kYGzzhZRbK+xOo=. *)
Theorem C8_accept_key :
  websocket.websocketGUID = "258EAFA5-E914-47DA-95CA-C5AB0DC85B11"
  /\ (forall key : string,
        websocket.computeAcceptKey key =
        base64.EncodeToString
          (sha1.Sum20 (bytes_of_string (key ++ websocket.websocketGUID)))
        /\ List.length (sha1.Sum20 (bytes_of_string (key ++ websocket.websocketGUID)))
           = 20%nat)
  /\ websocket.computeAcceptKey "dGhlIHNhbXBsZSBub25jZQ==" = "s3pPLMBiTxaQ9kYGzzhZRbK+xOo=".
Proof.
  split; [reflexivity|]. split.
  - intros key. split.
    + unfold websocket.computeAcceptKey, sha1.Sum, sha1.Write, sha1.New.
      now rewrite bytes_of_string_app.
    + apply Sum20_length.
  - vm_compute. reflexivity.
Qed.


(** ** Reading invalid text *)

(** C1: at the inbound frame FIN=1, text, payload FF FE, [Read] returns
    the invalid-UTF-8 error, but it has written no close frame and has not
    latched the connection closed: [readFrame] rejects the payload before
    the branch of [Read] that sends 1007 is reached.  When the bytes FF FE
    come in a continuation frame instead, [Read] does what the claim says:
    one close frame with code 1007 and the latch. *)
Theorem C1_invalid_utf8_text_read :
  websocket.frameBytes text_FF_FE = [0x81; 0x02; 0xFF; 0xFE]%Z
  /\ (exists c',
      websocket.Read (server_conn [0x81; 0x02; 0xFF; 0xFE]%Z)
      = Some (c', Err ErrInvalidUTF8)
      /\ websocket.wire (websocket.writer c') = []
      /\ websocket.closed c' = false
      /\ websocket.closeOnce c' = false)
  /\ (exists c',
      websocket.Read
        (server_conn (websocket.frameBytes hello_head ++ websocket.frameBytes bad_tail))
      = Some (c', Err ErrInvalidUTF8)
      /\ websocket.wire (websocket.writer c')
         = websocket.frameBytes
             (close_frame
                (websocket.closePayload websocket.CloseInvalidFramePayloadData
                                        "invalid UTF-8"))
      /\ close_code (websocket.closePayload websocket.CloseInvalidFramePayloadData
                                             "invalid UTF-8") = 1007%Z
      /\ websocket.closed c' = true).
Proof.
  split; [reflexivity|].
  split; eexists; (split; [vm_compute; reflexivity|]); repeat split; reflexivity.
Qed.

(** C2: a close frame without a status code is answered with a close
    frame whose payload is the reserved code 1005, and a received 1006 or
    1015 is echoed as it came. *)
Theorem C2_reserved_code_on_wire :
  (exists c',
      websocket.Read (server_conn (websocket.frameBytes (close_frame [])))
      = Some (c', Err ErrClosed)
      /\ websocket.wire (websocket.writer c')
         = websocket.frameBytes (close_frame [0x03; 0xED]%Z)
      /\ close_code [0x03; 0xED]%Z = websocket.CloseNoStatusReceived)
  /\ (exists c',
      websocket.Read (server_conn (websocket.frameBytes (close_frame [0x03; 0xEE]%Z)))
      = Some (c', Err ErrClosed)
      /\ websocket.wire (websocket.writer c')
         = websocket.frameBytes (close_frame [0x03; 0xEE]%Z)
      /\ close_code [0x03; 0xEE]%Z = websocket.CloseAbnormalClosure)
  /\ (exists c',
      websocket.Read (server_conn (websocket.frameBytes (close_frame [0x03; 0xF7]%Z)))
      = Some (c', Err ErrClosed)
      /\ websocket.wire (websocket.writer c')
         = websocket.frameBytes (close_frame [0x03; 0xF7]%Z)
      /\ close_code [0x03; 0xF7]%Z = websocket.CloseTLSHandshake).
Proof.
  repeat split; eexists; (split; [vm_compute; reflexivity|]); split; reflexivity.
Qed.

(** C3: E2 82 AC is valid UTF-8, yet the text message whose first
    fragment is E2 82 and whose final continuation is AC is refused with
    the invalid-UTF-8 error; the same character cut between two
    continuation frames is delivered. *)
Theorem C3_rune_across_first_fragment :
  utf8.Valid [0xE2; 0x82; 0xAC]%Z = true
  /\ (exists c',
      websocket.Read
        (server_conn (websocket.frameBytes euro_head ++ websocket.frameBytes euro_tail))
      = Some (c', Err ErrInvalidUTF8))
  /\ (exists c',
      websocket.Read
        (server_conn (websocket.frameBytes letter_A ++ websocket.frameBytes euro_mid
                      ++ websocket.frameBytes euro_tail))
      = Some (c', Ok (websocket.TextMessage, [0x41; 0xE2; 0x82; 0xAC]%Z))).
Proof.
  split; [reflexivity|].
  split; eexists; vm_compute; reflexivity.
Qed.

(** ** Closing a connection *)

Lemma ws_Close_spent (c : websocket.Conn) :
  websocket.closeOnce c = true -> websocket.Close c = (c, None).
Proof.
  intros H. unfold websocket.Close, websocket.CloseWithCode. now rewrite H.
Qed.

Lemma ws_Close_n_spent (K : nat) (c : websocket.Conn) :
  websocket.closeOnce c = true -> ws_Close_n K c = (c, repeat None K).
Proof.
  intros H. induction K as [|K IH]; simpl.
  - reflexivity.
  - rewrite ws_Close_spent by exact H. now rewrite IH.
Qed.

(** What the first run of [Close] does to a connection. *)
Lemma ws_Close_first (c : websocket.Conn) :
  websocket.closeOnce c = false ->
  websocket.closeOnce (fst (websocket.Close c)) = true
  /\ websocket.closed (fst (websocket.Close c)) = true
  /\ (websocket.wire (websocket.writer (fst (websocket.Close c)))
      = websocket.wire (websocket.writer c)
      \/ websocket.wire (websocket.writer (fst (websocket.Close c)))
         = websocket.wire (websocket.writer c) ++ normal_close_bytes c).
Proof.
  intros H. unfold normal_close_bytes.
  unfold websocket.Close, websocket.CloseWithCode. rewrite H.
  destruct c as [cn rd [wr br] srv once cl fb ft inf]. simpl in *.
  unfold websocket.writeFrame, websocket.flush; simpl.
  destruct br, cn; simpl; auto.
Qed.

Lemma sse_Close_closed (c : sse.Conn) :
  sse.closed c = true -> sse.Close c = (c, None).
Proof.
  intros H. unfold sse.Close. now rewrite H.
Qed.

Lemma sse_Close_n_closed (K : nat) (c : sse.Conn) :
  sse.closed c = true -> sse_Close_n K c = (c, repeat None K).
Proof.
  intros H. induction K as [|K IH]; simpl.
  - reflexivity.
  - rewrite sse_Close_closed by exact H. now rewrite IH.
Qed.

(** C5: [K >= 1] calls of [Close] leave the connection as the first call
    left it and all later calls return no error.  On a WebSocket
    connection the first call latches it closed and the wire gains at most
    one close frame; on an open SSE connection the first call latches it
    closed and closes the done channel, which is closed exactly once. *)
Theorem C5_close_idempotent :
  (forall (c : websocket.Conn) (K : nat),
      (websocket.closeOnce c = true -> websocket.closed c = true) ->
      (1 <= K)%nat ->
      ws_Close_n K c
      = (fst (websocket.Close c), snd (websocket.Close c) :: repeat None (K - 1))
      /\ websocket.closed (fst (ws_Close_n K c)) = true
      /\ (websocket.wire (websocket.writer (fst (ws_Close_n K c)))
          = websocket.wire (websocket.writer c)
          \/ websocket.wire (websocket.writer (fst (ws_Close_n K c)))
             = websocket.wire (websocket.writer c) ++ normal_close_bytes c))
  /\ (forall (c : sse.Conn) (K : nat),
      sse.closed c = false ->
      (1 <= K)%nat ->
      sse_Close_n K c = (fst (sse.Close c), repeat None K)
      /\ sse.closed (fst (sse_Close_n K c)) = true
      /\ sse.done (fst (sse_Close_n K c)) = S (sse.done c)).
Proof.
  split.
  - intros c K Hinv HK.
    destruct K as [|K]; [lia|].
    replace (S K - 1)%nat with K by lia.
    assert (Hn : ws_Close_n (S K) c
                 = (fst (websocket.Close c),
                    snd (websocket.Close c) :: repeat None K)).
    { simpl. destruct (websocket.Close c) as [c1 e] eqn:E. simpl.
      assert (Hspent : websocket.closeOnce c1 = true).
      { destruct (websocket.closeOnce c) eqn:Ho.
        - rewrite ws_Close_spent in E by exact Ho. congruence.
        - pose proof (ws_Close_first c Ho) as [H1 _]. now rewrite E in H1. }
      now rewrite ws_Close_n_spent by exact Hspent. }
    rewrite Hn. simpl. split; [reflexivity|].
    destruct (websocket.closeOnce c) eqn:Ho.
    + rewrite ws_Close_spent by exact Ho. simpl. auto.
    + pose proof (ws_Close_first c Ho) as (_ & H2 & H3). auto.
  - intros c K Hopen HK.
    destruct K as [|K]; [lia|].
    assert (E : sse.Close c
                = (sse.mkConn (sse.w c) (sse.w_fails c) (S (sse.cancel c))
                              (S (sse.done c)) true, None)).
    { unfold sse.Close. now rewrite Hopen. }
    cbn [sse_Close_n]. rewrite E.
    rewrite sse_Close_n_closed by reflexivity.
    repeat split.
Qed.

(** C5 at three calls on a fresh server connection and on a fresh SSE
    connection. *)
Lemma C5_close_idempotent_witness :
  (ws_Close_n 3 (server_conn [])
   = (fst (websocket.Close (server_conn [])),
      snd (websocket.Close (server_conn [])) :: repeat None (3 - 1))
   /\ websocket.closed (fst (ws_Close_n 3 (server_conn []))) = true
   /\ (websocket.wire (websocket.writer (fst (ws_Close_n 3 (server_conn []))))
       = websocket.wire (websocket.writer (server_conn []))
       \/ websocket.wire (websocket.writer (fst (ws_Close_n 3 (server_conn []))))
          = websocket.wire (websocket.writer (server_conn []))
            ++ normal_close_bytes (server_conn [])))
  /\ (sse_Close_n 3 (sse.mkConn "" false 0 0 false)
      = (fst (sse.Close (sse.mkConn "" false 0 0 false)), repeat None 3)
      /\ sse.closed (fst (sse_Close_n 3 (sse.mkConn "" false 0 0 false))) = true
      /\ sse.done (fst (sse_Close_n 3 (sse.mkConn "" false 0 0 false))) = 1%nat).
Proof.
  split.
  - apply (proj1 C5_close_idempotent (server_conn []) 3%nat).
    + simpl. discriminate.
    + lia.
  - apply (proj2 C5_close_idempotent (sse.mkConn "" false 0 0 false) 3%nat).
    + reflexivity.
    + lia.
Defined.


(** ** Event serialization *)

Lemma string_app_assoc (a b c : string) : ((a ++ b) ++ c = a ++ (b ++ c))%string.
Proof.
  induction a as [|x a IH]; simpl; [reflexivity | f_equal; exact IH].
Qed.

Lemma string_app_nil_r (a : string) : (a ++ "" = a)%string.
Proof.
  induction a as [|x a IH]; simpl; [reflexivity | f_equal; exact IH].
Qed.

Lemma string_of_list_ascii_app (a b : list ascii) :
  string_of_list_ascii (a ++ b)
  = (string_of_list_ascii a ++ string_of_list_ascii b)%string.
Proof.
  induction a as [|x a IH]; simpl; [reflexivity | f_equal; exact IH].
Qed.

(** The loop over the lines appends one data line per line. *)
Lemma data_loop (lines : list string) (b : string) :
  fold_left
    (fun b line =>
       sse.WriteByte (sse.WriteString (sse.WriteString b "data: ") line) sse.LF)
    lines b
  = (b ++ String.concat "" (map (sse_field "data") lines))%string.
Proof.
  revert b. induction lines as [|l lines IH]; intros b.
  - simpl. now rewrite string_app_nil_r.
  - cbn [fold_left]. rewrite IH.
    unfold sse.WriteByte, sse.WriteString, sse_field.
    rewrite !string_app_assoc.
    destruct lines as [|l' lines].
    + simpl. rewrite ?string_app_nil_r. reflexivity.
    + cbn [map String.concat]. simpl. rewrite ?string_app_assoc. reflexivity.
Qed.

Lemma String_serialize (e : sse.Event) : sse.String e = serialize_spec e.
Proof.
  unfold sse.String, serialize_spec. rewrite data_loop.
  unfold sse.WriteByte, sse.WriteString, sse_field.
  destruct (String.eqb (sse.Type_ e) ""), (String.eqb (sse.ID e) ""),
    (0 <? sse.Retry e)%Z; cbn [negb]; rewrite ?string_app_assoc; reflexivity.
Qed.

Lemma split_aux_not_nil (sep : ascii) (cur s : list ascii) :
  gostrings.split_aux sep cur s <> [].
Proof.
  revert cur. induction s as [|c s IH]; intros cur; simpl.
  - discriminate.
  - destruct (Ascii.eqb c sep); [discriminate | apply IH].
Qed.

Lemma Join_cons (e : string) (rest : list string) (sep : string) :
  rest <> [] -> gostrings.Join (e :: rest) sep = (e ++ sep ++ gostrings.Join rest sep)%string.
Proof.
  destruct rest; [congruence | reflexivity].
Qed.

Lemma split_aux_join (sep : ascii) (s cur : list ascii) :
  gostrings.Join (gostrings.split_aux sep cur s) (String.String sep EmptyString)
  = string_of_list_ascii (rev cur ++ s).
Proof.
  revert cur. induction s as [|c s IH]; intros cur; simpl.
  - now rewrite app_nil_r.
  - destruct (Ascii.eqb_spec c sep) as [->|Hne].
    + rewrite Join_cons by apply split_aux_not_nil.
      rewrite IH. simpl. now rewrite string_of_list_ascii_app.
    + rewrite IH. simpl. now rewrite <- app_assoc.
Qed.

Lemma split_aux_length (sep : ascii) (s cur : list ascii) :
  List.length (gostrings.split_aux sep cur s) = S (gostrings.count_byte sep s).
Proof.
  revert cur. induction s as [|c s IH]; intros cur; simpl.
  - reflexivity.
  - destruct (Ascii.eqb c sep); simpl; now rewrite IH.
Qed.

Lemma existsb_rev {A : Type} (f : A -> bool) (l : list A) :
  existsb f (rev l) = existsb f l.
Proof.
  induction l as [|x l IH]; simpl.
  - reflexivity.
  - rewrite existsb_app, IH. simpl. rewrite orb_false_r. apply orb_comm.
Qed.

Lemma split_aux_no_sep (sep : ascii) (s cur : list ascii) :
  existsb (Ascii.eqb sep) cur = false ->
  Forall (fun piece => gostrings.Contains piece sep = false)
         (gostrings.split_aux sep cur s).
Proof.
  revert cur. induction s as [|c s IH]; intros cur Hcur; simpl.
  - constructor; [|constructor].
    unfold gostrings.Contains. rewrite list_ascii_of_string_of_list_ascii.
    now rewrite existsb_rev.
  - destruct (Ascii.eqb_spec c sep) as [->|Hne].
    + constructor.
      * unfold gostrings.Contains. rewrite list_ascii_of_string_of_list_ascii.
        now rewrite existsb_rev.
      * now apply IH.
    + apply IH. simpl. rewrite Hcur.
      destruct (Ascii.eqb_spec sep c); [congruence | reflexivity].
Qed.

(** What [strings.Split] returns for a one-byte separator: joined again
    with the separator the pieces give the string back, no piece contains
    the separator, and there is one piece more than separators. *)
Lemma Split_spec (s : string) (sep : ascii) :
  gostrings.Join (gostrings.Split s sep) (String.String sep EmptyString) = s
  /\ Forall (fun piece => gostrings.Contains piece sep = false) (gostrings.Split s sep)
  /\ List.length (gostrings.Split s sep) = S (gostrings.Count s sep).
Proof.
  unfold gostrings.Split, gostrings.Count. repeat split.
  - rewrite split_aux_join. simpl. apply string_of_list_ascii_of_string.
  - now apply split_aux_no_sep.
  - apply split_aux_length.
Qed.

(** C6: an event is written as its type line when the type is not
    empty, its id line when the id is not empty, its retry line when the
    delay is positive, one data line per line of the data (the lines are
    the pieces between line feeds: a single empty line for empty data)
    and a closing line feed; scenario 7 gives the bytes of the
    specification. *)
Theorem C6_event_serialization :
  (forall e : sse.Event, sse.String e = serialize_spec e)
  /\ (forall data : string,
        gostrings.Join (gostrings.Split data sse.LF) (String.String sse.LF EmptyString)
        = data
        /\ Forall (fun line => gostrings.Contains line sse.LF = false)
                  (gostrings.Split data sse.LF)
        /\ List.length (gostrings.Split data sse.LF) = S (gostrings.Count data sse.LF))
  /\ (forall typ id retry,
        sse.String (sse.mkEvent typ id "" retry)
        = ((if String.eqb typ "" then "" else sse_field "event" typ)
           ++ (if String.eqb id "" then "" else sse_field "id" id)
           ++ (if (0 <? retry)%Z then sse_field "retry" (sse.Sprintf_d retry) else "")
           ++ sse_field "data" ""
           ++ String.String sse.LF EmptyString)%string)
  /\ sse.String three_lines_event = three_lines_wire.
Proof.
  split; [exact String_serialize|].
  split; [intros data; apply Split_spec|].
  split; [|vm_compute; reflexivity].
  intros typ id retry. rewrite String_serialize. unfold serialize_spec. simpl.
  rewrite ?string_app_nil_r. reflexivity.
Qed.


(** ** Subprotocol negotiation *)

Lemma offered_In (p : string) (serverProtos : list string) :
  websocket.offered p serverProtos = true <-> In p serverProtos.
Proof.
  induction serverProtos as [|sp rest IH]; simpl.
  - split; [discriminate | tauto].
  - destruct (String.eqb_spec p sp) as [->|Hne].
    + split; auto.
    + rewrite IH. split; [auto | intros [E|H]; [congruence | exact H]].
Qed.

(** The outer loop returns the first trimmed token that the server
    lists. *)
Lemma negotiate_loop_first (TrimSpace : string -> string)
      (serverProtos pre : list string) (p : string) (post raw : list string) :
  map TrimSpace raw = pre ++ p :: post ->
  In p serverProtos ->
  (forall q, In q pre -> ~ In q serverProtos) ->
  websocket.negotiate_loop TrimSpace raw serverProtos = p.
Proof.
  revert raw. induction pre as [|q0 pre IH]; intros raw Hraw Hp Hpre.
  - destruct raw as [|t raw]; [discriminate|].
    simpl in Hraw. injection Hraw as Ht _. simpl. rewrite Ht.
    apply offered_In in Hp. now rewrite Hp.
  - destruct raw as [|t raw]; [discriminate|].
    simpl in Hraw. injection Hraw as Ht Hrest. simpl. rewrite Ht.
    destruct (websocket.offered q0 serverProtos) eqn:Hq.
    + apply offered_In in Hq. exfalso. apply (Hpre q0); [now left | exact Hq].
    + apply IH; [exact Hrest | exact Hp |].
      intros q Hin. apply Hpre. now right.
Qed.

Lemma negotiate_loop_none (TrimSpace : string -> string)
      (serverProtos raw : list string) :
  (forall q, In q (map TrimSpace raw) -> ~ In q serverProtos) ->
  websocket.negotiate_loop TrimSpace raw serverProtos = "".
Proof.
  induction raw as [|t raw IH]; intros Hnone; simpl.
  - reflexivity.
  - destruct (websocket.offered (TrimSpace t) serverProtos) eqn:Hq.
    + apply offered_In in Hq. exfalso. apply (Hnone (TrimSpace t)); [now left | exact Hq].
    + apply IH. intros q Hin. apply Hnone. now right.
Qed.

Lemma negotiateSubprotocol_loop (TrimSpace : string -> string)
      (r : websocket.Request) (serverProtos : list string) :
  serverProtos <> [] ->
  websocket.negotiateSubprotocol TrimSpace r serverProtos
  = websocket.negotiate_loop TrimSpace
      (gostrings.Split
         (websocket.Get (websocket.Header r) "Sec-WebSocket-Protocol") ","%char)
      serverProtos.
Proof.
  intros Hne. unfold websocket.negotiateSubprotocol.
  destruct serverProtos; [congruence | reflexivity].
Qed.

(** A request that passes the five header checks and the origin check,
    on a writer that can be hijacked, is upgraded whatever the
    negotiation selects; the protocol header is set exactly when a
    protocol was selected. *)
Lemma Upgrade_accepts (ToLower TrimSpace : string -> string)
      (w : websocket.ResponseWriter) (r : websocket.Request)
      (opts : websocket.UpgradeOptions)
      (netConn : websocket.NetConn) (input : list Z) :
  websocket.Method r = "GET" ->
  websocket.headerContainsToken ToLower TrimSpace
    (websocket.Get (websocket.Header r) "Upgrade") "websocket" = true ->
  websocket.headerContainsToken ToLower TrimSpace
    (websocket.Get (websocket.Header r) "Connection") "upgrade" = true ->
  websocket.Get (websocket.Header r) "Sec-WebSocket-Version" = "13" ->
  websocket.Get (websocket.Header r) "Sec-WebSocket-Key" <> "" ->
  match websocket.CheckOrigin opts with
  | Some check => check r = true
  | None => True
  end ->
  websocket.rw_hijacker w = websocket.Hijacked netConn input true ->
  exists w',
    websocket.Upgrade ToLower TrimSpace w r (Some opts)
    = (w', Ok (websocket.newConn (Some netConn) input (websocket.mkWriter [] false) true))
    /\ websocket.rw_status w' = Some websocket.StatusSwitchingProtocols
    /\ websocket.rw_Header w' !! "Sec-WebSocket-Protocol"
       = if String.eqb
              (websocket.negotiateSubprotocol TrimSpace r (websocket.Subprotocols opts)) ""
         then websocket.rw_Header w !! "Sec-WebSocket-Protocol"
         else Some (websocket.negotiateSubprotocol TrimSpace r (websocket.Subprotocols opts)).
Proof.
  intros Hm Hu Hc Hv Hk Ho Hh.
  unfold websocket.Upgrade.
  rewrite Hm, Hu, Hc, Hv. cbn [negb String.eqb Ascii.eqb Bool.eqb].
  apply String.eqb_neq in Hk. rewrite Hk.
  destruct opts as [sp co rb wb]. cbn [websocket.CheckOrigin] in Ho.
  cbn [websocket.ReadBufferSize
    websocket.WriteBufferSize websocket.Subprotocols websocket.CheckOrigin].
  destruct (rb =? 0)%Z; cbn [websocket.ReadBufferSize
    websocket.WriteBufferSize websocket.Subprotocols websocket.CheckOrigin].
  all: destruct (wb =? 0)%Z; cbn [websocket.ReadBufferSize
    websocket.WriteBufferSize websocket.Subprotocols websocket.CheckOrigin].
  all: destruct co as [check|]; [rewrite Ho|]; cbn [negb].
  all: cbn [websocket.rw_hijacker]; rewrite Hh; cbn [negb].
  all: eexists; split; [reflexivity|]; split; [reflexivity|].
  all: cbn [websocket.rw_Header].
  all: destruct (String.eqb (websocket.negotiateSubprotocol TrimSpace r sp) "");
    cbn [negb]; [rewrite !lookup_insert_ne by discriminate; reflexivity
                | rewrite lookup_insert_eq; reflexivity].
Qed.

(** C7: with a server list that is not empty, the handshake selects the
    first token of the client's comma-separated offer, trimmed, that the
    server lists; when no token of the offer is listed, nothing is
    selected, and a request that is otherwise acceptable is upgraded
    without error and without a protocol header. *)
Theorem C7_subprotocol_negotiation (ToLower TrimSpace : string -> string)
        (r : websocket.Request) (serverProtos : list string) :
  serverProtos <> [] ->
  (forall (pre : list string) (p : string) (post : list string),
      client_offers TrimSpace r = pre ++ p :: post ->
      In p serverProtos ->
      (forall q, In q pre -> ~ In q serverProtos) ->
      websocket.negotiateSubprotocol TrimSpace r serverProtos = p)
  /\ ((forall q, In q (client_offers TrimSpace r) -> ~ In q serverProtos) ->
      websocket.negotiateSubprotocol TrimSpace r serverProtos = ""
      /\ forall (w : websocket.ResponseWriter) (check : option (websocket.Request -> bool))
                (rb wb : Z) (netConn : websocket.NetConn) (input : list Z),
          websocket.Method r = "GET" ->
          websocket.headerContainsToken ToLower TrimSpace
            (websocket.Get (websocket.Header r) "Upgrade") "websocket" = true ->
          websocket.headerContainsToken ToLower TrimSpace
            (websocket.Get (websocket.Header r) "Connection") "upgrade" = true ->
          websocket.Get (websocket.Header r) "Sec-WebSocket-Version" = "13" ->
          websocket.Get (websocket.Header r) "Sec-WebSocket-Key" <> "" ->
          match check with
          | Some f => f r = true
          | None => True
          end ->
          websocket.rw_hijacker w = websocket.Hijacked netConn input true ->
          exists w',
            websocket.Upgrade ToLower TrimSpace w r
              (Some (websocket.mkUpgradeOptions serverProtos check rb wb))
            = (w', Ok (websocket.newConn (Some netConn) input
                                         (websocket.mkWriter [] false) true))
            /\ websocket.rw_status w' = Some websocket.StatusSwitchingProtocols
            /\ websocket.rw_Header w' !! "Sec-WebSocket-Protocol"
               = websocket.rw_Header w !! "Sec-WebSocket-Protocol").
Proof.
  intros Hne. split.
  - intros pre p post Hoffers Hp Hpre.
    rewrite negotiateSubprotocol_loop by exact Hne.
    now apply (negotiate_loop_first TrimSpace serverProtos pre p post).
  - intros Hnone.
    assert (Hsel : websocket.negotiateSubprotocol TrimSpace r serverProtos = "").
    { rewrite negotiateSubprotocol_loop by exact Hne.
      now apply negotiate_loop_none. }
    split; [exact Hsel|].
    intros w check rb wb netConn input Hm Hu Hc Hv Hk Ho Hh.
    destruct (Upgrade_accepts ToLower TrimSpace w r
                (websocket.mkUpgradeOptions serverProtos check rb wb)
                netConn input Hm Hu Hc Hv Hk Ho Hh) as (w' & E & Hs & Hp).
    exists w'. split; [exact E|]. split; [exact Hs|].
    cbn [websocket.Subprotocols] in Hp. now rewrite Hsel in Hp.
Qed.

(** C7 on the request of RFC 6455 Section 1.3, which offers
    [chat, superchat]: a server that lists [superchat] and [chat] selects
    [chat]; a server that lists only [mqtt] selects nothing and still
    upgrades the connection. *)
Lemma C7_subprotocol_negotiation_witness :
  (["superchat"; "chat"] <> ([] : list string)
   /\ websocket.negotiateSubprotocol gostrings.ascii_TrimSpace sample_request
        ["superchat"; "chat"] = "chat")
  /\ (["mqtt"] <> ([] : list string)
      /\ websocket.negotiateSubprotocol gostrings.ascii_TrimSpace sample_request
           ["mqtt"] = ""
      /\ exists w',
          websocket.Upgrade gostrings.ascii_ToLower gostrings.ascii_TrimSpace
            sample_writer sample_request
            (Some (websocket.mkUpgradeOptions ["mqtt"] None 0 0))
          = (w', Ok (websocket.newConn (Some (websocket.mkNetConn false)) []
                                       (websocket.mkWriter [] false) true))
          /\ websocket.rw_status w' = Some websocket.StatusSwitchingProtocols
          /\ websocket.rw_Header w' !! "Sec-WebSocket-Protocol"
             = websocket.rw_Header sample_writer !! "Sec-WebSocket-Protocol").
Proof.
  split.
  - split; [discriminate|].
    apply (proj1 (C7_subprotocol_negotiation gostrings.ascii_ToLower
                    gostrings.ascii_TrimSpace sample_request ["superchat"; "chat"]
                    ltac:(discriminate))
                 [] "chat" ["superchat"]).
    + vm_compute. reflexivity.
    + simpl. auto.
    + intros q [].
  - split; [discriminate|].
    assert (Hnone : forall q,
               In q (client_offers gostrings.ascii_TrimSpace sample_request) ->
               ~ In q ["mqtt"]).
    { intros q Hq. vm_compute in Hq.
      destruct Hq as [<-|[<-|[]]]; intros [H|[]]; discriminate H. }
    destruct (proj2 (C7_subprotocol_negotiation gostrings.ascii_ToLower
                       gostrings.ascii_TrimSpace sample_request ["mqtt"]
                       ltac:(discriminate)) Hnone) as [Hsel Hup].
    split; [exact Hsel|].
    apply (Hup sample_writer None 0%Z 0%Z (websocket.mkNetConn false) []).
    + reflexivity.
    + vm_compute. reflexivity.
    + vm_compute. reflexivity.
    + vm_compute. reflexivity.
    + vm_compute. discriminate.
    + exact I.
    + reflexivity.
Defined.

(** ** Broadcasting *)

(** A loop over the members that rewrites the connection of each member
    in the store with [g] leaves every connection of a member rewritten
    once and the others as they were. *)
Lemma fold_store {H C : Type} (step : H * gmap nat C -> nat -> H * gmap nat C)
      (g : C -> C) :
  (forall (h : H) (σ : gmap nat C) (id : nat),
      snd (step (h, σ) id)
      = match σ !! id with
        | Some c => <[id := g c]> σ
        | None => σ
        end) ->
  forall (L : list nat), NoDup L ->
  forall (h : H) (σ : gmap nat C) (id : nat),
    snd (foldl step (h, σ) L) !! id
    = if decide (id ∈ L) then g <$> (σ !! id) else σ !! id.
Proof.
  intros Hstep L. induction L as [|x L IH]; intros Hnd h σ id.
  - simpl. destruct (decide (id ∈ [])) as [Hin|_]; [|reflexivity].
    now apply elem_of_nil in Hin.
  - apply NoDup_cons in Hnd as [Hx Hnd].
    cbn [foldl]. destruct (step (h, σ) x) as [h1 σ1] eqn:E.
    rewrite (IH Hnd h1 σ1 id).
    assert (Hσ1 : σ1 = match σ !! x with
                       | Some c => <[x := g c]> σ
                       | None => σ
                       end).
    { rewrite <- Hstep with (h := h). now rewrite E. }
    destruct (decide (id = x)) as [->|Hne].
    + destruct (decide (x ∈ L)) as [Hin|_]; [contradiction|].
      destruct (decide (x ∈ x :: L)) as [_|Hout]; [|exfalso; apply Hout; left].
      rewrite Hσ1. destruct (σ !! x) as [c|] eqn:Ec.
      * now rewrite lookup_insert_eq.
      * now rewrite Ec.
    + assert (Hσ : σ1 !! id = σ !! id).
      { rewrite Hσ1. destruct (σ !! x); [now rewrite lookup_insert_ne|reflexivity]. }
      rewrite Hσ.
      destruct (decide (id ∈ L)) as [Hin|Hout];
        destruct (decide (id ∈ x :: L)) as [Hin'|Hout']; try reflexivity.
      * exfalso. apply Hout'. now right.
      * apply elem_of_cons in Hin' as [?|?]; [contradiction | contradiction].
Qed.

Lemma ws_send_store (message : list Z) (h : websocket.Hub.t)
      (σ : gmap nat websocket.Conn) (id : nat) :
  snd (websocket.Hub.send message (h, σ) id)
  = match σ !! id with
    | Some c => <[id := ws_delivered message c]> σ
    | None => σ
    end.
Proof.
  unfold websocket.Hub.send, ws_delivered.
  destruct (σ !! id) as [c|]; [|reflexivity].
  now destruct (websocket.Write c websocket.BinaryMessage message) as [c' e].
Qed.

(** The first octet that [frameBytes] produces is the header octet with
    the FIN bit, the reserved bits and the opcode. *)
Lemma frameBytes_head (f : websocket.frame) :
  nth 0 (websocket.frameBytes f) 0%Z
  = Z.lor
      (let h0 := 0%Z in
       let h0 := if websocket.fin f then Z.lor h0 0x80 else h0 in
       let h0 := if websocket.rsv1 f then Z.lor h0 0x40 else h0 in
       let h0 := if websocket.rsv2 f then Z.lor h0 0x20 else h0 in
       if websocket.rsv3 f then Z.lor h0 0x10 else h0)
      (Z.land (websocket.opcode f) 0x0F).
Proof.
  unfold websocket.frameBytes.
  set (n := Z.of_nat (List.length (websocket.payload f))).
  destruct ((websocket.payloadLen7Bit <? n) && (n <=? 0xFFFF))%Z,
    (0xFFFF <? n)%Z, (websocket.masked f), (0 <? n)%Z; reflexivity.
Qed.

(** A binary [Write] leaves the wire as it was or adds one frame, whose
    opcode is binary. *)
Lemma Write_binary_wire (c : websocket.Conn) (message : list Z) :
  websocket.wire (websocket.writer (ws_delivered message c))
  = websocket.wire (websocket.writer c)
  \/ websocket.wire (websocket.writer (ws_delivered message c))
     = websocket.wire (websocket.writer c)
       ++ websocket.frameBytes (websocket.outFrame c websocket.opcodeBinary message).
Proof.
  unfold ws_delivered, websocket.Write.
  destruct (websocket.closed c); [now left|].
  change (websocket.BinaryMessage =? websocket.TextMessage)%Z with false.
  change (websocket.BinaryMessage =? websocket.BinaryMessage)%Z with true.
  cbn match.
  unfold websocket.writeFrame.
  cbn [websocket.opcode websocket.outFrame websocket.fin websocket.payload].
  change (websocket.isValidOpcode websocket.opcodeBinary) with true.
  change (websocket.isControlFrame websocket.opcodeBinary) with false.
  change (websocket.opcodeBinary =? websocket.opcodeText)%Z with false.
  cbn [negb andb].
  destruct (websocket.maxFramePayload <? Z.of_nat (List.length message))%Z;
    [now left|].
  unfold websocket.flush.
  destruct (websocket.broken (websocket.writer c)); [now left|].
  right. reflexivity.
Qed.

(** A binary [Write] on an open connection whose sink works adds the
    frame of the message when the message is within the limit. *)
Lemma Write_binary_delivers (c : websocket.Conn) (message : list Z) :
  websocket.closed c = false ->
  websocket.broken (websocket.writer c) = false ->
  (Z.of_nat (List.length message) <= websocket.maxFramePayload)%Z ->
  websocket.wire (websocket.writer (ws_delivered message c))
  = websocket.wire (websocket.writer c)
    ++ websocket.frameBytes (websocket.outFrame c websocket.opcodeBinary message).
Proof.
  intros Hc Hb Hl. unfold ws_delivered, websocket.Write. rewrite Hc.
  change (websocket.BinaryMessage =? websocket.TextMessage)%Z with false.
  change (websocket.BinaryMessage =? websocket.BinaryMessage)%Z with true.
  cbn match.
  unfold websocket.writeFrame.
  cbn [websocket.opcode websocket.outFrame websocket.fin websocket.payload].
  change (websocket.isValidOpcode websocket.opcodeBinary) with true.
  change (websocket.isControlFrame websocket.opcodeBinary) with false.
  change (websocket.opcodeBinary =? websocket.opcodeText)%Z with false.
  cbn [negb andb].
  replace (websocket.maxFramePayload <? Z.of_nat (List.length message))%Z with false
    by (symmetry; apply Z.ltb_ge; exact Hl).
  unfold websocket.flush. rewrite Hb. reflexivity.
Qed.

(** The store after the goroutines of one broadcast. *)
Lemma Run_iter_broadcast_store (h h' : websocket.Hub.t)
      (σ σ' : gmap nat websocket.Conn) (message : list Z) (q : list (list Z))
      (more : bool) :
  websocket.Hub.broadcast h = message :: q ->
  websocket.Hub.Run_iter websocket.Hub.RecvBroadcast h σ = Some (h', σ', more) ->
  forall id : nat,
    σ' !! id = if decide (id ∈ websocket.Hub.clients h)
               then ws_delivered message <$> (σ !! id)
               else σ !! id.
Proof.
  intros Hq Hrun id.
  unfold websocket.Hub.Run_iter in Hrun. rewrite Hq in Hrun.
  destruct (foldl _ _ _) as [h2 σ2] eqn:E in Hrun.
  injection Hrun as _ Hσ _. subst σ2.
  pose proof (fold_store (websocket.Hub.send message) (ws_delivered message)
                (ws_send_store message)
                (elements (websocket.Hub.clients h))
                (NoDup_elements _)
                (websocket.Hub.mk (websocket.Hub.clients h) (websocket.Hub.register h)
                   (websocket.Hub.unregister h) q (websocket.Hub.done h)
                   (websocket.Hub.closed h))
                σ id) as Hfold.
  rewrite E in Hfold. cbn [snd] in Hfold. rewrite Hfold.
  destruct (decide (id ∈ elements (websocket.Hub.clients h))) as [Hin|Hout],
    (decide (id ∈ websocket.Hub.clients h)) as [Hin'|Hout']; try reflexivity.
  - exfalso. apply Hout'. now apply elem_of_elements.
  - exfalso. apply Hout. now apply elem_of_elements.
Qed.

(** C10: when the loop of [Run] takes a message from the broadcast
    channel, every registered client whose connection is open and whose
    sink works is sent the message, when it is within the frame limit, as
    exactly one frame, and that frame is final, carries the message as
    payload and has the binary opcode (its first octet is 0x82).  The wire
    of every other connection in the store is left as it was or gains that
    one binary frame, never a text frame, and a client that is not
    registered is not written to.  [Broadcast], [BroadcastText] and
    [BroadcastJSON] all put their payload on that one channel. *)
Theorem C10_hub_broadcast_binary :
  (forall (h h' : websocket.Hub.t) (σ σ' : gmap nat websocket.Conn)
          (message : list Z) (q : list (list Z)) (more : bool),
      websocket.Hub.broadcast h = message :: q ->
      websocket.Hub.Run_iter websocket.Hub.RecvBroadcast h σ = Some (h', σ', more) ->
      (forall (id : nat) (c : websocket.Conn),
        id ∈ websocket.Hub.clients h ->
        σ !! id = Some c ->
        websocket.closed c = false ->
        websocket.broken (websocket.writer c) = false ->
        (Z.of_nat (List.length message) <= websocket.maxFramePayload)%Z ->
        exists (c' : websocket.Conn) (f : websocket.frame),
          σ' !! id = Some c'
          /\ websocket.wire (websocket.writer c')
             = websocket.wire (websocket.writer c) ++ websocket.frameBytes f
          /\ websocket.opcode f = websocket.opcodeBinary
          /\ websocket.fin f = true
          /\ websocket.payload f = message
          /\ nth 0 (websocket.frameBytes f) 0%Z = 0x82%Z)
      /\ (forall (id : nat) (c : websocket.Conn),
        σ !! id = Some c ->
        exists c',
          σ' !! id = Some c'
          /\ (websocket.wire (websocket.writer c') = websocket.wire (websocket.writer c)
              \/ exists f : websocket.frame,
                  websocket.wire (websocket.writer c')
                  = websocket.wire (websocket.writer c) ++ websocket.frameBytes f
                  /\ websocket.opcode f = websocket.opcodeBinary
                  /\ websocket.fin f = true
                  /\ websocket.payload f = message
                  /\ nth 0 (websocket.frameBytes f) 0%Z = 0x82%Z))
      /\ (forall id : nat, id ∉ websocket.Hub.clients h -> σ' !! id = σ !! id))
  /\ (forall (h : websocket.Hub.t) (message : list Z),
        websocket.Hub.closed h = false ->
        websocket.Hub.broadcast (websocket.Hub.Broadcast h message)
        = websocket.Hub.broadcast h ++ [message])
  /\ (forall (h : websocket.Hub.t) (text : string),
        websocket.Hub.BroadcastText h text
        = websocket.Hub.Broadcast h (bytes_of_string text))
  /\ (forall (V : Type) (Marshal : V -> result (list Z)) (h : websocket.Hub.t)
             (v : V) (data : list Z),
        Marshal v = Ok data ->
        websocket.Hub.BroadcastJSON Marshal h v = (websocket.Hub.Broadcast h data, None)).
Proof.
  split; [|split; [|split]].
  - intros h h' σ σ' message q more Hq Hrun.
    pose proof (Run_iter_broadcast_store h h' σ σ' message q more Hq Hrun) as Hσ.
    split; [|split].
    + intros id c Hin Hc Hopen Hsink Hlen.
      exists (ws_delivered message c),
             (websocket.outFrame c websocket.opcodeBinary message).
      split.
      { rewrite Hσ, Hc.
        destruct (decide (id ∈ websocket.Hub.clients h)); [reflexivity | contradiction]. }
      split; [now apply Write_binary_delivers|].
      repeat split. rewrite frameBytes_head. reflexivity.
    + intros id c Hc. rewrite Hσ, Hc.
      destruct (decide (id ∈ websocket.Hub.clients h)) as [Hin|Hout].
      * exists (ws_delivered message c). split; [reflexivity|].
        destruct (Write_binary_wire c message) as [Hw|Hw]; [now left|].
        right. exists (websocket.outFrame c websocket.opcodeBinary message).
        split; [exact Hw|]. repeat split.
        rewrite frameBytes_head. reflexivity.
      * exists c. split; [reflexivity | now left].
    + intros id Hout. rewrite Hσ.
      destruct (decide (id ∈ websocket.Hub.clients h)); [contradiction | reflexivity].
  - intros h message Hopen. unfold websocket.Hub.Broadcast. now rewrite Hopen.
  - reflexivity.
  - intros V Marshal h v data Hm. unfold websocket.Hub.BroadcastJSON. now rewrite Hm.
Qed.

(** C10 on a hub with a live and a closed client and the text [hello]
    queued by [BroadcastText]: the live client receives the one binary
    frame. *)
Lemma C10_hub_broadcast_binary_witness :
  websocket.Hub.broadcast hub_with_hello = [hello]
  /\ two_clients !! 1%nat = Some (server_conn [])
  /\ match websocket.Hub.Run_iter websocket.Hub.RecvBroadcast hub_with_hello two_clients with
     | Some (h', σ', more) =>
       exists (c' : websocket.Conn) (f : websocket.frame),
         σ' !! 1%nat = Some c'
         /\ websocket.wire (websocket.writer c')
            = websocket.wire (websocket.writer (server_conn []))
              ++ websocket.frameBytes f
         /\ websocket.opcode f = websocket.opcodeBinary
         /\ websocket.fin f = true
         /\ websocket.payload f = hello
         /\ nth 0 (websocket.frameBytes f) 0%Z = 0x82%Z
     | None => False
     end.
Proof.
  split; [reflexivity|]. split; [reflexivity|].
  destruct (websocket.Hub.Run_iter websocket.Hub.RecvBroadcast hub_with_hello two_clients)
    as [[[h' σ'] more]|] eqn:E.
  - apply (proj1 (proj1 C10_hub_broadcast_binary hub_with_hello h' two_clients σ' hello []
                        more eq_refl E) 1%nat (server_conn [])).
    + apply elem_of_union. left. now apply elem_of_singleton.
    + reflexivity.
    + reflexivity.
    + reflexivity.
    + unfold websocket.maxFramePayload. simpl. lia.
  - vm_compute in E. discriminate E.
Defined.

Lemma sse_send_store {T : Type} `{sse.Payload T} (dataStr : string)
      (h : sse.Hub.t T) (σ : gmap nat sse.Conn) (id : nat) :
  snd (sse.Hub.send dataStr (h, σ) id)
  = match σ !! id with
    | Some c => <[id := sse_delivered dataStr c]> σ
    | None => σ
    end.
Proof.
  unfold sse.Hub.send, sse_delivered.
  destruct (σ !! id) as [c|]; [|reflexivity].
  destruct (sse.SendData c dataStr) as [c' [e|]]; [|reflexivity].
  unfold sse.Hub.removeClient, sse.Hub.close_in. cbn [snd].
  rewrite lookup_insert_eq. now rewrite insert_insert_eq.
Qed.






(** ** The frame codec *)

Section Codec.
Local Open Scope Z_scope.

Lemma land_shiftl_low (a b k : Z) :
  0 <= k -> 0 <= b < 2 ^ k -> Z.land (Z.shiftl a k) b = 0.
Proof.
  intros Hk Hb. apply Z.bits_inj'. intros i Hi.
  rewrite Z.land_spec, Z.bits_0.
  destruct (Z.ltb_spec i k) as [Hlt|Hge].
  - rewrite Z.shiftl_spec_low by exact Hlt. reflexivity.
  - rewrite <- (Z.mod_small b (2 ^ k)) by exact Hb.
    rewrite Z.mod_pow2_bits_high by lia. apply andb_false_r.
Qed.

Lemma lor_shiftl (a b k : Z) :
  0 <= k -> 0 <= b < 2 ^ k -> Z.lor (Z.shiftl a k) b = a * 2 ^ k + b.
Proof.
  intros Hk Hb.
  pose proof (Z.add_lor_land (Z.shiftl a k) b) as H.
  rewrite land_shiftl_low in H by assumption.
  rewrite <- (Z.shiftl_mul_pow2 a k) by exact Hk. lia.
Qed.

Lemma byte_of_shiftr (n s : Z) :
  0 <= s -> Z.land (Z.shiftr n s) 0xFF = (n / 2 ^ s) mod 256.
Proof.
  intros Hs. rewrite Z.shiftr_div_pow2 by exact Hs.
  change 0xFF with (Z.ones 8). rewrite Z.land_ones by lia. reflexivity.
Qed.

Lemma low_byte (n : Z) : Z.land n 0xFF = n mod 256.
Proof.
  change 0xFF with (Z.ones 8). rewrite Z.land_ones by lia. reflexivity.
Qed.

Lemma Uint16_PutUint16 (n : Z) :
  0 <= n < 2 ^ 16 -> websocket.Uint16 (websocket.PutUint16 n) = n.
Proof.
  intros Hn. unfold websocket.Uint16, websocket.PutUint16.
  rewrite byte_of_shiftr, low_byte by lia.
  rewrite lor_shiftl by (try lia; apply Z.mod_pos_bound; lia).
  change (2 ^ 8) with 256. Z.div_mod_to_equations. lia.
Qed.

Lemma Uint64_PutUint64 (n : Z) :
  0 <= n < 2 ^ 64 -> websocket.Uint64 (websocket.PutUint64 n) = n.
Proof.
  intros Hn. unfold websocket.Uint64, websocket.PutUint64.
  rewrite !byte_of_shiftr, low_byte by lia.
  assert (B : forall x, 0 <= x mod 256 < 256) by (intros; apply Z.mod_pos_bound; lia).
  rewrite (lor_shiftl _ (n mod 256) 8) by (try lia; apply B).
  rewrite (lor_shiftl _ _ 16) by (try lia; pose proof (B n); pose proof (B (n / 2 ^ 8)); lia).
  rewrite (lor_shiftl _ _ 24)
    by (try lia; pose proof (B n); pose proof (B (n / 2 ^ 8));
        pose proof (B (n / 2 ^ 16)); lia).
  rewrite (lor_shiftl _ _ 32)
    by (try lia; pose proof (B n); pose proof (B (n / 2 ^ 8));
        pose proof (B (n / 2 ^ 16)); pose proof (B (n / 2 ^ 24)); lia).
  rewrite (lor_shiftl _ _ 40)
    by (try lia; pose proof (B n); pose proof (B (n / 2 ^ 8));
        pose proof (B (n / 2 ^ 16)); pose proof (B (n / 2 ^ 24));
        pose proof (B (n / 2 ^ 32)); lia).
  rewrite (lor_shiftl _ _ 48)
    by (try lia; pose proof (B n); pose proof (B (n / 2 ^ 8));
        pose proof (B (n / 2 ^ 16)); pose proof (B (n / 2 ^ 24));
        pose proof (B (n / 2 ^ 32)); pose proof (B (n / 2 ^ 40)); lia).
  rewrite (lor_shiftl _ _ 56)
    by (try lia; pose proof (B n); pose proof (B (n / 2 ^ 8));
        pose proof (B (n / 2 ^ 16)); pose proof (B (n / 2 ^ 24));
        pose proof (B (n / 2 ^ 32)); pose proof (B (n / 2 ^ 40));
        pose proof (B (n / 2 ^ 48)); lia).
  clear B. Z.div_mod_to_equations. lia.
Qed.

Lemma msb_clear (n : Z) : 0 <= n < 2 ^ 63 -> Z.land n (Z.shiftl 1 63) = 0.
Proof.
  intros Hn. rewrite Z.land_comm.
  change 1 with (0 * 2 ^ 63 + 1) at 1.
  rewrite Z.shiftl_mul_pow2 by lia.
  replace ((0 * 2 ^ 63 + 1) * 2 ^ 63) with (Z.shiftl 1 63)
    by (rewrite Z.shiftl_mul_pow2; lia).
  apply land_shiftl_low; lia.
Qed.

Lemma lxor_twice (b k : Z) : Z.lxor (Z.lxor b k) k = b.
Proof.
  now rewrite Z.lxor_assoc, Z.lxor_nilpotent, Z.lxor_0_r.
Qed.

Lemma applyMask_from_twice (data : list Z) (m : websocket.mask4) (i : Z) :
  websocket.applyMask_from i (websocket.applyMask_from i data m) m = data.
Proof.
  revert i. induction data as [|b data IH]; intros i; simpl.
  - reflexivity.
  - now rewrite lxor_twice, IH.
Qed.

Lemma applyMask_twice (data : list Z) (m : websocket.mask4) :
  websocket.applyMask (websocket.applyMask data m) m = data.
Proof. apply applyMask_from_twice. Qed.

Lemma applyMask_from_length (data : list Z) (m : websocket.mask4) (i : Z) :
  List.length (websocket.applyMask_from i data m) = List.length data.
Proof.
  revert i. induction data as [|b data IH]; intros i; simpl; [reflexivity | now rewrite IH].
Qed.

Lemma applyMask_length (data : list Z) (m : websocket.mask4) :
  List.length (websocket.applyMask data m) = List.length data.
Proof. apply applyMask_from_length. Qed.

Lemma ReadFull_app (x t : list Z) (k : nat) :
  List.length x = k -> websocket.ReadFull (x ++ t) k = (Ok x, t).
Proof.
  intros <-. unfold websocket.ReadFull.
  rewrite length_app.
  replace (List.length x <=? List.length x + List.length t)%nat with true
    by (symmetry; apply Nat.leb_le; lia).
  now rewrite take_app_length, drop_app_length.
Qed.

Lemma valid_opcode_cases (op : Z) :
  websocket.isValidOpcode op = true ->
  op = 0 \/ op = 1 \/ op = 2 \/ op = 8 \/ op = 9 \/ op = 10.
Proof.
  unfold websocket.isValidOpcode. rewrite !orb_true_iff, !Z.eqb_eq.
  unfold websocket.opcodeContinuation, websocket.opcodeText, websocket.opcodeBinary,
    websocket.opcodeClose, websocket.opcodePing, websocket.opcodePong.
  tauto.
Qed.

(** Decoding the first header octet. *)
Lemma header0_decode (b : bool) (op : Z) :
  websocket.isValidOpcode op = true ->
  let h0 := Z.lor (if b then Z.lor 0 0x80 else 0) (Z.land op 0x0F) in
  negb (Z.land h0 0x80 =? 0) = b
  /\ negb (Z.land h0 0x40 =? 0) = false
  /\ negb (Z.land h0 0x20 =? 0) = false
  /\ negb (Z.land h0 0x10 =? 0) = false
  /\ Z.land h0 0x0F = op.
Proof.
  intros Hop.
  destruct (valid_opcode_cases op Hop) as [->|[->|[->|[->|[->| ->]]]]];
    destruct b; vm_compute; repeat split; reflexivity.
Qed.

Lemma forall_below (P : Z -> bool) (N : nat) :
  forallb P (map Z.of_nat (seq 0 N)) = true ->
  forall l, 0 <= l < Z.of_nat N -> P l = true.
Proof.
  intros H l Hl. rewrite forallb_forall in H. apply H.
  apply in_map_iff. exists (Z.to_nat l). split; [lia|].
  apply in_seq. lia.
Qed.

(** Decoding the second header octet. *)
Lemma header1_decode (m : bool) (l : Z) :
  0 <= l < 128 ->
  negb (Z.land (Z.lor (if m then Z.lor 0 0x80 else 0) l) 0x80 =? 0) = m
  /\ Z.land (Z.lor (if m then Z.lor 0 0x80 else 0) l) 0x7F = l.
Proof.
  intros Hl.
  pose proof (forall_below
    (fun l => (Z.land (Z.lor (Z.lor 0 0x80) l) 0x7F =? l)
              && negb (Z.land (Z.lor (Z.lor 0 0x80) l) 0x80 =? 0)
              && (Z.land (Z.lor 0 l) 0x7F =? l)
              && (Z.land (Z.lor 0 l) 0x80 =? 0)) 128
    ltac:(vm_compute; reflexivity) l Hl) as H.
  cbv beta in H. rewrite !andb_true_iff, !Z.eqb_eq, negb_true_iff in H.
  destruct H as [[[H1 H2] H3] H4].
  destruct m.
  - now rewrite H1, H2.
  - now rewrite H3, H4.
Qed.

Lemma ReadFull_2 (a b : Z) (t : list Z) :
  websocket.ReadFull (a :: b :: t) 2 = (Ok [a; b], t).
Proof. reflexivity. Qed.

Lemma key_roundtrip (key : websocket.mask4) :
  (nth 0 (websocket.mask_bytes key) 0, nth 1 (websocket.mask_bytes key) 0,
   nth 2 (websocket.mask_bytes key) 0, nth 3 (websocket.mask_bytes key) 0) = key.
Proof. destruct key as [[[a b] c] d]. reflexivity. Qed.

Lemma mask_bytes_length (key : websocket.mask4) :
  List.length (websocket.mask_bytes key) = 4%nat.
Proof. destruct key as [[[a b] c] d]. reflexivity. Qed.

(** What [readFrame] does after the header and the length: it reads the
    key when the mask bit is set, then the payload, and checks text. *)
Lemma readFrame_frameBytes (b : bool) (op : Z) (m : bool) (key : websocket.mask4)
      (p rest : list Z) :
  websocket.isValidOpcode op = true ->
  (websocket.isControlFrame op = true ->
   b = true /\ Z.of_nat (List.length p) <= websocket.maxControlPayload) ->
  (op = websocket.opcodeText -> utf8.Valid p = true) ->
  Z.of_nat (List.length p) <= websocket.maxFramePayload ->
  websocket.readFrame
    (websocket.frameBytes (websocket.mkFrame b false false false op m key p) ++ rest)
  = (Ok (websocket.mkFrame b false false false op m
           (if m then key else websocket.zero_mask) p), rest).
Proof.
  intros Hop Hctl Htxt Hmax.
  set (n := Z.of_nat (List.length p)) in *.
  assert (Hn0 : 0 <= n) by lia.
  pose proof (header0_decode b op Hop) as (D1 & D2 & D3 & D4 & D5).
  cbv zeta in D1, D2, D3, D4, D5.
  (* the octets after the header and the extended length *)
  set (tail := (if m then websocket.mask_bytes key else [])
               ++ (if 0 <? n then (if m then websocket.applyMask p key else p) else [])
               ++ rest).
  assert (Htail : forall (r : list Z),
    r = tail ->
    (let key' :=
       if m then
         match websocket.ReadFull r 4 with
         | (Err e, r3) => (Err e, r3)
         | (Ok k, r3) => (Ok (nth 0 k 0, nth 1 k 0, nth 2 k 0, nth 3 k 0), r3)
         end
       else (Ok websocket.zero_mask, r) in
     match key' with
     | (Err e, r3) => (Err e, r3)
     | (Ok f_mask, r3) =>
       let body :=
         if 0 <? n then
           match websocket.ReadFull r3 (Z.to_nat n) with
           | (Err e, r4) => (Err e, r4)
           | (Ok q, r4) => (Ok (if m then websocket.applyMask q f_mask else q), r4)
           end
         else (Ok [], r3) in
       match body with
       | (Err e, r4) => (Err e, r4)
       | (Ok f_payload, r4) =>
         if (op =? websocket.opcodeText) && negb (utf8.Valid f_payload)
         then (Err ErrInvalidUTF8, r4)
         else (Ok (websocket.mkFrame b false false false op m f_mask f_payload), r4)
       end
     end)
    = (Ok (websocket.mkFrame b false false false op m
             (if m then key else websocket.zero_mask) p), rest)).
  { intros r ->. unfold tail. cbv zeta.
    assert (Hutf : (op =? websocket.opcodeText) && negb (utf8.Valid p) = false).
    { destruct (Z.eqb_spec op websocket.opcodeText) as [E|E]; [|reflexivity].
      now rewrite (Htxt E). }
    destruct m.
    - rewrite ReadFull_app by apply mask_bytes_length. rewrite key_roundtrip.
      destruct (Z.ltb_spec 0 n) as [Hpos|Hz].
      + rewrite ReadFull_app
          by (rewrite applyMask_length; unfold n; lia).
        rewrite applyMask_twice. now rewrite Hutf.
      + assert (p = []) as -> by (destruct p; [reflexivity | simpl in n; lia]).
        simpl. rewrite andb_false_r. reflexivity.
    - simpl app.
      destruct (Z.ltb_spec 0 n) as [Hpos|Hz].
      + rewrite ReadFull_app by (unfold n; lia). now rewrite Hutf.
      + assert (p = []) as -> by (destruct p; [reflexivity | simpl in n; lia]).
        simpl. rewrite andb_false_r. reflexivity. }
  assert (Hc1 : websocket.isControlFrame op && negb b = false).
  { destruct (websocket.isControlFrame op) eqn:E; [|reflexivity].
    destruct (Hctl eq_refl) as [-> _]. reflexivity. }
  assert (Hc2 : websocket.isControlFrame op && (websocket.maxControlPayload <? n) = false).
  { destruct (websocket.isControlFrame op) eqn:E; [|reflexivity].
    destruct (Hctl eq_refl) as [_ Hle]. simpl. apply Z.ltb_ge. exact Hle. }
  assert (Hc3 : (websocket.maxFramePayload <? n) = false) by (apply Z.ltb_ge; exact Hmax).
  unfold websocket.maxFramePayload in Hmax.
  destruct (Z.leb_spec n websocket.payloadLen7Bit) as [HA|HA];
    [|destruct (Z.leb_spec n 0xFFFF) as [HB|HB]];
    unfold websocket.payloadLen7Bit in HA.
  - (* 7-bit length *)
    assert (Hlay : websocket.frameBytes
                     (websocket.mkFrame b false false false op m key p) ++ rest
                   = Z.lor (if b then Z.lor 0 0x80 else 0) (Z.land op 0x0F)
                     :: Z.lor (if m then Z.lor 0 0x80 else 0) n
                     :: tail).
    { unfold websocket.frameBytes, tail.
      cbn [websocket.fin websocket.rsv1 websocket.rsv2 websocket.rsv3
           websocket.opcode websocket.masked websocket.mask websocket.payload].
      fold n. unfold websocket.payloadLen7Bit.
      replace (n <=? 125) with true by (symmetry; apply Z.leb_le; lia).
      replace (125 <? n) with false by (symmetry; apply Z.ltb_ge; lia).
      replace (65535 <? n) with false by (symmetry; apply Z.ltb_ge; lia).
      rewrite low_byte, Z.mod_small by lia.
      cbn [andb]. destruct m, (0 <? n); simpl; rewrite <- ?app_assoc; reflexivity. }
    rewrite Hlay. unfold websocket.readFrame. rewrite ReadFull_2. cbn [nth].
    destruct (header1_decode m n ltac:(lia)) as [E1 E2].
    rewrite D1, D2, D3, D4, D5, E1, E2, Hop, Hc1. cbn [negb orb].
    unfold websocket.payloadLen16Bit, websocket.payloadLen64Bit.
    replace (n =? 126) with false by (symmetry; apply Z.eqb_neq; lia).
    replace (n =? 127) with false by (symmetry; apply Z.eqb_neq; lia).
    rewrite Hc2, Hc3.
    exact (Htail tail eq_refl).
  - (* 16-bit length *)
    assert (Hlay : websocket.frameBytes
                     (websocket.mkFrame b false false false op m key p) ++ rest
                   = Z.lor (if b then Z.lor 0 0x80 else 0) (Z.land op 0x0F)
                     :: Z.lor (if m then Z.lor 0 0x80 else 0) 126
                     :: websocket.PutUint16 n ++ tail).
    { unfold websocket.frameBytes, tail.
      cbn [websocket.fin websocket.rsv1 websocket.rsv2 websocket.rsv3
           websocket.opcode websocket.masked websocket.mask websocket.payload].
      fold n. unfold websocket.payloadLen7Bit, websocket.payloadLen16Bit.
      replace (n <=? 125) with false by (symmetry; apply Z.leb_gt; lia).
      replace (125 <? n) with true by (symmetry; apply Z.ltb_lt; lia).
      replace (n <=? 65535) with true by (symmetry; apply Z.leb_le; lia).
      cbn [andb]. destruct m, (0 <? n); simpl; rewrite <- ?app_assoc; reflexivity. }
    rewrite Hlay. unfold websocket.readFrame. rewrite ReadFull_2. cbn [nth].
    destruct (header1_decode m 126 ltac:(lia)) as [E1 E2].
    rewrite D1, D2, D3, D4, D5, E1, E2, Hop, Hc1. cbn [negb orb].
    unfold websocket.payloadLen16Bit, websocket.payloadLen64Bit.
    change (126 =? 126) with true. cbv iota.
    rewrite ReadFull_app by reflexivity.
    rewrite Uint16_PutUint16 by lia.
    rewrite Hc2, Hc3.
    exact (Htail tail eq_refl).
  - (* 64-bit length *)
    assert (Hlay : websocket.frameBytes
                     (websocket.mkFrame b false false false op m key p) ++ rest
                   = Z.lor (if b then Z.lor 0 0x80 else 0) (Z.land op 0x0F)
                     :: Z.lor (if m then Z.lor 0 0x80 else 0) 127
                     :: websocket.PutUint64 n ++ tail).
    { unfold websocket.frameBytes, tail.
      cbn [websocket.fin websocket.rsv1 websocket.rsv2 websocket.rsv3
           websocket.opcode websocket.masked websocket.mask websocket.payload].
      fold n. unfold websocket.payloadLen7Bit, websocket.payloadLen64Bit.
      replace (n <=? 125) with false by (symmetry; apply Z.leb_gt; lia).
      replace (125 <? n) with true by (symmetry; apply Z.ltb_lt; lia).
      replace (n <=? 65535) with false by (symmetry; apply Z.leb_gt; lia).
      replace (65535 <? n) with true by (symmetry; apply Z.ltb_lt; lia).
      cbn [andb]. destruct m, (0 <? n); simpl; rewrite <- ?app_assoc; reflexivity. }
    rewrite Hlay. unfold websocket.readFrame. rewrite ReadFull_2. cbn [nth].
    destruct (header1_decode m 127 ltac:(lia)) as [E1 E2].
    rewrite D1, D2, D3, D4, D5, E1, E2, Hop, Hc1. cbn [negb orb].
    unfold websocket.payloadLen16Bit, websocket.payloadLen64Bit.
    change (127 =? 126) with false. change (127 =? 127) with true. cbv iota.
    rewrite ReadFull_app by reflexivity.
    rewrite Uint64_PutUint64 by lia.
    rewrite msb_clear by lia. change (0 =? 0) with true. cbn [negb].
    rewrite Hc2, Hc3.
    exact (Htail tail eq_refl).
Qed.

(** [writeFrame] accepts a valid frame and hands its octets to the
    writer. *)
Lemma writeFrame_valid (f : websocket.frame) (w : websocket.Writer) :
  valid_frame f = true ->
  websocket.broken w = false ->
  websocket.writeFrame w f
  = (websocket.mkWriter (websocket.wire w ++ websocket.frameBytes f) false, None).
Proof.
  intros Hv Hw. unfold valid_frame in Hv.
  rewrite !andb_true_iff in Hv.
  destruct Hv as [[[[[[Hop Hctl] _] _] _] Htxt] Hmax].
  unfold websocket.writeFrame, websocket.flush.
  rewrite Hop, Hw. cbn [negb].
  apply Z.leb_le in Hmax.
  replace (websocket.maxFramePayload <? Z.of_nat (List.length (websocket.payload f)))
    with false by (symmetry; apply Z.ltb_ge; exact Hmax).
  destruct (websocket.isControlFrame (websocket.opcode f)).
  - cbn [negb orb] in Hctl. apply andb_true_iff in Hctl as [Hfin Hlen].
    rewrite Hfin. apply Z.leb_le in Hlen.
    replace (websocket.maxControlPayload <? Z.of_nat (List.length (websocket.payload f)))
      with false by (symmetry; apply Z.ltb_ge; exact Hlen).
    cbn [negb andb].
    destruct (websocket.opcode f =? websocket.opcodeText); [|reflexivity].
    cbn [negb orb] in Htxt. now rewrite Htxt.
  - cbn [andb].
    destruct (websocket.opcode f =? websocket.opcodeText); [|reflexivity].
    cbn [negb orb] in Htxt. now rewrite Htxt.
Qed.

(** C4: a valid frame written with [writeFrame] and parsed with
    [readFrame] comes back with every field as it was.  The masking key
    has a meaning, and is sent, only when the mask bit is set: it comes
    back as it was for a masked frame, and an unmasked frame is read with
    the zero key that the library gives every frame it builds unmasked.
    The statement covers every payload length up to the limit, so the
    three length encodings and the lengths at which they change. *)
Theorem C4_frame_round_trip (f : websocket.frame) (w : websocket.Writer)
        (rest : list Z) :
  valid_frame f = true ->
  websocket.broken w = false ->
  websocket.writeFrame w f
  = (websocket.mkWriter (websocket.wire w ++ websocket.frameBytes f) false, None)
  /\ websocket.readFrame (websocket.frameBytes f ++ rest) = (Ok (on_wire f), rest)
  /\ (websocket.masked f = true \/ websocket.mask f = websocket.zero_mask ->
      on_wire f = f).
Proof.
  intros Hv Hw. split; [now apply writeFrame_valid|].
  split.
  - unfold valid_frame in Hv. rewrite !andb_true_iff, !negb_true_iff in Hv.
    destruct Hv as [[[[[[Hop Hctl] H1] H2] H3] Htxt] Hmax].
    destruct f as [b r1 r2 r3 op m key p].
    cbn [websocket.fin websocket.rsv1 websocket.rsv2 websocket.rsv3
         websocket.opcode websocket.masked websocket.mask websocket.payload] in *.
    subst r1 r2 r3. unfold on_wire.
    cbn [websocket.fin websocket.rsv1 websocket.rsv2 websocket.rsv3
         websocket.opcode websocket.masked websocket.mask websocket.payload].
    apply readFrame_frameBytes.
    + exact Hop.
    + intros Hc. rewrite Hc in Hctl. cbn [negb orb] in Hctl.
      apply andb_true_iff in Hctl as [Hb Hl]. apply Z.leb_le in Hl. now split.
    + intros ->. now destruct (utf8.Valid p).
    + now apply Z.leb_le.
  - intros Hm. unfold on_wire. destruct f as [b r1 r2 r3 op m key p].
    cbn [websocket.fin websocket.rsv1 websocket.rsv2 websocket.rsv3
         websocket.opcode websocket.masked websocket.mask websocket.payload] in *.
    destruct Hm as [->| ->]; [reflexivity|]. now destruct m.
Qed.

End Codec.

(** C4 on a masked text frame of 126 letters, the first length that
    takes the 16-bit encoding. *)
Lemma C4_frame_round_trip_witness :
  websocket.writeFrame (websocket.mkWriter [] false) (letters true 126)
  = (websocket.mkWriter ([] ++ websocket.frameBytes (letters true 126)) false, None)
  /\ websocket.readFrame (websocket.frameBytes (letters true 126) ++ [])
     = (Ok (on_wire (letters true 126)), [])
  /\ (websocket.masked (letters true 126) = true
      \/ websocket.mask (letters true 126) = websocket.zero_mask ->
      on_wire (letters true 126) = letters true 126).
Proof.
  apply (C4_frame_round_trip (letters true 126) (websocket.mkWriter [] false) []).
  - vm_compute. reflexivity.
  - reflexivity.
Defined.

(** The round trip at the lengths where the length encoding changes,
    masked and unmasked, by evaluation. *)
Lemma round_trip_boundaries :
  forallb (fun n => reads_back (letters false n) (letters false n)
                    && reads_back (letters true n) (letters true n))
          boundary_lengths = true.
Proof. vm_compute. reflexivity. Qed.

(** ** Reading always returns; the close latch *)

Lemma ReadFull_ok_length (r : list Z) (n : nat) (x r' : list Z) :
  websocket.ReadFull r n = (Ok x, r') -> List.length r = (n + List.length r')%nat.
Proof.
  unfold websocket.ReadFull. destruct (n <=? List.length r)%nat eqn:E.
  - intros [= _ <-]. apply Nat.leb_le in E. rewrite length_skipn. lia.
  - destruct r; discriminate.
Qed.

(** A frame that is read takes at least its two header octets from the
    reader. *)
Lemma readFrame_consumes (r : list Z) (f : websocket.frame) (r' : list Z) :
  websocket.readFrame r = (Ok f, r') -> (List.length r' < List.length r)%nat.
Proof.
  unfold websocket.readFrame.
  destruct (websocket.ReadFull r 2) as [[header|e] r1] eqn:E1; [|discriminate].
  apply ReadFull_ok_length in E1.
  cbv zeta.
  repeat match goal with
  | |- context [websocket.ReadFull ?a ?n] =>
    let E := fresh "E" in
    destruct (websocket.ReadFull a n) as [[?|?] ?] eqn:E;
    [apply ReadFull_ok_length in E|]
  | |- (if ?c then _ else _) = _ -> _ => destruct c
  | |- (Err _, _) = (Ok _, _) -> _ => discriminate
  | |- (match (if ?c then _ else _) with _ => _ end) = _ -> _ => destruct c
  | |- (let (_, _) := (if ?c then _ else _) in _) = _ -> _ => destruct c
  | |- (Ok _, _) = (Ok _, _) -> _ => intros [= _ <-]; lia
  end.
Qed.

Lemma Pong_reader (c : websocket.Conn) (data : list Z) :
  websocket.reader (fst (websocket.Pong c data)) = websocket.reader c.
Proof.
  unfold websocket.Pong.
  destruct (websocket.closed c); [reflexivity|].
  destruct (125 <? List.length data)%nat; [reflexivity|].
  now destruct (websocket.writeFrame _ _).
Qed.

(** The loop of [Read] ends before the fuel does when the fuel exceeds
    the number of octets left to read. *)
Lemma Read_loop_returns (fuel : nat) (c : websocket.Conn) :
  (List.length (websocket.reader c) < fuel)%nat ->
  exists out, websocket.Read_loop fuel c = Some out.
Proof.
  revert c. induction fuel as [|fuel IH]; intros c Hfuel; [lia|].
  cbn [websocket.Read_loop].
  destruct (websocket.readFrame (websocket.reader c)) as [[f|e] r] eqn:E;
    [|eexists; reflexivity].
  apply readFrame_consumes in E.
  destruct (websocket.opcode f =? websocket.opcodePing)%Z.
  { pose proof (Pong_reader (websocket.set_reader c r) (websocket.payload f)) as Hp.
    destruct (websocket.Pong (websocket.set_reader c r) (websocket.payload f))
      as [c' [e|]]; [eexists; reflexivity|].
    apply IH. cbn [fst] in Hp. rewrite Hp. cbn. lia. }
  destruct (websocket.opcode f =? websocket.opcodePong)%Z.
  { apply IH. cbn. lia. }
  destruct (websocket.opcode f =? websocket.opcodeClose)%Z; [eexists; reflexivity|].
  destruct ((websocket.opcode f =? websocket.opcodeText)%Z
            || (websocket.opcode f =? websocket.opcodeBinary)%Z).
  { destruct (websocket.fin f).
    - destruct (_ && _); eexists; reflexivity.
    - apply IH. cbn. lia. }
  destruct (websocket.opcode f =? websocket.opcodeContinuation)%Z.
  { destruct (negb _); [eexists; reflexivity|].
    destruct (websocket.fin f).
    - destruct (_ && _); eexists; reflexivity.
    - apply IH. cbn. lia. }
  apply IH. cbn. lia.
Qed.

(** [Read] always returns. *)
Lemma Read_returns (c : websocket.Conn) : exists out, websocket.Read c = Some out.
Proof.
  unfold websocket.Read. destruct (websocket.closed c); [eexists; reflexivity|].
  apply Read_loop_returns. lia.
Qed.

(** The invariant [once_closed] holds of a new connection and is kept by
    the operations of a connection. *)
Lemma once_closed_newConn n r w s : once_closed (websocket.newConn n r w s).
Proof. unfold once_closed. discriminate. Qed.

Lemma once_closed_CloseWithCode (c : websocket.Conn) code reason :
  once_closed c -> once_closed (fst (websocket.CloseWithCode c code reason)).
Proof.
  intros H. unfold websocket.CloseWithCode.
  destruct (websocket.closeOnce c) eqn:E; [exact H|].
  destruct (_ && _); [intros _; reflexivity|].
  destruct (websocket.writeFrame _ _) as [w [e|]]; [intros _; reflexivity|].
  cbn. destruct (websocket.conn c); intros _; reflexivity.
Qed.

Lemma once_closed_handleCloseFrame (c : websocket.Conn) payload :
  once_closed (websocket.handleCloseFrame c payload).
Proof.
  unfold websocket.handleCloseFrame.
  apply once_closed_CloseWithCode. intros _. reflexivity.
Qed.

Lemma once_closed_Write (c : websocket.Conn) mt data :
  once_closed c -> once_closed (fst (websocket.Write c mt data)).
Proof.
  intros H. unfold websocket.Write.
  destruct (websocket.closed c); [exact H|].
  destruct (mt =? websocket.TextMessage)%Z.
  - destruct (negb _); [exact H|]. now destruct (websocket.writeFrame _ _).
  - destruct (mt =? websocket.BinaryMessage)%Z; [|exact H].
    now destruct (websocket.writeFrame _ _).
Qed.

Lemma once_closed_Pong (c : websocket.Conn) data :
  once_closed c -> once_closed (fst (websocket.Pong c data)).
Proof.
  intros H. unfold websocket.Pong.
  destruct (websocket.closed c); [exact H|].
  destruct (125 <? List.length data)%nat; [exact H|].
  now destruct (websocket.writeFrame _ _).
Qed.

Lemma once_closed_Read_loop (fuel : nat) (c : websocket.Conn) c' out :
  once_closed c -> websocket.Read_loop fuel c = Some (c', out) -> once_closed c'.
Proof.
  revert c. induction fuel as [|fuel IH]; intros c H; [discriminate|].
  cbn [websocket.Read_loop].
  destruct (websocket.readFrame (websocket.reader c)) as [[f|e] r] eqn:E;
    [|intros [= <- _]; exact H].
  assert (Hr : once_closed (websocket.set_reader c r)) by exact H.
  destruct (websocket.opcode f =? websocket.opcodePing)%Z.
  { pose proof (once_closed_Pong _ (websocket.payload f) Hr) as Hp.
    destruct (websocket.Pong (websocket.set_reader c r) (websocket.payload f))
      as [c1 [e|]].
    - intros [= <- _]. exact Hp.
    - apply IH. exact Hp. }
  destruct (websocket.opcode f =? websocket.opcodePong)%Z; [now apply IH|].
  destruct (websocket.opcode f =? websocket.opcodeClose)%Z.
  { intros [= <- _]. apply once_closed_handleCloseFrame. }
  destruct ((websocket.opcode f =? websocket.opcodeText)%Z
            || (websocket.opcode f =? websocket.opcodeBinary)%Z).
  { destruct (websocket.fin f).
    - destruct (_ && _); intros [= <- _];
        [now apply once_closed_CloseWithCode | exact Hr].
    - apply IH. exact H. }
  destruct (websocket.opcode f =? websocket.opcodeContinuation)%Z; [|now apply IH].
  destruct (negb _).
  { intros [= <- _]. now apply once_closed_CloseWithCode. }
  destruct (websocket.fin f).
  - destruct (_ && _); intros [= <- _];
      [apply once_closed_CloseWithCode|]; exact H.
  - apply IH. exact H.
Qed.

(** ** More on the frame codec *)

(** X1: masking is an involution that keeps the length.  Applying
    [applyMask] twice with the same key gives the data back, whatever the
    data and the key. *)
Theorem X1_applyMask_involution (data : list Z) (key : websocket.mask4) :
  websocket.applyMask (websocket.applyMask data key) key = data
  /\ List.length (websocket.applyMask data key) = List.length data.
Proof.
  split; [apply applyMask_twice | apply applyMask_length].
Qed.

Lemma land_7F_nonneg (x : Z) : (0 <= Z.land x 0x7F)%Z.
Proof. apply Z.land_nonneg. right. lia. Qed.

(** The checks of [readFrame] make the frame that it returns valid. *)
Lemma readFrame_valid (r : list Z) (f : websocket.frame) (r' : list Z) :
  websocket.readFrame r = (Ok f, r') -> valid_frame f = true.
Proof.
  unfold websocket.readFrame.
  destruct (websocket.ReadFull r 2) as [[header|e] r1] eqn:E1; [|discriminate].
  cbv zeta.
  set (h0 := nth 0 header 0%Z). set (h1 := nth 1 header 0%Z).
  destruct (negb (websocket.isValidOpcode (Z.land h0 15))) eqn:Hop; [discriminate|].
  destruct (negb (Z.land h0 64 =? 0)%Z || negb (Z.land h0 32 =? 0)%Z
            || negb (Z.land h0 16 =? 0)%Z) eqn:Hrsv; [discriminate|].
  destruct (websocket.isControlFrame (Z.land h0 15)
            && negb (negb (Z.land h0 128 =? 0)%Z)) eqn:Hcf; [discriminate|].
  apply negb_false_iff in Hop.
  apply orb_false_iff in Hrsv as [Hrsv Hr3]. apply orb_false_iff in Hrsv as [Hr1 Hr2].
  (* the payload length that was decoded *)
  assert (Hlen : forall (n : Z) (r2 : list Z),
    ((if websocket.isControlFrame (Z.land h0 15) && (websocket.maxControlPayload <? n)%Z
      then (Err ErrControlTooLarge, r2)
      else if (websocket.maxFramePayload <? n)%Z then (Err ErrFrameTooLarge, r2)
      else
        match
          (if negb (Z.land h1 128 =? 0)%Z
           then match websocket.ReadFull r2 4 with
                | (Err e, r3) => (Err e, r3)
                | (Ok k, r3) =>
                  (Ok (nth 0 k 0%Z, nth 1 k 0%Z, nth 2 k 0%Z, nth 3 k 0%Z), r3)
                end
           else (Ok websocket.zero_mask, r2))
        with
        | (Err e, r3) => (Err e, r3)
        | (Ok f_mask, r3) =>
          match
            (if (0 <? n)%Z
             then match websocket.ReadFull r3 (Z.to_nat n) with
                  | (Err e, r4) => (Err e, r4)
                  | (Ok p, r4) =>
                    (Ok (if negb (Z.land h1 128 =? 0)%Z
                         then websocket.applyMask p f_mask else p), r4)
                  end
             else (Ok [], r3))
          with
          | (Err e, r4) => (Err e, r4)
          | (Ok f_payload, r4) =>
            if ((Z.land h0 15 =? websocket.opcodeText)%Z
                && negb (utf8.Valid f_payload))
            then (Err ErrInvalidUTF8, r4)
            else (Ok (websocket.mkFrame (negb (Z.land h0 128 =? 0)%Z)
                        (negb (Z.land h0 64 =? 0)%Z) (negb (Z.land h0 32 =? 0)%Z)
                        (negb (Z.land h0 16 =? 0)%Z) (Z.land h0 15)
                        (negb (Z.land h1 128 =? 0)%Z) f_mask f_payload), r4)
          end
        end) = (Ok f, r') -> valid_frame f = true)).
  { intros n r2.
    destruct (websocket.isControlFrame (Z.land h0 15)
              && (websocket.maxControlPayload <? n)%Z) eqn:Hcl; [discriminate|].
    destruct (websocket.maxFramePayload <? n)%Z eqn:Hmax; [discriminate|].
    apply Z.ltb_ge in Hmax.
    set (mk := negb (Z.land h1 128 =? 0)%Z).
    assert (Hbody : forall (key : websocket.mask4) (p : list Z) (r4 : list Z),
      Z.of_nat (List.length p) = (if (0 <? n)%Z then n else 0)%Z ->
      (if ((Z.land h0 15 =? websocket.opcodeText)%Z && negb (utf8.Valid p))
       then (Err ErrInvalidUTF8, r4)
       else (Ok (websocket.mkFrame (negb (Z.land h0 128 =? 0)%Z)
                   (negb (Z.land h0 64 =? 0)%Z) (negb (Z.land h0 32 =? 0)%Z)
                   (negb (Z.land h0 16 =? 0)%Z) (Z.land h0 15) mk key p), r4))
      = (Ok f, r') -> valid_frame f = true).
    { intros key p r4 Hp.
      destruct ((Z.land h0 15 =? websocket.opcodeText)%Z && negb (utf8.Valid p))
        eqn:Htxt; [discriminate|].
      intros [= <- _]. unfold valid_frame.
      cbn [websocket.fin websocket.rsv1 websocket.rsv2 websocket.rsv3
           websocket.opcode websocket.masked websocket.mask websocket.payload].
      rewrite Hop, Hr1, Hr2, Hr3. cbn [negb andb].
      assert (Hp' : (Z.of_nat (List.length p) <= Z.max n 0)%Z).
      { destruct (Z.ltb_spec 0 n); lia. }
      unfold websocket.maxFramePayload in Hmax.
      rewrite !andb_true_iff. repeat split.
      - destruct (websocket.isControlFrame (Z.land h0 15)); [|reflexivity].
        cbn [negb orb andb] in *. apply negb_false_iff in Hcf. rewrite Hcf.
        apply Z.ltb_ge in Hcl. unfold websocket.maxControlPayload in *.
        cbn [andb]. apply Z.leb_le. lia.
      - destruct (Z.land h0 15 =? websocket.opcodeText)%Z; [|reflexivity].
        cbn [negb orb andb] in *. now apply negb_false_iff in Htxt.
      - apply Z.leb_le. unfold websocket.maxFramePayload. lia. }
    destruct mk eqn:Emk.
    - destruct (websocket.ReadFull r2 4) as [[k|e] r3]; [|discriminate].
      destruct (0 <? n)%Z eqn:Hpos.
      + destruct (websocket.ReadFull r3 (Z.to_nat n)) as [[p|e] r4] eqn:E4;
          [|discriminate].
        apply Hbody. rewrite applyMask_length.
        unfold websocket.ReadFull in E4.
        destruct (Z.to_nat n <=? List.length r3)%nat eqn:Hle;
          [|destruct r3; discriminate].
        injection E4 as <- _. apply Nat.leb_le in Hle. apply Z.ltb_lt in Hpos.
        rewrite length_firstn. lia.
      + apply Hbody. reflexivity.
    - destruct (0 <? n)%Z eqn:Hpos.
      + destruct (websocket.ReadFull r2 (Z.to_nat n)) as [[p|e] r4] eqn:E4;
          [|discriminate].
        apply Hbody.
        unfold websocket.ReadFull in E4.
        destruct (Z.to_nat n <=? List.length r2)%nat eqn:Hle;
          [|destruct r2; discriminate].
        injection E4 as <- _. apply Nat.leb_le in Hle. apply Z.ltb_lt in Hpos.
        rewrite length_firstn. lia.
      + apply Hbody. reflexivity. }
  destruct (Z.land h1 127 =? websocket.payloadLen16Bit)%Z.
  - destruct (websocket.ReadFull r1 2) as [[buf|e] r2]; [|discriminate].
    apply Hlen.
  - destruct (Z.land h1 127 =? websocket.payloadLen64Bit)%Z.
    + destruct (websocket.ReadFull r1 8) as [[buf|e] r2]; [|discriminate].
      destruct (negb (Z.land (websocket.Uint64 buf) (Z.shiftl 1 63) =? 0)%Z);
        [discriminate|].
      apply Hlen.
    + apply Hlen.
Qed.

(** X2: every frame that [readFrame] returns is a valid frame: its
    opcode is defined, its reserved bits are clear, a control frame is
    final with at most 125 bytes, a text payload is valid UTF-8 and the
    payload is within the limit; and reading it took bytes from the
    reader. *)
Theorem X2_readFrame_sound (r : list Z) (f : websocket.frame) (r' : list Z) :
  websocket.readFrame r = (Ok f, r') ->
  valid_frame f = true /\ (List.length r' < List.length r)%nat.
Proof.
  intros H. split; [exact (readFrame_valid r f r' H) | exact (readFrame_consumes r f r' H)].
Qed.

(** X2 on the three octets 82 01 AA. *)
Lemma X2_readFrame_sound_witness :
  valid_frame one_byte_frame = true /\ (List.length ([] : list Z) < 3)%nat.
Proof.
  apply (X2_readFrame_sound [0x82; 0x01; 0xAA]%Z one_byte_frame []).
  reflexivity.
Defined.

Lemma writable_valid (f : websocket.frame) :
  valid_frame f = true -> writable f = true.
Proof.
  unfold valid_frame, writable. rewrite !andb_true_iff. tauto.
Qed.

(** [writeFrame] hands a frame that passes its checks to the writer. *)
Lemma writeFrame_writable (w : websocket.Writer) (f : websocket.frame) :
  writable f = true ->
  websocket.writeFrame w f = websocket.flush w (websocket.frameBytes f).
Proof.
  unfold writable. rewrite !andb_true_iff.
  intros [[[Hop Hctl] Htxt] Hmax].
  unfold websocket.writeFrame.
  rewrite Hop. cbn [negb].
  apply Z.leb_le in Hmax.
  replace (websocket.maxFramePayload <? Z.of_nat (List.length (websocket.payload f)))%Z
    with false by (symmetry; apply Z.ltb_ge; exact Hmax).
  destruct (websocket.isControlFrame (websocket.opcode f)).
  - cbn [negb orb] in Hctl. apply andb_true_iff in Hctl as [Hfin Hlen].
    rewrite Hfin. apply Z.leb_le in Hlen.
    replace (websocket.maxControlPayload
             <? Z.of_nat (List.length (websocket.payload f)))%Z
      with false by (symmetry; apply Z.ltb_ge; exact Hlen).
    cbn [negb andb].
    destruct (websocket.opcode f =? websocket.opcodeText)%Z; [|reflexivity].
    cbn [negb orb] in Htxt. now rewrite Htxt.
  - cbn [andb].
    destruct (websocket.opcode f =? websocket.opcodeText)%Z; [|reflexivity].
    cbn [negb orb] in Htxt. now rewrite Htxt.
Qed.

Lemma writeFrame_not_writable (w : websocket.Writer) (f : websocket.frame) :
  writable f = false -> exists e, websocket.writeFrame w f = (w, Some e).
Proof.
  unfold writable, websocket.writeFrame.
  destruct (websocket.isValidOpcode (websocket.opcode f)); [|eexists; reflexivity].
  cbn [negb andb].
  destruct (websocket.isControlFrame (websocket.opcode f)
            && negb (websocket.fin f)) eqn:E1; [eexists; reflexivity|].
  destruct (websocket.isControlFrame (websocket.opcode f)
            && (websocket.maxControlPayload
                <? Z.of_nat (List.length (websocket.payload f)))%Z) eqn:E2;
    [eexists; reflexivity|].
  destruct ((websocket.opcode f =? websocket.opcodeText)%Z
            && negb (utf8.Valid (websocket.payload f))) eqn:E3; [eexists; reflexivity|].
  destruct (websocket.maxFramePayload
            <? Z.of_nat (List.length (websocket.payload f)))%Z eqn:E4;
    [eexists; reflexivity|].
  intros H. exfalso.
  apply Z.ltb_ge in E4. apply Z.leb_le in E4. rewrite E4, andb_true_r in H.
  destruct (websocket.isControlFrame (websocket.opcode f)); cbn [negb andb orb] in *.
  - apply negb_false_iff in E1. rewrite E1 in H.
    apply Z.ltb_ge in E2. apply Z.leb_le in E2. rewrite E2 in H.
    cbn [andb] in H.
    destruct (websocket.opcode f =? websocket.opcodeText)%Z; cbn [negb andb orb] in *;
      [|discriminate].
    apply negb_false_iff in E3. rewrite E3 in H. discriminate.
  - destruct (websocket.opcode f =? websocket.opcodeText)%Z; cbn [negb andb orb] in *;
      [|discriminate].
    apply negb_false_iff in E3. rewrite E3 in H. discriminate.
Qed.

(** X3: [writeFrame] returns no error exactly when the opcode is
    defined, a control frame is final with at most 125 bytes, a text
    payload is valid UTF-8, the payload is within the limit and the sink
    accepts the write; then the wire gains the octets of the frame.  The
    checks come before the first write: a frame that fails one of them
    leaves the writer as it was.  The reserved bits are not checked. *)
Theorem X3_writeFrame_accepts (w : websocket.Writer) (f : websocket.frame) :
  (snd (websocket.writeFrame w f) = None
   <-> writable f = true /\ websocket.broken w = false)
  /\ (snd (websocket.writeFrame w f) = None ->
      websocket.wire (fst (websocket.writeFrame w f))
      = websocket.wire w ++ websocket.frameBytes f)
  /\ (writable f = false -> fst (websocket.writeFrame w f) = w).
Proof.
  destruct (writable f) eqn:Hw.
  - rewrite (writeFrame_writable w f Hw). unfold websocket.flush.
    destruct (websocket.broken w); cbn [fst snd websocket.wire].
    + split; [split; [discriminate | intros [_ H]; discriminate H]|].
      split; discriminate.
    + split; [split; [now split | reflexivity]|].
      split; [reflexivity | discriminate].
  - destruct (writeFrame_not_writable w f Hw) as [e He]. rewrite He. cbn [fst snd].
    split; [split; [discriminate | intros [H _]; discriminate H]|].
    split; [discriminate | reflexivity].
Qed.

(** The first two octets of a frame on the wire. *)
Lemma frameBytes_cons (f : websocket.frame) :
  exists h1 tl, websocket.frameBytes f = first_octet f :: h1 :: tl.
Proof.
  unfold websocket.frameBytes, first_octet.
  set (n := Z.of_nat (List.length (websocket.payload f))).
  destruct ((websocket.payloadLen7Bit <? n) && (n <=? 0xFFFF))%Z,
    (0xFFFF <? n)%Z, (websocket.masked f), (0 <? n)%Z;
    cbn [app]; eexists; eexists; reflexivity.
Qed.

(** Decoding a first octet in which a reserved bit is set. *)
Lemma first_octet_reserved (f : websocket.frame) :
  websocket.isValidOpcode (websocket.opcode f) = true ->
  websocket.rsv1 f || websocket.rsv2 f || websocket.rsv3 f = true ->
  websocket.isValidOpcode (Z.land (first_octet f) 0x0F) = true
  /\ negb (Z.land (first_octet f) 0x40 =? 0)%Z
     || negb (Z.land (first_octet f) 0x20 =? 0)%Z
     || negb (Z.land (first_octet f) 0x10 =? 0)%Z = true.
Proof.
  destruct f as [b r1 r2 r3 op m key p]. unfold first_octet.
  cbn [websocket.opcode websocket.rsv1 websocket.rsv2 websocket.rsv3 websocket.fin].
  intros Hop Hr.
  destruct (valid_opcode_cases op Hop) as [->|[->|[->|[->|[->| ->]]]]];
    destruct b, r1, r2, r3; try discriminate Hr; vm_compute; split; reflexivity.
Qed.

(** X4: [writeFrame] writes a frame whose reserved bits are set, and
    [readFrame] refuses the octets that it wrote with the reserved-bits
    error: the two directions do not agree on such frames. *)
Theorem X4_reserved_bits_written_not_read (w : websocket.Writer)
        (f : websocket.frame) (rest : list Z) :
  writable f = true ->
  websocket.broken w = false ->
  websocket.rsv1 f || websocket.rsv2 f || websocket.rsv3 f = true ->
  websocket.writeFrame w f
  = (websocket.mkWriter (websocket.wire w ++ websocket.frameBytes f) false, None)
  /\ exists r', websocket.readFrame (websocket.frameBytes f ++ rest)
               = (Err ErrReservedBits, r').
Proof.
  intros Hw Hb Hr. split.
  - rewrite (writeFrame_writable w f Hw). unfold websocket.flush. now rewrite Hb.
  - destruct (frameBytes_cons f) as (h1 & tl & E). rewrite E.
    unfold writable in Hw. rewrite !andb_true_iff in Hw.
    destruct Hw as [[[Hop _] _] _].
    destruct (first_octet_reserved f Hop Hr) as [H1 H2].
    unfold websocket.readFrame. cbn [app]. rewrite ReadFull_2. cbn [nth]. cbv zeta.
    rewrite H1. cbn [negb]. rewrite H2. eexists. reflexivity.
Qed.

(** X4 on the text frame of the test for reserved bits. *)
Lemma X4_reserved_bits_written_not_read_witness :
  websocket.writeFrame (websocket.mkWriter [] false) rsv_frame
  = (websocket.mkWriter ([] ++ websocket.frameBytes rsv_frame) false, None)
  /\ exists r', websocket.readFrame (websocket.frameBytes rsv_frame ++ [])
               = (Err ErrReservedBits, r').
Proof.
  apply (X4_reserved_bits_written_not_read (websocket.mkWriter [] false) rsv_frame []);
    reflexivity.
Defined.

(** X5: the number of octets of a frame on the wire: two of header, the
    extended length (none up to 125 bytes of payload, two up to 65535,
    eight above), four of key when the mask bit is set, and the
    payload. *)
Theorem X5_frameBytes_length (f : websocket.frame) :
  List.length (websocket.frameBytes f)
  = (2 + ext_size (Z.of_nat (List.length (websocket.payload f)))
     + (if websocket.masked f then 4 else 0)
     + List.length (websocket.payload f))%nat.
Proof.
  unfold websocket.frameBytes, ext_size, websocket.payloadLen7Bit,
    websocket.PutUint16, websocket.PutUint64.
  cbv zeta.
  remember (Z.of_nat (List.length (websocket.payload f))) as n eqn:Hn.
  destruct (n <=? 125)%Z eqn:A, (n <=? 0xFFFF)%Z eqn:B, (125 <? n)%Z eqn:C,
    (0xFFFF <? n)%Z eqn:D, (0 <? n)%Z eqn:E;
    repeat match goal with
    | H : (_ <=? _)%Z = true |- _ => apply Z.leb_le in H
    | H : (_ <=? _)%Z = false |- _ => apply Z.leb_gt in H
    | H : (_ <? _)%Z = true |- _ => apply Z.ltb_lt in H
    | H : (_ <? _)%Z = false |- _ => apply Z.ltb_ge in H
    end; try lia;
    cbn [andb]; destruct (websocket.masked f);
    rewrite ?length_app, ?applyMask_length, ?mask_bytes_length;
    cbn [List.length]; lia.
Qed.

(** X6: the three predicates on opcodes fit together: the data opcodes
    are exactly the defined opcodes that are not control opcodes.  (A
    control opcode need not be defined: 0xB is one.) *)
Theorem X6_opcode_classes (op : Z) :
  websocket.isDataFrame op
  = websocket.isValidOpcode op && negb (websocket.isControlFrame op).
Proof.
  unfold websocket.isDataFrame, websocket.isValidOpcode, websocket.isControlFrame,
    websocket.opcodeContinuation, websocket.opcodeText, websocket.opcodeBinary,
    websocket.opcodeClose, websocket.opcodePing, websocket.opcodePong.
  destruct (Z.eqb_spec op 0) as [->|H0]; [reflexivity|].
  destruct (Z.eqb_spec op 1) as [->|H1]; [reflexivity|].
  destruct (Z.eqb_spec op 2) as [->|H2]; [reflexivity|].
  destruct (Z.eqb_spec op 8) as [->|H8]; [reflexivity|].
  destruct (Z.eqb_spec op 9) as [->|H9]; [reflexivity|].
  destruct (Z.eqb_spec op 10) as [->|H10]; reflexivity.
Qed.

(** ** More on connections *)

Lemma Pong_closed (c : websocket.Conn) (data : list Z) :
  websocket.closed (fst (websocket.Pong c data)) = websocket.closed c.
Proof.
  unfold websocket.Pong.
  destruct (websocket.closed c) eqn:E; [exact E|].
  destruct (125 <? List.length data)%nat; [exact E|].
  destruct (websocket.writeFrame _ _). exact E.
Qed.

(** More fuel does not change what the loop of [Read] returns. *)
Lemma Read_loop_more (fuel : nat) (c : websocket.Conn) out :
  websocket.Read_loop fuel c = Some out ->
  forall fuel', (fuel <= fuel')%nat -> websocket.Read_loop fuel' c = Some out.
Proof.
  revert c. induction fuel as [|fuel IH]; intros c H fuel' Hle; [discriminate|].
  destruct fuel' as [|fuel']; [lia|].
  assert (Hle' : (fuel <= fuel')%nat) by lia.
  revert H. cbn [websocket.Read_loop].
  destruct (websocket.readFrame (websocket.reader c)) as [[f|e] r]; [|exact (fun H => H)].
  destruct (websocket.opcode f =? websocket.opcodePing)%Z.
  { destruct (websocket.Pong (websocket.set_reader c r) (websocket.payload f))
      as [c1 [e|]]; [exact (fun H => H)|].
    intros H. exact (IH _ H _ Hle'). }
  destruct (websocket.opcode f =? websocket.opcodePong)%Z.
  { intros H. exact (IH _ H _ Hle'). }
  destruct (websocket.opcode f =? websocket.opcodeClose)%Z; [exact (fun H => H)|].
  destruct ((websocket.opcode f =? websocket.opcodeText)%Z
            || (websocket.opcode f =? websocket.opcodeBinary)%Z).
  { destruct (websocket.fin f); [exact (fun H => H)|].
    intros H. exact (IH _ H _ Hle'). }
  destruct (websocket.opcode f =? websocket.opcodeContinuation)%Z.
  { destruct (negb _); [exact (fun H => H)|].
    destruct (websocket.fin f); [exact (fun H => H)|].
    intros H. exact (IH _ H _ Hle'). }
  intros H. exact (IH _ H _ Hle').
Qed.

(** On an open connection the loop with enough fuel is [Read]. *)
Lemma Read_loop_Read (fuel : nat) (c : websocket.Conn) :
  websocket.closed c = false ->
  (List.length (websocket.reader c) < fuel)%nat ->
  websocket.Read_loop fuel c = websocket.Read c.
Proof.
  intros Hc Hf. unfold websocket.Read. rewrite Hc.
  destruct (Read_loop_returns (S (List.length (websocket.reader c))) c) as [out Ho];
    [lia|].
  rewrite Ho. apply (Read_loop_more _ _ _ Ho). lia.
Qed.

(** The equation of the loop: what [Read] does with the next frame on
    an open connection. *)
Lemma Read_unfold (c : websocket.Conn) :
  websocket.closed c = false ->
  websocket.Read c
  = match websocket.readFrame (websocket.reader c) with
    | (Err e, r) => Some (websocket.set_reader c r, Err e)
    | (Ok f, r) =>
      let c := websocket.set_reader c r in
      if (websocket.opcode f =? websocket.opcodePing)%Z then
        match websocket.Pong c (websocket.payload f) with
        | (c', Some e) => Some (c', Err e)
        | (c', None) => websocket.Read c'
        end
      else if (websocket.opcode f =? websocket.opcodePong)%Z then websocket.Read c
      else if (websocket.opcode f =? websocket.opcodeClose)%Z then
        Some (websocket.handleCloseFrame c (websocket.payload f), Err ErrClosed)
      else if (websocket.opcode f =? websocket.opcodeText)%Z
              || (websocket.opcode f =? websocket.opcodeBinary)%Z then
        if websocket.fin f then
          if (websocket.opcode f =? websocket.TextMessage)%Z
             && negb (utf8.Valid (websocket.payload f)) then
            Some (fst (websocket.CloseWithCode c websocket.CloseInvalidFramePayloadData
                         "invalid UTF-8"),
                  Err ErrInvalidUTF8)
          else Some (c, Ok (websocket.opcode f, websocket.payload f))
        else
          websocket.Read
            (websocket.set_fragment c (websocket.payload f) (websocket.opcode f) true)
      else if (websocket.opcode f =? websocket.opcodeContinuation)%Z then
        if negb (websocket.inFragment c) then
          Some (fst (websocket.CloseWithCode c websocket.CloseProtocolError
                       "unexpected continuation"),
                Err ErrUnexpectedContinuation)
        else
          let c := websocket.set_fragment c
                     (websocket.fragmentBuf c ++ websocket.payload f)
                     (websocket.fragmentType c) (websocket.inFragment c) in
          if websocket.fin f then
            let c := websocket.set_fragment c (websocket.fragmentBuf c)
                       (websocket.fragmentType c) false in
            if (websocket.fragmentType c =? websocket.TextMessage)%Z
               && negb (utf8.Valid (websocket.fragmentBuf c)) then
              Some (fst (websocket.CloseWithCode c
                           websocket.CloseInvalidFramePayloadData "invalid UTF-8"),
                    Err ErrInvalidUTF8)
            else Some (c, Ok (websocket.fragmentType c, websocket.fragmentBuf c))
          else websocket.Read c
      else websocket.Read c
    end.
Proof.
  intros Hc. unfold websocket.Read at 1. rewrite Hc.
  cbn [websocket.Read_loop].
  destruct (websocket.readFrame (websocket.reader c)) as [[f|e] r] eqn:E; [|reflexivity].
  apply readFrame_consumes in E. cbv zeta.
  destruct (websocket.opcode f =? websocket.opcodePing)%Z.
  { pose proof (Pong_reader (websocket.set_reader c r) (websocket.payload f)) as Hr.
    pose proof (Pong_closed (websocket.set_reader c r) (websocket.payload f)) as Hcl.
    destruct (websocket.Pong (websocket.set_reader c r) (websocket.payload f))
      as [c1 [e|]]; [reflexivity|].
    cbn [fst] in Hr, Hcl. apply Read_loop_Read.
    - rewrite Hcl. exact Hc.
    - rewrite Hr. cbn. lia. }
  destruct (websocket.opcode f =? websocket.opcodePong)%Z.
  { apply Read_loop_Read; [exact Hc | cbn; lia]. }
  destruct (websocket.opcode f =? websocket.opcodeClose)%Z; [reflexivity|].
  destruct ((websocket.opcode f =? websocket.opcodeText)%Z
            || (websocket.opcode f =? websocket.opcodeBinary)%Z).
  { destruct (websocket.fin f); [reflexivity|].
    apply Read_loop_Read; [exact Hc | cbn; lia]. }
  destruct (websocket.opcode f =? websocket.opcodeContinuation)%Z.
  { destruct (negb _); [reflexivity|].
    destruct (websocket.fin f); [reflexivity|].
    apply Read_loop_Read; [exact Hc | cbn; lia]. }
  apply Read_loop_Read; [exact Hc | cbn; lia].
Qed.

Lemma CloseWithCode_closed (c : websocket.Conn) code reason :
  once_closed c ->
  websocket.closed (fst (websocket.CloseWithCode c code reason)) = true
  /\ websocket.closeOnce (fst (websocket.CloseWithCode c code reason)) = true.
Proof.
  intros H. unfold websocket.CloseWithCode.
  destruct (websocket.closeOnce c) eqn:E; [split; [exact (H E) | exact E]|].
  destruct (_ && _); [split; reflexivity|].
  destruct (websocket.writeFrame _ _) as [w [e|]]; [split; reflexivity|].
  cbn. destruct (websocket.conn c); split; reflexivity.
Qed.

(** X7: once [CloseWithCode] has run, the connection refuses every
    operation with [ErrClosed] and without any effect, and closing again
    returns nil without any effect. *)
Theorem X7_closed_rejects (c : websocket.Conn) (code : websocket.CloseCode)
        (reason : string) (mt : websocket.MessageType) (data : list Z) :
  once_closed c ->
  let c' := fst (websocket.CloseWithCode c code reason) in
  websocket.Read c' = Some (c', Err ErrClosed)
  /\ websocket.ReadText c' = Some (c', Err ErrClosed)
  /\ websocket.Write c' mt data = (c', Some ErrClosed)
  /\ websocket.Ping c' data = (c', Some ErrClosed)
  /\ websocket.Pong c' data = (c', Some ErrClosed)
  /\ websocket.CloseWithCode c' code reason = (c', None)
  /\ websocket.IsCloseError (Some ErrClosed) = true.
Proof.
  intros H c'. destruct (CloseWithCode_closed c code reason H) as [Hc Ho].
  fold c' in Hc, Ho.
  unfold websocket.ReadText, websocket.Read, websocket.Write, websocket.Ping,
    websocket.Pong, websocket.CloseWithCode.
  rewrite Hc, Ho. repeat split; reflexivity.
Qed.

(** X7 on a fresh server-side connection closed with code 1000. *)
Lemma X7_closed_rejects_witness :
  let c' := fst (websocket.CloseWithCode (server_conn []) websocket.CloseNormalClosure
                   "bye") in
  websocket.Read c' = Some (c', Err ErrClosed)
  /\ websocket.ReadText c' = Some (c', Err ErrClosed)
  /\ websocket.Write c' websocket.TextMessage hello = (c', Some ErrClosed)
  /\ websocket.Ping c' hello = (c', Some ErrClosed)
  /\ websocket.Pong c' hello = (c', Some ErrClosed)
  /\ websocket.CloseWithCode c' websocket.CloseNormalClosure "bye" = (c', None)
  /\ websocket.IsCloseError (Some ErrClosed) = true.
Proof.
  apply (X7_closed_rejects (server_conn []) websocket.CloseNormalClosure "bye"
           websocket.TextMessage hello).
  unfold once_closed. simpl. discriminate.
Defined.

(** A control frame that [readFrame] returned can be sent back. *)
Lemma writable_control_echo (c : websocket.Conn) (op : Z) (f : websocket.frame) :
  valid_frame f = true ->
  websocket.isControlFrame (websocket.opcode f) = true ->
  websocket.isValidOpcode op = true ->
  (op =? websocket.opcodeText)%Z = false ->
  writable (websocket.outFrame c op (websocket.payload f)) = true
  /\ (125 <? List.length (websocket.payload f))%nat = false.
Proof.
  intros Hv Hctl Hop Htxt. unfold valid_frame in Hv.
  rewrite !andb_true_iff in Hv.
  destruct Hv as [[[[[[_ Hc] _] _] _] _] Hmax].
  rewrite Hctl in Hc. cbn [negb orb] in Hc. apply andb_true_iff in Hc as [_ Hlen].
  split.
  - unfold writable, websocket.outFrame.
    cbn [websocket.opcode websocket.fin websocket.payload].
    rewrite Hop, Hlen, Hmax, Htxt. cbn [negb andb orb].
    now rewrite orb_true_r.
  - apply Nat.ltb_ge. apply Z.leb_le in Hlen. unfold websocket.maxControlPayload in Hlen.
    lia.
Qed.

(** X8: [Read] answers a ping with a pong that carries the payload of
    the ping, and goes on reading; when the pong cannot be written, [Read]
    returns the error of the write. *)
Theorem X8_ping_answered (c : websocket.Conn) (f : websocket.frame) (r : list Z) :
  websocket.closed c = false ->
  websocket.readFrame (websocket.reader c) = (Ok f, r) ->
  websocket.opcode f = websocket.opcodePing ->
  websocket.Read c
  = if websocket.broken (websocket.writer c)
    then Some (websocket.set_reader c r, Err (ErrIO ErrWriteFailed))
    else websocket.Read
           (websocket.set_writer (websocket.set_reader c r)
              (websocket.mkWriter
                 (websocket.wire (websocket.writer c)
                  ++ websocket.frameBytes
                       (websocket.outFrame c websocket.opcodePong (websocket.payload f)))
                 false)).
Proof.
  intros Hc E Hop. rewrite (Read_unfold c Hc), E. cbv zeta.
  rewrite Hop. change (websocket.opcodePing =? websocket.opcodePing)%Z with true.
  cbv iota.
  apply readFrame_valid in E.
  destruct (writable_control_echo (websocket.set_reader c r) websocket.opcodePong f E)
    as [Hw Hl]; [rewrite Hop; reflexivity | reflexivity | reflexivity |].
  unfold websocket.Pong.
  replace (websocket.closed (websocket.set_reader c r)) with false by (symmetry; exact Hc).
  rewrite Hl, (writeFrame_writable _ _ Hw).
  unfold websocket.flush. cbn [websocket.writer websocket.set_reader].
  destruct (websocket.broken (websocket.writer c)) eqn:Hb; [|reflexivity].
  destruct c; reflexivity.
Qed.

(** X8 on a server-side connection that receives a masked ping. *)
Lemma X8_ping_answered_witness :
  websocket.Read (server_conn (websocket.frameBytes ping_hello))
  = websocket.Read
      (websocket.set_writer (websocket.set_reader
                               (server_conn (websocket.frameBytes ping_hello)) [])
         (websocket.mkWriter
            ([] ++ websocket.frameBytes
                     (websocket.outFrame (server_conn (websocket.frameBytes ping_hello))
                        websocket.opcodePong hello))
            false)).
Proof.
  exact (X8_ping_answered (server_conn (websocket.frameBytes ping_hello))
           ping_hello [] eq_refl eq_refl eq_refl).
Defined.

(** X9: [Read] drops a pong and goes on reading; nothing is written
    and the state of a fragmented message is kept. *)
Theorem X9_pong_dropped (c : websocket.Conn) (f : websocket.frame) (r : list Z) :
  websocket.closed c = false ->
  websocket.readFrame (websocket.reader c) = (Ok f, r) ->
  websocket.opcode f = websocket.opcodePong ->
  websocket.Read c = websocket.Read (websocket.set_reader c r).
Proof.
  intros Hc E Hop. rewrite (Read_unfold c Hc), E. cbv zeta.
  rewrite Hop. reflexivity.
Qed.

Lemma X9_pong_dropped_witness :
  websocket.Read (server_conn (websocket.frameBytes pong_hello))
  = websocket.Read (websocket.set_reader
                      (server_conn (websocket.frameBytes pong_hello)) []).
Proof.
  exact (X9_pong_dropped (server_conn (websocket.frameBytes pong_hello))
           pong_hello [] eq_refl eq_refl eq_refl).
Defined.

Lemma data_opcode_cases (op : Z) :
  websocket.isDataFrame op = true ->
  op = websocket.opcodeContinuation \/ op = websocket.opcodeText
  \/ op = websocket.opcodeBinary.
Proof.
  unfold websocket.isDataFrame. rewrite !orb_true_iff, !Z.eqb_eq. tauto.
Qed.

(** [readFrame] on the octets of a frame of [fragment]. *)
Lemma readFrame_fragment (op : Z) (final m : bool) (key : websocket.mask4)
      (p rest : list Z) :
  websocket.isDataFrame op = true ->
  (op = websocket.opcodeText -> utf8.Valid p = true) ->
  (Z.of_nat (List.length p) <= websocket.maxFramePayload)%Z ->
  websocket.readFrame (websocket.frameBytes (fragment op final m key p) ++ rest)
  = (Ok (fragment op final m (if m then key else websocket.zero_mask) p), rest).
Proof.
  intros Hd Ht Hl. unfold fragment. apply readFrame_frameBytes.
  - destruct (data_opcode_cases op Hd) as [->|[->| ->]]; reflexivity.
  - destruct (data_opcode_cases op Hd) as [->|[->| ->]]; discriminate.
  - exact Ht.
  - exact Hl.
Qed.

(** The continuation frames of a message, read one after the other. *)
Lemma continuations_Read (m : bool) (key : websocket.mask4) (ps : list (list Z)) :
  forall (p rest : list Z) (c : websocket.Conn),
  websocket.closed c = false ->
  websocket.inFragment c = true ->
  Forall (fun q => (Z.of_nat (List.length q) <= websocket.maxFramePayload)%Z) (p :: ps) ->
  websocket.reader c = continuations m key p ps ++ rest ->
  (websocket.fragmentType c =? websocket.TextMessage)%Z
  && negb (utf8.Valid (websocket.fragmentBuf c ++ p ++ concat ps)) = false ->
  websocket.Read c
  = Some (websocket.set_fragment (websocket.set_reader c rest)
            (websocket.fragmentBuf c ++ p ++ concat ps) (websocket.fragmentType c) false,
          Ok (websocket.fragmentType c, websocket.fragmentBuf c ++ p ++ concat ps)).
Proof.
  induction ps as [|q ps IH]; intros p rest c Hc Hin Hall Hr Hv.
  - rewrite (Read_unfold c Hc), Hr. cbn [continuations].
    inversion Hall as [|? ? Hp _]; subst.
    rewrite readFrame_fragment; [|reflexivity|discriminate|exact Hp].
    cbv zeta. unfold fragment.
    cbn [websocket.opcode websocket.fin websocket.payload].
    change (websocket.opcodeContinuation =? websocket.opcodePing)%Z with false.
    change (websocket.opcodeContinuation =? websocket.opcodePong)%Z with false.
    change (websocket.opcodeContinuation =? websocket.opcodeClose)%Z with false.
    change (websocket.opcodeContinuation =? websocket.opcodeText)%Z with false.
    change (websocket.opcodeContinuation =? websocket.opcodeBinary)%Z with false.
    change (websocket.opcodeContinuation =? websocket.opcodeContinuation)%Z with true.
    cbn [orb]. cbv iota.
    cbn [websocket.inFragment websocket.set_reader websocket.set_fragment
         websocket.fragmentBuf websocket.fragmentType].
    rewrite Hin. cbn [negb]. cbv iota.
    cbn [concat] in Hv. rewrite app_nil_r in Hv. rewrite Hv.
    cbn [concat]. rewrite app_nil_r. reflexivity.
  - rewrite (Read_unfold c Hc), Hr. cbn [continuations]. rewrite <- app_assoc.
    inversion Hall as [|? ? Hp Hall']; subst.
    rewrite readFrame_fragment; [|reflexivity|discriminate|exact Hp].
    cbv zeta. unfold fragment at 1 2 3 4 5 6 7 8 9 10.
    cbn [websocket.opcode websocket.fin websocket.payload].
    change (websocket.opcodeContinuation =? websocket.opcodePing)%Z with false.
    change (websocket.opcodeContinuation =? websocket.opcodePong)%Z with false.
    change (websocket.opcodeContinuation =? websocket.opcodeClose)%Z with false.
    change (websocket.opcodeContinuation =? websocket.opcodeText)%Z with false.
    change (websocket.opcodeContinuation =? websocket.opcodeBinary)%Z with false.
    change (websocket.opcodeContinuation =? websocket.opcodeContinuation)%Z with true.
    cbn [orb]. cbv iota.
    cbn [websocket.inFragment websocket.set_reader websocket.set_fragment
         websocket.fragmentBuf websocket.fragmentType].
    rewrite Hin. cbn [negb]. cbv iota.
    rewrite (IH q rest); [| exact Hc | reflexivity | exact Hall' | reflexivity |].
    + unfold fragment.
      cbn [websocket.set_reader websocket.set_fragment websocket.fragmentBuf
           websocket.fragmentType websocket.conn websocket.reader websocket.writer
           websocket.isServer websocket.closeOnce websocket.closed
           websocket.inFragment websocket.payload concat].
      rewrite <- !app_assoc. reflexivity.
    + unfold fragment.
      cbn [websocket.fragmentBuf websocket.fragmentType websocket.set_fragment
           websocket.payload concat] in *.
      rewrite <- !app_assoc. exact Hv.
Qed.

(** X10: a fragmented data message is reassembled.  A first frame with
    a data opcode and [fin] clear, then continuation frames of which the
    last is final, give the message of that type whose payload is the
    payloads in order; of a text message the first payload and the whole
    must be valid UTF-8.  What the connection had buffered before is
    dropped, and the mask bit is not compared with the role. *)
Theorem X10_fragments_reassembled (c : websocket.Conn) (op : Z) (m : bool)
        (key : websocket.mask4) (p0 p : list Z) (ps : list (list Z)) (rest : list Z) :
  websocket.closed c = false ->
  op = websocket.opcodeText \/ op = websocket.opcodeBinary ->
  Forall (fun q => (Z.of_nat (List.length q) <= websocket.maxFramePayload)%Z)
         (p0 :: p :: ps) ->
  (op = websocket.opcodeText ->
   utf8.Valid p0 = true /\ utf8.Valid (p0 ++ p ++ concat ps) = true) ->
  websocket.reader c
  = websocket.frameBytes (fragment op false m key p0)
    ++ continuations m key p ps ++ rest ->
  websocket.Read c
  = Some (websocket.set_fragment (websocket.set_reader c rest)
            (p0 ++ p ++ concat ps) op false,
          Ok (op, p0 ++ p ++ concat ps)).
Proof.
  intros Hc Hop Hall Hv Hr.
  inversion Hall as [|? ? Hp0 Hall']; subst.
  rewrite (Read_unfold c Hc), Hr.
  rewrite readFrame_fragment;
    [| destruct Hop as [->| ->]; reflexivity | intros H; now apply Hv | exact Hp0].
  cbv zeta. unfold fragment at 1 2 3 4 5 6 7 8 9 10.
  cbn [websocket.opcode websocket.fin websocket.payload].
  replace (op =? websocket.opcodePing)%Z with false
    by (destruct Hop as [->| ->]; reflexivity).
  replace (op =? websocket.opcodePong)%Z with false
    by (destruct Hop as [->| ->]; reflexivity).
  replace (op =? websocket.opcodeClose)%Z with false
    by (destruct Hop as [->| ->]; reflexivity).
  replace ((op =? websocket.opcodeText)%Z || (op =? websocket.opcodeBinary)%Z)
    with true by (destruct Hop as [->| ->]; reflexivity).
  cbv iota.
  rewrite (continuations_Read m key ps p rest);
    [| exact Hc | reflexivity | exact Hall' | reflexivity |].
  - unfold fragment. reflexivity.
  - unfold fragment.
    cbn [websocket.fragmentBuf websocket.fragmentType websocket.set_fragment
         websocket.payload websocket.opcode].
    destruct Hop as [->| ->]; [|reflexivity].
    destruct (Hv eq_refl) as [_ H]. rewrite H. reflexivity.
Qed.

(** X10 on a text message in three masked frames. *)
Lemma X10_fragments_reassembled_witness :
  websocket.Read (server_conn split_euro_wire)
  = Some (websocket.set_fragment (websocket.set_reader (server_conn split_euro_wire) [])
            ([0x41] ++ [0xE2; 0x82] ++ concat [[0xAC]])%Z websocket.opcodeText false,
          Ok (websocket.opcodeText, [0x41] ++ [0xE2; 0x82] ++ concat [[0xAC]])%Z).
Proof.
  apply (X10_fragments_reassembled (server_conn split_euro_wire) websocket.opcodeText
           true websocket.constMask [0x41]%Z [0xE2; 0x82]%Z [[0xAC]%Z] []).
  - reflexivity.
  - left. reflexivity.
  - repeat constructor; unfold websocket.maxFramePayload; simpl; lia.
  - intros _. split; reflexivity.
  - reflexivity.
Defined.

(** What [CloseWithCode] does on a connection that was not closed
    before, when the frame can be written. *)
Lemma CloseWithCode_sends (c : websocket.Conn) (code : websocket.CloseCode)
      (reason : string) :
  websocket.closeOnce c = false ->
  websocket.broken (websocket.writer c) = false ->
  negb (String.eqb reason "") && negb (ValidString reason) = false ->
  (Z.of_nat (List.length (websocket.closePayload code reason))
   <= websocket.maxControlPayload)%Z ->
  websocket.CloseWithCode c code reason
  = (websocket.mkConn
       (match websocket.conn c with
        | Some _ => Some (websocket.mkNetConn true)
        | None => None
        end)
       (websocket.reader c)
       (websocket.mkWriter
          (websocket.wire (websocket.writer c)
           ++ websocket.frameBytes
                (websocket.outFrame c websocket.opcodeClose
                   (websocket.closePayload code reason)))
          false)
       (websocket.isServer c) true true (websocket.fragmentBuf c)
       (websocket.fragmentType c) (websocket.inFragment c),
     None).
Proof.
  intros Ho Hb Hr Hl. unfold websocket.CloseWithCode.
  rewrite Ho, Hr. cbv zeta.
  assert (Hw : writable (websocket.outFrame
                           (websocket.set_closed (websocket.set_closeOnce c true) true)
                           websocket.opcodeClose (websocket.closePayload code reason))
               = true).
  { unfold writable, websocket.outFrame.
    cbn [websocket.opcode websocket.fin websocket.payload].
    apply Z.leb_le in Hl. rewrite Hl.
    change (websocket.isValidOpcode websocket.opcodeClose) with true.
    change (websocket.isControlFrame websocket.opcodeClose) with true.
    change (websocket.opcodeClose =? websocket.opcodeText)%Z with false.
    cbn [negb andb orb]. apply Z.leb_le. apply Z.leb_le in Hl.
    unfold websocket.maxControlPayload, websocket.maxFramePayload in *. lia. }
  rewrite (writeFrame_writable _ _ Hw). unfold websocket.flush.
  cbn [websocket.writer websocket.set_closed websocket.set_closeOnce].
  rewrite Hb.
  destruct c as [[n|] rd wr sv co cl fb ft inf]; reflexivity.
Qed.

(** X11: a continuation frame that continues nothing makes [Read] fail
    with [ErrUnexpectedContinuation]; the connection is latched closed,
    and when it was not closed before, a close frame with status 1002 and
    the reason [unexpected continuation] is sent and the underlying
    connection is closed. *)
Theorem X11_unexpected_continuation (c : websocket.Conn) (f : websocket.frame)
        (r : list Z) :
  websocket.closed c = false ->
  websocket.closeOnce c = false ->
  websocket.broken (websocket.writer c) = false ->
  websocket.inFragment c = false ->
  websocket.readFrame (websocket.reader c) = (Ok f, r) ->
  websocket.opcode f = websocket.opcodeContinuation ->
  exists c',
    websocket.Read c = Some (c', Err ErrUnexpectedContinuation)
    /\ websocket.closed c' = true
    /\ websocket.reader c' = r
    /\ websocket.wire (websocket.writer c')
       = websocket.wire (websocket.writer c)
         ++ websocket.frameBytes
              (websocket.outFrame c websocket.opcodeClose
                 (websocket.closePayload websocket.CloseProtocolError
                    "unexpected continuation"))
    /\ websocket.conn c'
       = match websocket.conn c with
         | Some _ => Some (websocket.mkNetConn true)
         | None => None
         end.
Proof.
  intros Hc Ho Hb Hin E Hop.
  rewrite (Read_unfold c Hc), E. cbv zeta. rewrite Hop.
  change (websocket.opcodeContinuation =? websocket.opcodePing)%Z with false.
  change (websocket.opcodeContinuation =? websocket.opcodePong)%Z with false.
  change (websocket.opcodeContinuation =? websocket.opcodeClose)%Z with false.
  change (websocket.opcodeContinuation =? websocket.opcodeText)%Z with false.
  change (websocket.opcodeContinuation =? websocket.opcodeBinary)%Z with false.
  change (websocket.opcodeContinuation =? websocket.opcodeContinuation)%Z with true.
  cbn [orb]. cbv iota.
  replace (websocket.inFragment (websocket.set_reader c r)) with false
    by (symmetry; exact Hin).
  cbn [negb]. cbv iota.
  rewrite CloseWithCode_sends; [| exact Ho | exact Hb | reflexivity | vm_compute; discriminate].
  eexists. split; [reflexivity|]. cbn [fst].
  repeat split.
Qed.

Lemma X11_unexpected_continuation_witness :
  exists c',
    websocket.Read (server_conn (websocket.frameBytes stray_continuation))
    = Some (c', Err ErrUnexpectedContinuation)
    /\ websocket.closed c' = true
    /\ websocket.reader c' = []
    /\ websocket.wire (websocket.writer c')
       = websocket.wire
           (websocket.writer (server_conn (websocket.frameBytes stray_continuation)))
         ++ websocket.frameBytes
              (websocket.outFrame (server_conn (websocket.frameBytes stray_continuation))
                 websocket.opcodeClose
                 (websocket.closePayload websocket.CloseProtocolError
                    "unexpected continuation"))
    /\ websocket.conn c'
       = match websocket.conn (server_conn (websocket.frameBytes stray_continuation)) with
         | Some _ => Some (websocket.mkNetConn true)
         | None => None
         end.
Proof.
  apply (X11_unexpected_continuation
           (server_conn (websocket.frameBytes stray_continuation)) stray_continuation []);
    reflexivity.
Defined.

Lemma closePayload_echo (b0 b1 : Z) :
  is_byte b0 -> is_byte b1 ->
  websocket.closePayload (Z.lor (Z.shiftl b0 8) b1) "" = [b0; b1].
Proof.
  unfold is_byte, websocket.closePayload. intros H0 H1.
  rewrite lor_shiftl by lia.
  rewrite byte_of_shiftr, !low_byte by lia.
  change (2 ^ 8)%Z with 256%Z. cbn [bytes_of_string app].
  f_equal; [|f_equal]; [|rewrite Z.mod_mod by lia]; Z.div_mod_to_equations; lia.
Qed.

(** X12: a close frame that carries a status code makes [Read] return
    [ErrClosed], which [IsCloseError] recognises; the connection is
    latched closed and, when it was not closed before, answers with a close
    frame that carries the status code received and no reason, then closes
    the underlying connection. *)
Theorem X12_close_echoed (c : websocket.Conn) (f : websocket.frame) (r : list Z)
        (b0 b1 : Z) (reason : list Z) :
  websocket.closed c = false ->
  websocket.closeOnce c = false ->
  websocket.broken (websocket.writer c) = false ->
  websocket.readFrame (websocket.reader c) = (Ok f, r) ->
  websocket.opcode f = websocket.opcodeClose ->
  websocket.payload f = b0 :: b1 :: reason ->
  is_byte b0 -> is_byte b1 ->
  exists c',
    websocket.Read c = Some (c', Err ErrClosed)
    /\ websocket.IsCloseError (Some ErrClosed) = true
    /\ websocket.closed c' = true
    /\ websocket.reader c' = r
    /\ websocket.wire (websocket.writer c')
       = websocket.wire (websocket.writer c)
         ++ websocket.frameBytes (websocket.outFrame c websocket.opcodeClose [b0; b1])
    /\ websocket.conn c'
       = match websocket.conn c with
         | Some _ => Some (websocket.mkNetConn true)
         | None => None
         end.
Proof.
  intros Hc Ho Hb E Hop Hp H0 H1.
  rewrite (Read_unfold c Hc), E. cbv zeta. rewrite Hop, Hp.
  change (websocket.opcodeClose =? websocket.opcodePing)%Z with false.
  change (websocket.opcodeClose =? websocket.opcodePong)%Z with false.
  change (websocket.opcodeClose =? websocket.opcodeClose)%Z with true.
  cbv iota. unfold websocket.handleCloseFrame.
  cbn [List.length nth Nat.leb]. cbv zeta.
  rewrite CloseWithCode_sends;
    [| exact Ho | exact Hb | reflexivity
     | rewrite (closePayload_echo b0 b1 H0 H1); vm_compute; discriminate].
  rewrite (closePayload_echo b0 b1 H0 H1).
  eexists. split; [reflexivity|]. cbn [fst].
  repeat split.
Qed.

Lemma X12_close_echoed_witness :
  exists c',
    websocket.Read (server_conn (websocket.frameBytes going_away))
    = Some (c', Err ErrClosed)
    /\ websocket.IsCloseError (Some ErrClosed) = true
    /\ websocket.closed c' = true
    /\ websocket.reader c' = []
    /\ websocket.wire (websocket.writer c')
       = websocket.wire (websocket.writer (server_conn (websocket.frameBytes going_away)))
         ++ websocket.frameBytes
              (websocket.outFrame (server_conn (websocket.frameBytes going_away))
                 websocket.opcodeClose [0x03; 0xE9]%Z)
    /\ websocket.conn c'
       = match websocket.conn (server_conn (websocket.frameBytes going_away)) with
         | Some _ => Some (websocket.mkNetConn true)
         | None => None
         end.
Proof.
  apply (X12_close_echoed (server_conn (websocket.frameBytes going_away)) going_away []
           0x03%Z 0xE9%Z hello);
    try reflexivity; unfold is_byte; lia.
Defined.

(** ** Messages *)

(** An unfragmented data frame is the next message. *)
Lemma Read_message (c : websocket.Conn) (op : Z) (m : bool) (key : websocket.mask4)
      (p rest : list Z) :
  websocket.closed c = false ->
  op = websocket.opcodeText \/ op = websocket.opcodeBinary ->
  (op = websocket.opcodeText -> utf8.Valid p = true) ->
  (Z.of_nat (List.length p) <= websocket.maxFramePayload)%Z ->
  websocket.reader c = websocket.frameBytes (fragment op true m key p) ++ rest ->
  websocket.Read c = Some (websocket.set_reader c rest, Ok (op, p)).
Proof.
  intros Hc Hop Hv Hl Hr.
  rewrite (Read_unfold c Hc), Hr.
  rewrite readFrame_fragment;
    [| destruct Hop as [->| ->]; reflexivity | exact Hv | exact Hl].
  cbv zeta. unfold fragment.
  cbn [websocket.opcode websocket.fin websocket.payload].
  replace (op =? websocket.opcodePing)%Z with false
    by (destruct Hop as [->| ->]; reflexivity).
  replace (op =? websocket.opcodePong)%Z with false
    by (destruct Hop as [->| ->]; reflexivity).
  replace (op =? websocket.opcodeClose)%Z with false
    by (destruct Hop as [->| ->]; reflexivity).
  replace ((op =? websocket.opcodeText)%Z || (op =? websocket.opcodeBinary)%Z)
    with true by (destruct Hop as [->| ->]; reflexivity).
  cbv iota.
  destruct Hop as [->| ->]; [|reflexivity].
  rewrite (Hv eq_refl). reflexivity.
Qed.

(** X13: [Read] delivers an unfragmented data frame as the message of
    its opcode, whatever the mask bit of the frame and the role of the
    connection, and leaves the state of a fragmented message as it was;
    [ReadText] gives the text of a text message and refuses a binary
    message, which is consumed all the same. *)
Theorem X13_message_delivered (c : websocket.Conn) (op : Z) (m : bool)
        (key : websocket.mask4) (p rest : list Z) :
  websocket.closed c = false ->
  op = websocket.opcodeText \/ op = websocket.opcodeBinary ->
  (op = websocket.opcodeText -> utf8.Valid p = true) ->
  (Z.of_nat (List.length p) <= websocket.maxFramePayload)%Z ->
  websocket.reader c = websocket.frameBytes (fragment op true m key p) ++ rest ->
  websocket.Read c = Some (websocket.set_reader c rest, Ok (op, p))
  /\ websocket.ReadText c
     = Some (websocket.set_reader c rest,
             if (op =? websocket.opcodeText)%Z then Ok (string_of_bytes p)
             else Err ErrInvalidMessageType).
Proof.
  intros Hc Hop Hv Hl Hr.
  pose proof (Read_message c op m key p rest Hc Hop Hv Hl Hr) as H.
  split; [exact H|].
  unfold websocket.ReadText. rewrite H.
  destruct Hop as [->| ->]; reflexivity.
Qed.

(** X13 on a client-side connection that receives a masked binary
    frame. *)
Lemma X13_message_delivered_witness :
  let wire := websocket.frameBytes
                (fragment websocket.opcodeBinary true true websocket.constMask hello) in
  websocket.Read (client_conn (wire ++ []))
  = Some (websocket.set_reader (client_conn (wire ++ [])) [],
          Ok (websocket.opcodeBinary, hello))
  /\ websocket.ReadText (client_conn (wire ++ []))
     = Some (websocket.set_reader (client_conn (wire ++ [])) [],
             if (websocket.opcodeBinary =? websocket.opcodeText)%Z
             then Ok (string_of_bytes hello)
             else Err ErrInvalidMessageType).
Proof.
  intros wire.
  apply (X13_message_delivered (client_conn (wire ++ [])) websocket.opcodeBinary true
           websocket.constMask hello []).
  - reflexivity.
  - right. reflexivity.
  - discriminate.
  - unfold websocket.maxFramePayload. simpl. lia.
  - reflexivity.
Defined.

Lemma sendable_cases (mt : websocket.MessageType) (data : list Z) :
  sendable mt data = true ->
  (mt = websocket.opcodeText \/ mt = websocket.opcodeBinary)
  /\ (mt = websocket.opcodeText -> utf8.Valid data = true)
  /\ (Z.of_nat (List.length data) <= websocket.maxFramePayload)%Z.
Proof.
  unfold sendable. rewrite andb_true_iff, orb_true_iff, !andb_true_iff.
  intros [H Hl]. apply Z.leb_le in Hl.
  unfold websocket.TextMessage, websocket.BinaryMessage, websocket.opcodeText,
    websocket.opcodeBinary in *.
  destruct H as [[H1 H2]|[H1 H2]].
  - apply Z.eqb_eq in H1. subst mt. split; [now left|]. split; [intros _; exact H2 | exact Hl].
  - apply Z.eqb_eq in H2. subst mt. split; [now right|]. split; [discriminate | exact Hl].
Qed.

(** What [Write] does with a message that passes its checks. *)
Lemma Write_sendable (c : websocket.Conn) (mt : websocket.MessageType) (data : list Z) :
  websocket.closed c = false ->
  sendable mt data = true ->
  websocket.Write c mt data
  = (websocket.set_writer c
       (fst (websocket.flush (websocket.writer c)
               (websocket.frameBytes (websocket.outFrame c mt data)))),
     snd (websocket.flush (websocket.writer c)
            (websocket.frameBytes (websocket.outFrame c mt data)))).
Proof.
  intros Hc Hs. destruct (sendable_cases mt data Hs) as (Hmt & Hv & Hl).
  unfold websocket.Write. rewrite Hc.
  assert (Hw : writable (websocket.outFrame c mt data) = true).
  { unfold writable, websocket.outFrame.
    cbn [websocket.opcode websocket.fin websocket.payload].
    apply Z.leb_le in Hl. rewrite Hl.
    destruct Hmt as [->| ->]; [|reflexivity].
    rewrite (Hv eq_refl). reflexivity. }
  destruct Hmt as [->| ->].
  - change (websocket.opcodeText =? websocket.TextMessage)%Z with true. cbv iota.
    rewrite (Hv eq_refl). cbn [negb]. cbv iota.
    rewrite (writeFrame_writable _ _ Hw).
    now destruct (websocket.flush _ _).
  - change (websocket.opcodeBinary =? websocket.TextMessage)%Z with false.
    change (websocket.opcodeBinary =? websocket.BinaryMessage)%Z with true. cbv iota.
    rewrite (writeFrame_writable _ _ Hw).
    now destruct (websocket.flush _ _).
Qed.

(** What [Write] does with a message that fails its checks. *)
Lemma Write_not_sendable (c : websocket.Conn) (mt : websocket.MessageType)
      (data : list Z) :
  sendable mt data = false -> exists e, websocket.Write c mt data = (c, Some e).
Proof.
  intros Hs. unfold websocket.Write.
  destruct (websocket.closed c); [eexists; reflexivity|].
  unfold sendable in Hs.
  destruct (mt =? websocket.TextMessage)%Z eqn:Et.
  - cbn [negb andb orb] in Hs.
    destruct (utf8.Valid data) eqn:Ev; [|eexists; reflexivity].
    cbn [negb andb orb] in Hs. rewrite ?orb_false_r in Hs.
    apply Z.leb_gt in Hs. apply Z.ltb_lt in Hs.
    unfold websocket.writeFrame, websocket.outFrame.
    cbn [websocket.opcode websocket.fin websocket.payload].
    change (websocket.isValidOpcode websocket.opcodeText) with true.
    change (websocket.isControlFrame websocket.opcodeText) with false.
    change (websocket.opcodeText =? websocket.opcodeText)%Z with true.
    cbn [negb andb]. rewrite Ev, Hs. cbn [negb andb].
    destruct c; eexists; reflexivity.
  - cbn [negb andb orb] in Hs.
    destruct (mt =? websocket.BinaryMessage)%Z eqn:Eb; [|eexists; reflexivity].
    cbn [andb] in Hs.
    apply Z.leb_gt in Hs. apply Z.ltb_lt in Hs.
    unfold websocket.writeFrame, websocket.outFrame.
    cbn [websocket.opcode websocket.fin websocket.payload].
    change (websocket.isValidOpcode websocket.opcodeBinary) with true.
    change (websocket.isControlFrame websocket.opcodeBinary) with false.
    change (websocket.opcodeBinary =? websocket.opcodeText)%Z with false.
    cbn [negb andb]. rewrite Hs. destruct c; eexists; reflexivity.
Qed.

(** X14: [Write] returns nil exactly when the connection is open, the
    type is text with valid UTF-8 data or binary, the data is within the
    frame limit and the sink accepts the write; then the wire gains one
    final frame with the whole message: [Write] never fragments.  The
    checks come before the first write: on a closed connection, and for a
    message that fails one of them, the connection is as it was. *)
Theorem X14_Write_accepts (c : websocket.Conn) (mt : websocket.MessageType)
        (data : list Z) :
  (snd (websocket.Write c mt data) = None
   <-> websocket.closed c = false /\ sendable mt data = true
       /\ websocket.broken (websocket.writer c) = false)
  /\ (snd (websocket.Write c mt data) = None ->
      fst (websocket.Write c mt data)
      = websocket.set_writer c
          (websocket.mkWriter
             (websocket.wire (websocket.writer c)
              ++ websocket.frameBytes (websocket.outFrame c mt data)) false))
  /\ (websocket.closed c = true \/ sendable mt data = false ->
      fst (websocket.Write c mt data) = c).
Proof.
  destruct (websocket.closed c) eqn:Hc.
  { unfold websocket.Write. rewrite Hc. cbn [fst snd].
    split; [split; [discriminate | intros [H _]; discriminate H]|].
    split; [discriminate | reflexivity]. }
  destruct (sendable mt data) eqn:Hs.
  - rewrite (Write_sendable c mt data Hc Hs). unfold websocket.flush.
    destruct (websocket.broken (websocket.writer c)) eqn:Hb; cbn [fst snd].
    + split; [split; [discriminate | intros (_ & _ & H); discriminate H]|].
      split; [discriminate | intros [H|H]; discriminate H].
    + split; [split; [now repeat split | reflexivity]|].
      split; [reflexivity | intros [H|H]; discriminate H].
  - destruct (Write_not_sendable c mt data Hs) as [e He]. rewrite He. cbn [fst snd].
    split; [split; [discriminate | intros (_ & H & _); discriminate H]|].
    split; [discriminate | reflexivity].
Qed.

(** X15: what one side writes, the other reads.  A message that
    [Write] accepts on one connection is the next message that [Read]
    returns on a connection whose reader holds what was written, for both
    roles on both sides. *)
Theorem X15_Write_then_Read (s r : websocket.Conn) (mt : websocket.MessageType)
        (data rest : list Z) :
  websocket.closed s = false ->
  websocket.broken (websocket.writer s) = false ->
  websocket.wire (websocket.writer s) = [] ->
  sendable mt data = true ->
  websocket.closed r = false ->
  websocket.reader r
  = websocket.wire (websocket.writer (fst (websocket.Write s mt data))) ++ rest ->
  snd (websocket.Write s mt data) = None
  /\ websocket.Read r = Some (websocket.set_reader r rest, Ok (mt, data)).
Proof.
  intros Hs Hb Hw Hd Hr Hin.
  rewrite (Write_sendable s mt data Hs Hd) in *.
  unfold websocket.flush in *. rewrite Hb in *. cbn [fst snd] in *.
  split; [reflexivity|].
  cbn [websocket.set_writer websocket.writer websocket.wire] in Hin.
  rewrite Hw in Hin. cbn [app] in Hin.
  destruct (sendable_cases mt data Hd) as (Hmt & Hv & Hl).
  apply (Read_message r mt (negb (websocket.isServer s))
           (if negb (websocket.isServer s) then websocket.constMask
            else websocket.zero_mask) data rest Hr Hmt Hv Hl).
  exact Hin.
Qed.

Lemma X15_Write_then_Read_witness :
  snd (websocket.Write (client_conn []) websocket.TextMessage hello) = None
  /\ websocket.Read
       (server_conn
          (websocket.wire
             (websocket.writer
                (fst (websocket.Write (client_conn []) websocket.TextMessage hello)))
           ++ []))
     = Some (websocket.set_reader
               (server_conn
                  (websocket.wire
                     (websocket.writer
                        (fst (websocket.Write (client_conn []) websocket.TextMessage
                                hello)))
                   ++ [])) [],
             Ok (websocket.TextMessage, hello)).
Proof.
  apply (X15_Write_then_Read (client_conn []) _ websocket.TextMessage hello []);
    reflexivity.
Defined.

(** ** Control frames and closing *)

Lemma writable_control (c : websocket.Conn) (op : Z) (data : list Z) :
  websocket.isValidOpcode op = true ->
  (op =? websocket.opcodeText)%Z = false ->
  (List.length data <= 125)%nat ->
  writable (websocket.outFrame c op data) = true.
Proof.
  intros Hop Ht Hl. unfold writable, websocket.outFrame.
  cbn [websocket.opcode websocket.fin websocket.payload].
  rewrite Hop, Ht. cbn [negb andb orb].
  replace (Z.of_nat (List.length data) <=? websocket.maxControlPayload)%Z with true
    by (symmetry; apply Z.leb_le; unfold websocket.maxControlPayload; lia).
  replace (Z.of_nat (List.length data) <=? websocket.maxFramePayload)%Z with true
    by (symmetry; apply Z.leb_le; unfold websocket.maxFramePayload; lia).
  now rewrite orb_true_r.
Qed.

(** X16: [Ping] and [Pong] refuse a call on a closed connection with
    [ErrClosed] and data of more than 125 bytes with
    [ErrControlTooLarge], before they build a frame, so that the connection
    is as it was; otherwise they write one final control frame with the
    data, masked on a client, when the sink accepts the write, and return
    the error of the write when it does not. *)
Theorem X16_Ping_Pong_accept (c : websocket.Conn) (data : list Z) :
  match control_refused c data with
  | Some e =>
    websocket.Ping c data = (c, Some e) /\ websocket.Pong c data = (c, Some e)
  | None =>
    if websocket.broken (websocket.writer c)
    then snd (websocket.Ping c data) = Some (ErrIO ErrWriteFailed)
         /\ snd (websocket.Pong c data) = Some (ErrIO ErrWriteFailed)
    else websocket.Ping c data
         = (websocket.set_writer c
              (websocket.mkWriter
                 (websocket.wire (websocket.writer c)
                  ++ websocket.frameBytes
                       (websocket.outFrame c websocket.opcodePing data))
                 false), None)
         /\ websocket.Pong c data
            = (websocket.set_writer c
                 (websocket.mkWriter
                    (websocket.wire (websocket.writer c)
                     ++ websocket.frameBytes
                          (websocket.outFrame c websocket.opcodePong data))
                    false), None)
  end.
Proof.
  unfold control_refused, websocket.Ping, websocket.Pong.
  destruct (websocket.closed c) eqn:Hc; [split; reflexivity|].
  destruct (Nat.leb_spec (List.length data) 125) as [Hl|Hl].
  - replace (125 <? List.length data)%nat with false
      by (symmetry; apply Nat.ltb_ge; exact Hl).
    rewrite (writeFrame_writable _ _
               (writable_control c websocket.opcodePing data eq_refl eq_refl Hl)).
    rewrite (writeFrame_writable _ _
               (writable_control c websocket.opcodePong data eq_refl eq_refl Hl)).
    unfold websocket.flush.
    destruct (websocket.broken (websocket.writer c)); split; reflexivity.
  - replace (125 <? List.length data)%nat with true
      by (symmetry; apply Nat.ltb_lt; exact Hl).
    split; reflexivity.
Qed.

(** X17: a first call of [CloseWithCode] that fails on the reason, on
    the length of the payload or on the write latches the connection
    closed and leaves the underlying connection open; and no later
    [Close] closes it, for the once is spent.  The reason and the length
    are checked before the first write: when the call fails on one of
    them, no close frame has been written. *)
Theorem X17_failed_close_leaves_conn_open (c : websocket.Conn)
        (code : websocket.CloseCode) (reason : string) (e : error) :
  websocket.closeOnce c = false ->
  close_error c reason = Some e ->
  exists c',
    websocket.CloseWithCode c code reason = (c', Some e)
    /\ websocket.closed c' = true
    /\ websocket.conn c' = websocket.conn c
    /\ websocket.Close c' = (c', None)
    /\ (e <> ErrIO ErrWriteFailed -> websocket.writer c' = websocket.writer c).
Proof.
  intros Ho He.
  exists (websocket.set_closed (websocket.set_closeOnce c true) true).
  split; [|split; [reflexivity|split; [reflexivity|split; [|reflexivity]]]].
  - unfold close_error in He. unfold websocket.CloseWithCode. rewrite Ho. cbv zeta.
    destruct (negb (String.eqb reason "") && negb (ValidString reason)).
    { injection He as <-. reflexivity. }
    unfold websocket.writeFrame, websocket.outFrame.
    cbn [websocket.opcode websocket.fin websocket.payload].
    change (websocket.isValidOpcode websocket.opcodeClose) with true.
    change (websocket.isControlFrame websocket.opcodeClose) with true.
    change (websocket.opcodeClose =? websocket.opcodeText)%Z with false.
    cbn [negb andb].
    unfold websocket.closePayload. rewrite length_app. cbn [List.length].
    destruct (Nat.ltb_spec 125 (2 + List.length (bytes_of_string reason))) as [Hl|Hl].
    { injection He as <-.
      replace (websocket.maxControlPayload
               <? Z.of_nat (2 + List.length (bytes_of_string reason)))%Z with true
        by (symmetry; apply Z.ltb_lt; unfold websocket.maxControlPayload; lia).
      destruct c; reflexivity. }
    replace (websocket.maxControlPayload
             <? Z.of_nat (2 + List.length (bytes_of_string reason)))%Z with false
      by (symmetry; apply Z.ltb_ge; unfold websocket.maxControlPayload; lia).
    replace (websocket.maxFramePayload
             <? Z.of_nat (2 + List.length (bytes_of_string reason)))%Z with false
      by (symmetry; apply Z.ltb_ge; unfold websocket.maxFramePayload; lia).
    unfold websocket.flush.
    cbn [websocket.writer websocket.set_closed websocket.set_closeOnce].
    destruct (websocket.broken (websocket.writer c)); [|discriminate He].
    injection He as <-. destruct c; reflexivity.
  - apply ws_Close_spent. reflexivity.
Qed.

(** X17 on a reason of 124 bytes. *)
Lemma X17_failed_close_leaves_conn_open_witness :
  exists c',
    websocket.CloseWithCode (client_conn []) websocket.CloseNormalClosure long_reason
    = (c', Some ErrControlTooLarge)
    /\ websocket.closed c' = true
    /\ websocket.conn c' = websocket.conn (client_conn [])
    /\ websocket.Close c' = (c', None)
    /\ (ErrControlTooLarge <> ErrIO ErrWriteFailed ->
        websocket.writer c' = websocket.writer (client_conn [])).
Proof.
  apply (X17_failed_close_leaves_conn_open (client_conn []) websocket.CloseNormalClosure
           long_reason ErrControlTooLarge); reflexivity.
Defined.

(** X18: the errors of [readFrame] are the errors of the reader and
    the six protocol errors of its checks; the direction of masking is not
    among the checks, and [ErrMaskRequired] and [ErrMaskUnexpected] are
    never returned. *)
Theorem X18_readFrame_errors (r : list Z) (e : error) (r' : list Z) :
  websocket.readFrame r = (Err e, r') ->
  read_errors e = true /\ e <> ErrMaskRequired /\ e <> ErrMaskUnexpected.
Proof.
  intros H.
  assert (He : read_errors e = true).
  { revert H. unfold websocket.readFrame, websocket.ReadFull. cbv zeta.
    repeat match goal with
    | |- (Err _, _) = (Err _, _) -> _ => intros [= <- _]; reflexivity
    | |- (Ok _, _) = (Err _, _) -> _ => discriminate
    | |- context [if ?c then _ else _] => destruct c
    | |- context [match ?l with [] => _ | _ :: _ => _ end] => destruct l
    end. }
  split; [exact He|]. split; intros ->; discriminate He.
Qed.

Lemma X18_readFrame_errors_witness :
  read_errors ErrReservedBits = true
  /\ ErrReservedBits <> ErrMaskRequired /\ ErrReservedBits <> ErrMaskUnexpected.
Proof.
  apply (X18_readFrame_errors (websocket.frameBytes rsv_frame) ErrReservedBits
           (skipn 2 (websocket.frameBytes rsv_frame))).
  reflexivity.
Defined.

(** ** More on the opening handshake *)

(** [Upgrade] with the defaults of the options applied. *)
Lemma Upgrade_cases (ToLower TrimSpace : string -> string)
      (w : websocket.ResponseWriter) (r : websocket.Request)
      (opts : option websocket.UpgradeOptions) :
  websocket.Upgrade ToLower TrimSpace w r opts
  = if request_ok ToLower TrimSpace r opts then
      let w' := websocket.mkResponseWriter
                  (response_headers TrimSpace r opts (websocket.rw_Header w))
                  (Some websocket.StatusSwitchingProtocols) (websocket.rw_hijacker w) in
      match websocket.rw_hijacker w with
      | websocket.NotHijacker => (w', Err ErrHijackFailed)
      | websocket.HijackFails e => (w', Err e)
      | websocket.Hijacked netConn input flushOk =>
        if negb flushOk then (w', Err (ErrIO ErrWriteFailed))
        else (w', Ok (websocket.newConn (Some netConn) input
                        (websocket.mkWriter [] false) true))
      end
    else (w, Err (match snd (websocket.Upgrade ToLower TrimSpace w r opts) with
                  | Err e => e
                  | Ok _ => ErrInvalidMethod
                  end)).
Proof.
  unfold request_ok, response_headers, websocket.Upgrade. cbv zeta.
  destruct opts as [[sp co rb wb]|];
    cbn [origin_check server_protocols websocket.ReadBufferSize
         websocket.WriteBufferSize websocket.Subprotocols websocket.CheckOrigin Z.eqb];
    [destruct (rb =? 0)%Z;
     cbn [websocket.ReadBufferSize websocket.WriteBufferSize websocket.Subprotocols
          websocket.CheckOrigin];
     destruct (wb =? 0)%Z;
     cbn [websocket.ReadBufferSize websocket.WriteBufferSize websocket.Subprotocols
          websocket.CheckOrigin]|].
  all: destruct (String.eqb (websocket.Method r) "GET"); cbn [negb andb]; [|reflexivity].
  all: destruct (websocket.headerContainsToken ToLower TrimSpace
                   (websocket.Get (websocket.Header r) "Upgrade") "websocket");
    cbn [negb andb]; [|reflexivity].
  all: destruct (websocket.headerContainsToken ToLower TrimSpace
                   (websocket.Get (websocket.Header r) "Connection") "upgrade");
    cbn [negb andb]; [|reflexivity].
  all: destruct (String.eqb (websocket.Get (websocket.Header r) "Sec-WebSocket-Version")
                   "13");
    cbn [negb andb]; [|reflexivity].
  all: destruct (String.eqb (websocket.Get (websocket.Header r) "Sec-WebSocket-Key") "");
    cbn [negb andb]; [reflexivity|].
  all: try (destruct co as [check|]; [destruct (check r); cbn [negb]; [|reflexivity]|]).
  all: cbn [websocket.rw_hijacker]; reflexivity.
Qed.

(** X19: when [Upgrade] returns a connection, the request passed the
    six checks, the response has status 101 with the three headers of the
    handshake, the accept key being that of the request's key, and the
    connection is a new server-side connection on the hijacked socket. *)
Theorem X19_Upgrade_sound (ToLower TrimSpace : string -> string)
        (w w' : websocket.ResponseWriter) (r : websocket.Request)
        (opts : option websocket.UpgradeOptions) (c : websocket.Conn) :
  websocket.Upgrade ToLower TrimSpace w r opts = (w', Ok c) ->
  request_ok ToLower TrimSpace r opts = true
  /\ websocket.rw_status w' = Some websocket.StatusSwitchingProtocols
  /\ websocket.rw_Header w' !! "Upgrade" = Some "websocket"
  /\ websocket.rw_Header w' !! "Connection" = Some "Upgrade"
  /\ websocket.rw_Header w' !! "Sec-WebSocket-Accept"
     = Some (websocket.computeAcceptKey
               (websocket.Get (websocket.Header r) "Sec-WebSocket-Key"))
  /\ exists netConn input,
      websocket.rw_hijacker w = websocket.Hijacked netConn input true
      /\ c = websocket.newConn (Some netConn) input (websocket.mkWriter [] false) true.
Proof.
  rewrite Upgrade_cases.
  destruct (request_ok ToLower TrimSpace r opts); [|discriminate].
  cbv zeta.
  destruct (websocket.rw_hijacker w) as [|e|netConn input [|]]; try discriminate.
  cbn [negb]. intros [= <- <-].
  cbn [websocket.rw_status websocket.rw_Header].
  split; [reflexivity|]. split; [reflexivity|].
  unfold response_headers. cbv zeta.
  destruct (negb _);
    repeat split;
    repeat first [rewrite lookup_insert_eq | rewrite lookup_insert_ne by discriminate];
    try reflexivity; now exists netConn, input.
Qed.

(** X19 on the request of RFC 6455 Section 1.3. *)
Lemma X19_Upgrade_sound_witness :
  let w' := fst (websocket.Upgrade gostrings.ascii_ToLower gostrings.ascii_TrimSpace
                   sample_writer sample_request None) in
  request_ok gostrings.ascii_ToLower gostrings.ascii_TrimSpace sample_request None = true
  /\ websocket.rw_status w' = Some websocket.StatusSwitchingProtocols
  /\ websocket.rw_Header w' !! "Upgrade" = Some "websocket"
  /\ websocket.rw_Header w' !! "Connection" = Some "Upgrade"
  /\ websocket.rw_Header w' !! "Sec-WebSocket-Accept"
     = Some (websocket.computeAcceptKey
               (websocket.Get (websocket.Header sample_request) "Sec-WebSocket-Key"))
  /\ exists netConn input,
      websocket.rw_hijacker sample_writer = websocket.Hijacked netConn input true
      /\ websocket.newConn (Some (websocket.mkNetConn false)) []
           (websocket.mkWriter [] false) true
         = websocket.newConn (Some netConn) input (websocket.mkWriter [] false) true.
Proof.
  intros w'.
  apply (X19_Upgrade_sound gostrings.ascii_ToLower gostrings.ascii_TrimSpace
           sample_writer w' sample_request None
           (websocket.newConn (Some (websocket.mkNetConn false)) []
              (websocket.mkWriter [] false) true)).
  vm_compute. reflexivity.
Defined.

(** X20: a request that fails one of the six checks leaves the
    response writer as it was, so nothing has been answered yet; a request
    that passes them has status 101 and the handshake headers written
    before the socket is taken over, also when taking it over then
    fails, and an error is returned exactly when it fails. *)
Theorem X20_Upgrade_failures (ToLower TrimSpace : string -> string)
        (w : websocket.ResponseWriter) (r : websocket.Request)
        (opts : option websocket.UpgradeOptions) :
  (request_ok ToLower TrimSpace r opts = false ->
   fst (websocket.Upgrade ToLower TrimSpace w r opts) = w
   /\ exists e, snd (websocket.Upgrade ToLower TrimSpace w r opts) = Err e)
  /\ (request_ok ToLower TrimSpace r opts = true ->
      fst (websocket.Upgrade ToLower TrimSpace w r opts)
      = websocket.mkResponseWriter
          (response_headers TrimSpace r opts (websocket.rw_Header w))
          (Some websocket.StatusSwitchingProtocols) (websocket.rw_hijacker w)
      /\ ((exists e, snd (websocket.Upgrade ToLower TrimSpace w r opts) = Err e)
          <-> forall netConn input,
              websocket.rw_hijacker w <> websocket.Hijacked netConn input true)
      /\ (websocket.rw_hijacker w = websocket.NotHijacker ->
          snd (websocket.Upgrade ToLower TrimSpace w r opts) = Err ErrHijackFailed)).
Proof.
  rewrite Upgrade_cases.
  destruct (request_ok ToLower TrimSpace r opts).
  - split; [discriminate|]. intros _. cbv zeta.
    destruct (websocket.rw_hijacker w) as [|e|netConn input [|]]; cbn [negb fst snd].
    + split; [reflexivity|]. split; [|reflexivity].
      split; [discriminate | eexists; reflexivity].
    + split; [reflexivity|]. split; [|discriminate].
      split; [discriminate | eexists; reflexivity].
    + split; [reflexivity|]. split; [|discriminate].
      split; [intros [e He]; discriminate He | intros H; now elim (H netConn input)].
    + split; [reflexivity|]. split; [|discriminate].
      split; [discriminate | eexists; reflexivity].
  - split; [|discriminate]. intros _. cbn [fst snd]. split; [reflexivity|].
    eexists. reflexivity.
Qed.

Lemma negotiate_loop_sound (TrimSpace : string -> string)
      (serverProtos raw : list string) :
  websocket.negotiate_loop TrimSpace raw serverProtos = ""
  \/ In (websocket.negotiate_loop TrimSpace raw serverProtos) serverProtos
     /\ In (websocket.negotiate_loop TrimSpace raw serverProtos) (map TrimSpace raw).
Proof.
  induction raw as [|t raw IH]; cbn [websocket.negotiate_loop map].
  - now left.
  - destruct (websocket.offered (TrimSpace t) serverProtos) eqn:Hq.
    + right. split; [now apply offered_In | now left].
    + destruct IH as [IH|[IH1 IH2]]; [now left | right; split; [exact IH1 | now right]].
Qed.

(** X21: the subprotocol that the handshake selects is the empty
    string or a protocol that the server lists and that the client
    offered; the handshake never selects anything else. *)
Theorem X21_negotiation_sound (TrimSpace : string -> string) (r : websocket.Request)
        (serverProtos : list string) :
  websocket.negotiateSubprotocol TrimSpace r serverProtos = ""
  \/ In (websocket.negotiateSubprotocol TrimSpace r serverProtos) serverProtos
     /\ In (websocket.negotiateSubprotocol TrimSpace r serverProtos)
           (client_offers TrimSpace r).
Proof.
  unfold websocket.negotiateSubprotocol, client_offers.
  destruct serverProtos as [|sp rest]; [now left|].
  apply negotiate_loop_sound.
Qed.

Lemma base64_encode_length (src : list Z) :
  forall n, List.length src = (3 * n + 2)%nat ->
  List.length (base64.encode src) = (4 * n + 4)%nat
  /\ List.last (base64.encode src) "A"%char = "="%char.
Proof.
  intros n. revert src. induction n as [|n IH]; intros src Hl.
  - destruct src as [|b0 [|b1 [|b2 rest]]]; try discriminate Hl. split; reflexivity.
  - destruct src as [|b0 [|b1 [|b2 rest]]]; try (cbn in Hl; lia).
    destruct (IH rest) as [H1 H2]; [cbn in Hl; lia|].
    change (base64.encode (b0 :: b1 :: b2 :: rest))
      with (base64.char_at (Z.shiftr b0 2)
            :: base64.char_at (Z.land (Z.lor (Z.shiftl b0 4) (Z.shiftr b1 4)) 0x3F)
            :: base64.char_at (Z.land (Z.lor (Z.shiftl b1 2) (Z.shiftr b2 6)) 0x3F)
            :: base64.char_at (Z.land b2 0x3F)
            :: base64.encode rest).
    split.
    + cbn [List.length]. rewrite H1. lia.
    + destruct (base64.encode rest) as [|x xs] eqn:E; [cbn in H1; lia|].
      exact H2.
Qed.

Lemma length_string_of_list_ascii (l : list ascii) :
  String.length (string_of_list_ascii l) = List.length l.
Proof. induction l as [|a l IH]; cbn; [reflexivity | now rewrite IH]. Qed.

(** X22: the accept key of every key has 28 characters, of which the
    last is the padding character: it is the base64 text of a digest of 20
    bytes. *)
Theorem X22_accept_key_shape (key : string) :
  String.length (websocket.computeAcceptKey key) = 28%nat
  /\ List.last (list_ascii_of_string (websocket.computeAcceptKey key)) "A"%char = "="%char.
Proof.
  unfold websocket.computeAcceptKey, base64.EncodeToString, sha1.Sum. cbv zeta.
  cbn [app].
  destruct (base64_encode_length
              (sha1.Sum20
                 (sha1.Write (sha1.Write sha1.New (bytes_of_string key))
                    (bytes_of_string websocket.websocketGUID))) 6) as [H1 H2].
  { apply Sum20_length. }
  rewrite length_string_of_list_ascii, list_ascii_of_string_of_list_ascii.
  split; [exact H1 | exact H2].
Qed.

(** ** More on the hubs *)

(** A loop over distinct identifiers that rewrites the connection of
    each in the store. *)
Lemma fold_plain {C : Type} (f : gmap nat C -> nat -> gmap nat C) (g : C -> C) :
  (forall (σ : gmap nat C) (id : nat),
      f σ id = match σ !! id with
               | Some c => <[id := g c]> σ
               | None => σ
               end) ->
  forall (L : list nat), NoDup L ->
  forall (σ : gmap nat C) (id : nat),
    foldl f σ L !! id = if decide (id ∈ L) then g <$> (σ !! id) else σ !! id.
Proof.
  intros Hf L Hnd σ id.
  rewrite <- (fold_store (fun acc i => (fst acc, f (snd acc) i)) g
                (fun h s i => Hf s i) L Hnd tt σ id).
  f_equal. generalize tt. revert σ. clear Hnd.
  induction L as [|x L IH]; intros σ u; cbn [foldl]; [reflexivity|].
  apply IH.
Qed.

Lemma ws_Close_closed (cn : websocket.Conn) :
  once_closed cn -> websocket.closed (fst (websocket.Close cn)) = true.
Proof.
  intros H. unfold websocket.Close.
  exact (proj1 (CloseWithCode_closed cn websocket.CloseNormalClosure "" H)).
Qed.

(** X23: [Hub.Close] on an open hub on whose channels no sender is
    blocked returns nil, closes the connection of every member and of no
    other client, and empties the membership; after it a second [Close],
    [Register], [Unregister] and [Broadcast] do nothing, none of them
    reporting an error, and the loop of [Run] ends when it sees the done
    channel.  When a sender is blocked on a channel and the loop ends
    without taking its value, [Close] closes the members all the same and
    its closing of the channels makes the sender panic. *)
Theorem X23_Hub_Close (h : websocket.Hub.t) (σ : gmap nat websocket.Conn) :
  websocket.Hub.closed h = false ->
  (forall id cn, σ !! id = Some cn -> once_closed cn) ->
  (websocket.Hub.senders_waiting h = false ->
   exists h' σ',
     websocket.Hub.Close h σ = websocket.Hub.Closes h' σ' None
     /\ websocket.Hub.ClientCount h' = 0%nat
     /\ (forall id,
         σ' !! id = if decide (id ∈ websocket.Hub.clients h)
                    then (fun cn => fst (websocket.Close cn)) <$> (σ !! id)
                    else σ !! id)
     /\ (forall id cn',
         id ∈ websocket.Hub.clients h -> σ' !! id = Some cn' ->
         websocket.closed cn' = true)
     /\ websocket.Hub.Close h' σ' = websocket.Hub.Closes h' σ' None
     /\ (forall c message,
         websocket.Hub.Register h' c = h' /\ websocket.Hub.Unregister h' c = h'
         /\ websocket.Hub.Broadcast h' message = h')
     /\ websocket.Hub.Run_iter websocket.Hub.RecvDone h' σ' = Some (h', σ', false))
  /\ (websocket.Hub.senders_waiting h = true ->
      exists h' σ',
        websocket.Hub.Close h σ = websocket.Hub.SendPanics h' σ'
        /\ forall id cn',
            id ∈ websocket.Hub.clients h -> σ' !! id = Some cn' ->
            websocket.closed cn' = true).
Proof.
  intros Hc Hinv.
  assert (Hσ : forall id,
    foldl websocket.Hub.close_client σ (elements (websocket.Hub.clients h)) !! id
    = if decide (id ∈ websocket.Hub.clients h)
      then (fun cn => fst (websocket.Close cn)) <$> (σ !! id)
      else σ !! id).
  { intros id.
    rewrite (fold_plain websocket.Hub.close_client (fun cn => fst (websocket.Close cn))
               (fun s i => eq_refl) _ (NoDup_elements _) σ id).
    destruct (decide (id ∈ elements (websocket.Hub.clients h))) as [Hin|Hout],
      (decide (id ∈ websocket.Hub.clients h)) as [Hin'|Hout']; try reflexivity.
    - exfalso. apply Hout'. now apply elem_of_elements.
    - exfalso. apply Hout. now apply elem_of_elements. }
  assert (Hcl : forall id cn',
    id ∈ websocket.Hub.clients h ->
    foldl websocket.Hub.close_client σ (elements (websocket.Hub.clients h)) !! id
    = Some cn' ->
    websocket.closed cn' = true).
  { intros id cn' Hin Hl. rewrite Hσ in Hl.
    destruct (decide (id ∈ websocket.Hub.clients h)) as [_|Hout]; [|contradiction].
    destruct (σ !! id) as [cn|] eqn:E; [|discriminate Hl].
    cbn in Hl. injection Hl as <-. apply ws_Close_closed. exact (Hinv id cn E). }
  unfold websocket.Hub.Close. rewrite Hc. cbv zeta.
  split; intros Hw; rewrite Hw; eexists; eexists; (split; [reflexivity|]).
  - split; [unfold websocket.Hub.ClientCount; cbn [websocket.Hub.clients];
            apply size_empty|].
    split; [exact Hσ|].
    split; [exact Hcl|].
    repeat split.
  - exact Hcl.
Qed.

Lemma two_clients_once_closed (id : nat) (cn : websocket.Conn) :
  two_clients !! id = Some cn -> once_closed cn.
Proof.
  unfold two_clients. intros H.
  apply lookup_insert_Some in H as [[_ <-]|[_ H]]; [unfold once_closed; discriminate|].
  apply lookup_insert_Some in H as [[_ <-]|[_ H]]; [intros _; reflexivity|].
  rewrite lookup_empty in H. discriminate H.
Qed.

(** X23 on a hub with a live and a closed member: with nothing waiting
    in its channels, and with a caller of [Unregister] waiting. *)
Lemma X23_Hub_Close_witness :
  (exists h' σ',
    websocket.Hub.Close two_member_hub two_clients = websocket.Hub.Closes h' σ' None
    /\ websocket.Hub.ClientCount h' = 0%nat
    /\ (forall id,
        σ' !! id = if decide (id ∈ websocket.Hub.clients two_member_hub)
                   then (fun cn => fst (websocket.Close cn)) <$> (two_clients !! id)
                   else two_clients !! id)
    /\ (forall id cn',
        id ∈ websocket.Hub.clients two_member_hub -> σ' !! id = Some cn' ->
        websocket.closed cn' = true)
    /\ websocket.Hub.Close h' σ' = websocket.Hub.Closes h' σ' None
    /\ (forall c message,
        websocket.Hub.Register h' c = h' /\ websocket.Hub.Unregister h' c = h'
        /\ websocket.Hub.Broadcast h' message = h')
    /\ websocket.Hub.Run_iter websocket.Hub.RecvDone h' σ' = Some (h', σ', false))
  /\ (exists h' σ',
      websocket.Hub.Close waiting_hub two_clients = websocket.Hub.SendPanics h' σ'
      /\ forall id cn',
          id ∈ websocket.Hub.clients waiting_hub -> σ' !! id = Some cn' ->
          websocket.closed cn' = true).
Proof.
  split.
  - apply (proj1 (X23_Hub_Close two_member_hub two_clients eq_refl
                    two_clients_once_closed)).
    reflexivity.
  - apply (proj2 (X23_Hub_Close waiting_hub two_clients eq_refl
                    two_clients_once_closed)).
    reflexivity.
Defined.

(** X24: [Hub.Close] of the SSE hub on an open hub returns nil, closes
    the connection of every member and of no other client, so that a send
    on it fails with [ErrConnectionClosed], and empties the membership;
    after it a second [Close] does nothing, and [Register],
    [Unregister] and [Broadcast] return [ErrHubClosed] and do nothing. *)
Theorem X24_sse_Hub_Close (T : Type) (P : sse.Payload T)
        (h : sse.Hub.t T) (σ : gmap nat sse.Conn) :
  sse.Hub.closed h = false ->
  let h' := fst (fst (sse.Hub.Close h σ)) in
  let σ' := snd (fst (sse.Hub.Close h σ)) in
  snd (sse.Hub.Close h σ) = None
  /\ sse.Hub.Clients h' = 0%nat
  /\ (forall id,
      σ' !! id = if decide (id ∈ sse.Hub.clients h)
                 then (fun c => fst (sse.Close c)) <$> (σ !! id)
                 else σ !! id)
  /\ (forall id c' event,
      id ∈ sse.Hub.clients h -> σ' !! id = Some c' ->
      sse.Send c' event = (c', Some sse.ErrConnectionClosed))
  /\ sse.Hub.Close h' σ' = (h', σ', None)
  /\ (forall c x,
      sse.Hub.Register h' c = (h', Some sse.ErrHubClosed)
      /\ sse.Hub.Unregister h' c = (h', Some sse.ErrHubClosed)
      /\ sse.Hub.Broadcast h' x = (h', Some sse.ErrHubClosed)).
Proof.
  intros Hc. unfold sse.Hub.Close. rewrite Hc. cbn [fst snd].
  assert (Hσ : forall id,
    foldl sse.Hub.close_in σ (elements (sse.Hub.clients h)) !! id
    = if decide (id ∈ sse.Hub.clients h)
      then (fun c => fst (sse.Close c)) <$> (σ !! id)
      else σ !! id).
  { intros id.
    rewrite (fold_plain sse.Hub.close_in (fun c => fst (sse.Close c))
               (fun s i => eq_refl) _ (NoDup_elements _) σ id).
    destruct (decide (id ∈ elements (sse.Hub.clients h))) as [Hin|Hout],
      (decide (id ∈ sse.Hub.clients h)) as [Hin'|Hout']; try reflexivity.
    - exfalso. apply Hout'. now apply elem_of_elements.
    - exfalso. apply Hout. now apply elem_of_elements. }
  split; [reflexivity|].
  split; [unfold sse.Hub.Clients; cbn [sse.Hub.clients]; apply size_empty|].
  split; [exact Hσ|].
  split.
  { intros id c' event Hin Hl. rewrite Hσ in Hl.
    destruct (decide (id ∈ sse.Hub.clients h)) as [_|Hout]; [|contradiction].
    destruct (σ !! id) as [c|] eqn:E; [|discriminate Hl].
    cbn in Hl. injection Hl as <-.
    unfold sse.Send, sse.Close. destruct (sse.closed c) eqn:Ec; cbn [fst sse.closed].
    - now rewrite Ec.
    - reflexivity. }
  repeat split.
Qed.

Lemma X24_sse_Hub_Close_witness :
  let h' := fst (fst (sse.Hub.Close two_listener_hub two_listeners)) in
  let σ' := snd (fst (sse.Hub.Close two_listener_hub two_listeners)) in
  snd (sse.Hub.Close two_listener_hub two_listeners) = None
  /\ sse.Hub.Clients h' = 0%nat
  /\ (forall id,
      σ' !! id = if decide (id ∈ sse.Hub.clients two_listener_hub)
                 then (fun c => fst (sse.Close c)) <$> (two_listeners !! id)
                 else two_listeners !! id)
  /\ (forall id c' event,
      id ∈ sse.Hub.clients two_listener_hub -> σ' !! id = Some c' ->
      sse.Send c' event = (c', Some sse.ErrConnectionClosed))
  /\ sse.Hub.Close h' σ' = (h', σ', None)
  /\ (forall c x,
      sse.Hub.Register h' c = (h', Some sse.ErrHubClosed)
      /\ sse.Hub.Unregister h' c = (h', Some sse.ErrHubClosed)
      /\ sse.Hub.Broadcast h' x = (h', Some sse.ErrHubClosed)).
Proof.
  apply (X24_sse_Hub_Close string sse.Payload_string two_listener_hub two_listeners).
  reflexivity.
Defined.

(** What one round of the loop of [handleBroadcast] does to the
    hub. *)
Lemma sse_send_hub {T : Type} `{sse.Payload T} (dataStr : string)
      (h : sse.Hub.t T) (σ : gmap nat sse.Conn) (id : nat) :
  sse.Hub.clients (fst (sse.Hub.send dataStr (h, σ) id))
  = if sse_fails σ id then sse.Hub.clients h ∖ {[id]} else sse.Hub.clients h.
Proof.
  unfold sse.Hub.send, sse_fails, sse.SendData, sse.Send.
  destruct (σ !! id) as [c|]; [|reflexivity].
  destruct (sse.closed c); [reflexivity|].
  destruct (sse.w_fails c); reflexivity.
Qed.

Lemma sse_fails_other (dataStr : string) (σ : gmap nat sse.Conn) (x id : nat) :
  id <> x ->
  sse_fails (match σ !! x with
             | Some c => <[x := sse_delivered dataStr c]> σ
             | None => σ
             end) id
  = sse_fails σ id.
Proof.
  intros Hne. unfold sse_fails.
  destruct (σ !! x); [now rewrite lookup_insert_ne by congruence | reflexivity].
Qed.

(** The members after the loop of [handleBroadcast] over distinct
    clients. *)
Lemma sse_fold_clients {T : Type} `{sse.Payload T} (dataStr : string) (L : list nat) :
  NoDup L ->
  forall (h : sse.Hub.t T) (σ : gmap nat sse.Conn) (id : nat),
    id ∈ sse.Hub.clients (fst (foldl (sse.Hub.send dataStr) (h, σ) L))
    <-> id ∈ sse.Hub.clients h /\ ~ (id ∈ L /\ sse_fails σ id = true).
Proof.
  induction L as [|x L IH]; intros Hnd h σ id.
  - cbn [foldl fst]. split; [intros Hin; split; [exact Hin|] | tauto].
    intros [Hn _]. now apply elem_of_nil in Hn.
  - apply NoDup_cons in Hnd as [Hx Hnd]. cbn [foldl].
    pose proof (sse_send_hub dataStr h σ x) as Hh.
    pose proof (sse_send_store dataStr h σ x) as Hs.
    destruct (sse.Hub.send dataStr (h, σ) x) as [h1 σ1]. cbn [fst snd] in Hh, Hs.
    rewrite (IH Hnd h1 σ1 id), Hh. subst σ1.
    destruct (decide (id = x)) as [->|Hne].
    + destruct (sse_fails σ x) eqn:Ef.
      * split.
        -- intros [Hin _]. apply elem_of_difference in Hin as [_ Hin].
           exfalso. apply Hin. now apply elem_of_singleton.
        -- intros [_ Hn]. exfalso. apply Hn. split; [left | reflexivity].
      * split.
        -- intros [Hin _]. split; [exact Hin|]. intros [_ Hf]. discriminate Hf.
        -- intros [Hin _]. split; [exact Hin|]. intros [Hn _]. contradiction.
    + rewrite (sse_fails_other dataStr σ x id Hne).
      assert (Hm : id ∈ (if sse_fails σ x then sse.Hub.clients h ∖ {[x]}
                         else sse.Hub.clients h)
                   <-> id ∈ sse.Hub.clients h).
      { destruct (sse_fails σ x); [|tauto].
        rewrite elem_of_difference, elem_of_singleton. tauto. }
      rewrite Hm, elem_of_cons. tauto.
Qed.

(** X25: a broadcast of data that is not empty removes from the SSE
    hub exactly the members on which the send fails, that is the members
    whose connection is closed or whose writer fails; their connections are
    closed and nothing is written to them; the clients that are not
    members are not touched. *)
Theorem X25_sse_broadcast_evicts (T : Type) (P : sse.Payload T)
        (h : sse.Hub.t T) (σ : gmap nat sse.Conn) (x : T) :
  sse.Hub.convertToString x <> "" ->
  let h' := fst (sse.Hub.handleBroadcast h σ x) in
  let σ' := snd (sse.Hub.handleBroadcast h σ x) in
  (forall id, id ∈ sse.Hub.clients h'
              <-> id ∈ sse.Hub.clients h /\ sse_fails σ id = false)
  /\ (forall id c,
      id ∈ sse.Hub.clients h -> σ !! id = Some c -> sse_fails σ id = true ->
      exists c', σ' !! id = Some c' /\ sse.closed c' = true /\ sse.w c' = sse.w c)
  /\ (forall id, id ∉ sse.Hub.clients h -> σ' !! id = σ !! id).
Proof.
  intros Hne. apply String.eqb_neq in Hne.
  unfold sse.Hub.handleBroadcast. cbv zeta. rewrite Hne.
  assert (Hσ : forall id,
    snd (foldl (sse.Hub.send (sse.Hub.convertToString x)) (h, σ)
           (elements (sse.Hub.clients h))) !! id
    = if decide (id ∈ elements (sse.Hub.clients h))
      then sse_delivered (sse.Hub.convertToString x) <$> (σ !! id)
      else σ !! id).
  { intros id.
    exact (fold_store (sse.Hub.send (sse.Hub.convertToString x))
             (sse_delivered (sse.Hub.convertToString x))
             (sse_send_store (sse.Hub.convertToString x))
             (elements (sse.Hub.clients h)) (NoDup_elements _) h σ id). }
  split; [|split].
  - intros id.
    rewrite (sse_fold_clients (sse.Hub.convertToString x) _ (NoDup_elements _) h σ id).
    rewrite elem_of_elements.
    destruct (sse_fails σ id); split; intros [Hin Hf]; split; try exact Hin;
      try discriminate; try reflexivity.
    + exfalso. apply Hf. now split.
    + intros [_ Hd]. discriminate Hd.
  - intros id c Hin Hc Hf. rewrite Hσ.
    destruct (decide (id ∈ elements (sse.Hub.clients h))) as [_|Hout];
      [|exfalso; apply Hout; now apply elem_of_elements].
    rewrite Hc. cbn [fmap option_fmap option_map].
    eexists. split; [reflexivity|].
    unfold sse_fails in Hf. rewrite Hc in Hf.
    unfold sse_delivered, sse.SendData, sse.Send, sse.Close.
    destruct (sse.closed c) eqn:Ec; cbn [fst snd].
    + rewrite Ec. cbn [fst]. now split.
    + cbn [orb] in Hf. rewrite Hf. cbn [fst snd]. rewrite Ec. cbn [fst]. now split.
  - intros id Hout. rewrite Hσ.
    destruct (decide (id ∈ elements (sse.Hub.clients h))) as [Hin|_]; [|reflexivity].
    exfalso. apply Hout. now apply elem_of_elements.
Qed.

Lemma X25_sse_broadcast_evicts_witness :
  let h' := fst (sse.Hub.handleBroadcast two_listener_hub two_listeners "hello") in
  let σ' := snd (sse.Hub.handleBroadcast two_listener_hub two_listeners "hello") in
  (forall id, id ∈ sse.Hub.clients h'
              <-> id ∈ sse.Hub.clients two_listener_hub
                  /\ sse_fails two_listeners id = false)
  /\ (forall id c,
      id ∈ sse.Hub.clients two_listener_hub -> two_listeners !! id = Some c ->
      sse_fails two_listeners id = true ->
      exists c', σ' !! id = Some c' /\ sse.closed c' = true /\ sse.w c' = sse.w c)
  /\ (forall id, id ∉ sse.Hub.clients two_listener_hub ->
                 σ' !! id = two_listeners !! id).
Proof.
  apply (X25_sse_broadcast_evicts string sse.Payload_string two_listener_hub
           two_listeners "hello").
  discriminate.
Defined.

(** What one goroutine of a broadcast does to the hub. *)
Lemma ws_send_hub (message : list Z) (h : websocket.Hub.t)
      (σ : gmap nat websocket.Conn) (id : nat) :
  fst (websocket.Hub.send message (h, σ) id)
  = if ws_fails message σ id then websocket.Hub.Unregister h id else h.
Proof.
  unfold websocket.Hub.send, ws_fails.
  destruct (σ !! id) as [cn|]; [|reflexivity].
  now destruct (websocket.Write cn websocket.BinaryMessage message) as [cn' [e|]].
Qed.

Lemma ws_fails_other (message : list Z) (σ : gmap nat websocket.Conn) (x id : nat) :
  id <> x ->
  ws_fails message (match σ !! x with
                    | Some c => <[x := ws_delivered message c]> σ
                    | None => σ
                    end) id
  = ws_fails message σ id.
Proof.
  intros Hne. unfold ws_fails.
  destruct (σ !! x); [now rewrite lookup_insert_ne by congruence | reflexivity].
Qed.

(** The hub after the goroutines of a broadcast over distinct clients
    have run. *)
Lemma ws_fold_hub (message : list Z) (L : list nat) :
  NoDup L ->
  forall (h : websocket.Hub.t) (σ : gmap nat websocket.Conn),
    websocket.Hub.closed h = false ->
    fst (foldl (websocket.Hub.send message) (h, σ) L)
    = websocket.Hub.mk (websocket.Hub.clients h) (websocket.Hub.register h)
        (websocket.Hub.unregister h ++ List.filter (ws_fails message σ) L)
        (websocket.Hub.broadcast h) (websocket.Hub.done h) (websocket.Hub.closed h).
Proof.
  induction L as [|x L IH]; intros Hnd h σ Hc.
  - cbn [foldl fst List.filter]. rewrite app_nil_r. now destruct h.
  - apply NoDup_cons in Hnd as [Hx Hnd]. cbn [foldl].
    pose proof (ws_send_hub message h σ x) as Hh.
    pose proof (ws_send_store message h σ x) as Hs.
    destruct (websocket.Hub.send message (h, σ) x) as [h1 σ1]. cbn [fst snd] in Hh, Hs.
    assert (Hc1 : websocket.Hub.closed h1 = false).
    { rewrite Hh. destruct (ws_fails message σ x); [|exact Hc].
      unfold websocket.Hub.Unregister. rewrite Hc. reflexivity. }
    rewrite (IH Hnd h1 σ1 Hc1).
    assert (Hf : List.filter (ws_fails message σ1) L
                 = List.filter (ws_fails message σ) L).
    { apply filter_ext_in. intros id Hin. subst σ1. apply ws_fails_other.
      intros ->. apply Hx. now apply list_elem_of_In. }
    rewrite Hf, Hh. cbn [List.filter].
    destruct (ws_fails message σ x).
    + unfold websocket.Hub.Unregister. rewrite Hc.
      cbn [websocket.Hub.clients websocket.Hub.register websocket.Hub.unregister
           websocket.Hub.broadcast websocket.Hub.done websocket.Hub.closed].
      now rewrite <- app_assoc.
    + reflexivity.
Qed.

(** X26: when the loop of [Run] of an open hub takes a message from
    the broadcast channel, the membership stays as it is: a member whose
    write fails is not removed by the broadcast but sent to the unregister
    channel, once, behind what was waiting there (in the order of the
    iteration, the goroutines being run one after the other). *)
Theorem X26_broadcast_queues_failures (h : websocket.Hub.t)
        (σ : gmap nat websocket.Conn) (message : list Z) (q : list (list Z)) :
  websocket.Hub.closed h = false ->
  websocket.Hub.broadcast h = message :: q ->
  exists σ',
    websocket.Hub.Run_iter websocket.Hub.RecvBroadcast h σ
    = Some (websocket.Hub.mk (websocket.Hub.clients h) (websocket.Hub.register h)
              (websocket.Hub.unregister h
               ++ List.filter (ws_fails message σ) (elements (websocket.Hub.clients h)))
              q (websocket.Hub.done h) false,
            σ', true).
Proof.
  intros Hc Hb. unfold websocket.Hub.Run_iter. rewrite Hb. cbv zeta.
  pose proof (ws_fold_hub message (elements (websocket.Hub.clients h))
                (NoDup_elements _)
                (websocket.Hub.mk (websocket.Hub.clients h) (websocket.Hub.register h)
                   (websocket.Hub.unregister h) q (websocket.Hub.done h)
                   (websocket.Hub.closed h)) σ Hc) as Hf.
  destruct (foldl _ _ _) as [h2 σ2]. cbn [fst] in Hf. subst h2.
  cbn [websocket.Hub.clients websocket.Hub.register websocket.Hub.unregister
       websocket.Hub.broadcast websocket.Hub.done websocket.Hub.closed].
  rewrite Hc. now exists σ2.
Qed.

Lemma X26_broadcast_queues_failures_witness :
  exists σ',
    websocket.Hub.Run_iter websocket.Hub.RecvBroadcast
      (websocket.Hub.BroadcastText two_member_hub "hello") two_clients
    = Some (websocket.Hub.mk
              (websocket.Hub.clients (websocket.Hub.BroadcastText two_member_hub "hello"))
              (websocket.Hub.register (websocket.Hub.BroadcastText two_member_hub "hello"))
              (websocket.Hub.unregister
                 (websocket.Hub.BroadcastText two_member_hub "hello")
               ++ List.filter (ws_fails hello two_clients)
                    (elements
                       (websocket.Hub.clients
                          (websocket.Hub.BroadcastText two_member_hub "hello"))))
              []
              (websocket.Hub.done (websocket.Hub.BroadcastText two_member_hub "hello"))
              false,
            σ', true).
Proof.
  apply (X26_broadcast_queues_failures
           (websocket.Hub.BroadcastText two_member_hub "hello") two_clients hello []);
    reflexivity.
Defined.

(** ** Frames that only [writeFrameNoValidation] writes *)

(** Decoding the first octet of a frame whose opcode fits four bits. *)
Lemma first_octet_decode (f : websocket.frame) :
  (0 <= websocket.opcode f < 16)%Z ->
  Z.land (first_octet f) 0x0F = websocket.opcode f
  /\ negb (Z.land (first_octet f) 0x80 =? 0)%Z = websocket.fin f
  /\ negb (Z.land (first_octet f) 0x40 =? 0)%Z = websocket.rsv1 f
  /\ negb (Z.land (first_octet f) 0x20 =? 0)%Z = websocket.rsv2 f
  /\ negb (Z.land (first_octet f) 0x10 =? 0)%Z = websocket.rsv3 f.
Proof.
  destruct f as [b r1 r2 r3 op m key p]. unfold first_octet.
  cbn [websocket.opcode websocket.rsv1 websocket.rsv2 websocket.rsv3 websocket.fin].
  intros Hop.
  assert (H : (op = 0 \/ op = 1 \/ op = 2 \/ op = 3 \/ op = 4 \/ op = 5 \/ op = 6
               \/ op = 7 \/ op = 8 \/ op = 9 \/ op = 10 \/ op = 11 \/ op = 12
               \/ op = 13 \/ op = 14 \/ op = 15)%Z) by lia.
  clear Hop.
  repeat (destruct H as [->|H]); [..|subst op];
    destruct b, r1, r2, r3; vm_compute; repeat split; reflexivity.
Qed.

(** X27: [writeFrameNoValidation] writes every frame when the sink
    works, and agrees with [writeFrame] on the frames that [writeFrame]
    accepts; [readFrame] refuses what it wrote for a frame with an
    undefined opcode with [ErrInvalidOpcode], and for a control frame that
    is not final with [ErrControlFragmented]. *)
Theorem X27_unvalidated_frames_refused (w : websocket.Writer) (f : websocket.frame)
        (rest : list Z) :
  (0 <= websocket.opcode f < 16)%Z ->
  websocket.broken w = false ->
  websocket.writeFrameNoValidation w f
  = (websocket.mkWriter (websocket.wire w ++ websocket.frameBytes f) false, None)
  /\ (writable f = true ->
      websocket.writeFrame w f = websocket.writeFrameNoValidation w f)
  /\ (websocket.isValidOpcode (websocket.opcode f) = false ->
      exists r', websocket.readFrame (websocket.frameBytes f ++ rest)
                 = (Err ErrInvalidOpcode, r'))
  /\ (websocket.isValidOpcode (websocket.opcode f) = true ->
      websocket.rsv1 f || websocket.rsv2 f || websocket.rsv3 f = false ->
      websocket.isControlFrame (websocket.opcode f) = true ->
      websocket.fin f = false ->
      exists r', websocket.readFrame (websocket.frameBytes f ++ rest)
                 = (Err ErrControlFragmented, r')).
Proof.
  intros Hop Hb.
  destruct (first_octet_decode f Hop) as (D0 & D1 & D2 & D3 & D4).
  destruct (frameBytes_cons f) as (h1 & tl & E).
  split; [unfold websocket.writeFrameNoValidation, websocket.flush; now rewrite Hb|].
  split; [intros Hw; now rewrite (writeFrame_writable w f Hw)|].
  split.
  - intros Hv. rewrite E. unfold websocket.readFrame. cbn [app].
    rewrite ReadFull_2. cbn [nth]. cbv zeta.
    rewrite D0, Hv. cbn [negb]. eexists. reflexivity.
  - intros Hv Hr Hc Hf. rewrite E. unfold websocket.readFrame. cbn [app].
    rewrite ReadFull_2. cbn [nth]. cbv zeta.
    rewrite D0, D1, D2, D3, D4, Hv, Hr, Hc, Hf. cbn [negb andb].
    eexists. reflexivity.
Qed.

Lemma X27_unvalidated_frames_refused_witness :
  (websocket.writeFrameNoValidation (websocket.mkWriter [] false) reserved_opcode_frame
   = (websocket.mkWriter ([] ++ websocket.frameBytes reserved_opcode_frame) false, None)
   /\ exists r', websocket.readFrame (websocket.frameBytes reserved_opcode_frame ++ [])
                 = (Err ErrInvalidOpcode, r'))
  /\ (websocket.writeFrameNoValidation (websocket.mkWriter [] false) fragmented_ping
      = (websocket.mkWriter ([] ++ websocket.frameBytes fragmented_ping) false, None)
      /\ exists r', websocket.readFrame (websocket.frameBytes fragmented_ping ++ [])
                    = (Err ErrControlFragmented, r')).
Proof.
  split.
  - destruct (X27_unvalidated_frames_refused (websocket.mkWriter [] false)
                reserved_opcode_frame []) as (H1 & _ & H3 & _).
    + vm_compute. split; [discriminate | reflexivity].
    + reflexivity.
    + split; [exact H1 | apply H3; reflexivity].
  - destruct (X27_unvalidated_frames_refused (websocket.mkWriter [] false)
                fragmented_ping []) as (H1 & _ & _ & H4).
    + vm_compute. split; [discriminate | reflexivity].
    + reflexivity.
    + split; [exact H1 | apply H4; reflexivity].
Defined.

(** ** Membership of the SSE hub *)

(** X28: unregistering from the SSE hub is idempotent and safe on a
    client that is not a member: the second of two calls does nothing; a
    client that is not a member is left as it is, its connection
    included; a member is removed and its connection closed; and
    unregistering a client that was just registered gives the membership
    back. *)
Theorem X28_sse_unregister_idempotent (T : Type) (P : sse.Payload T)
        (h : sse.Hub.t T) (σ : gmap nat sse.Conn) (id : nat) :
  let h1 := fst (sse.Hub.handleUnregister h σ id) in
  let σ1 := snd (sse.Hub.handleUnregister h σ id) in
  sse.Hub.handleUnregister h1 σ1 id = (h1, σ1)
  /\ (id ∉ sse.Hub.clients h1)
  /\ (id ∉ sse.Hub.clients h -> h1 = h /\ σ1 = σ)
  /\ (id ∈ sse.Hub.clients h ->
      σ1 !! id = (fun c => fst (sse.Close c)) <$> (σ !! id)
      /\ forall id', id' <> id ->
           σ1 !! id' = σ !! id'
           /\ (id' ∈ sse.Hub.clients h1 <-> id' ∈ sse.Hub.clients h))
  /\ (id ∉ sse.Hub.clients h ->
      sse.Hub.clients (fst (sse.Hub.handleUnregister (sse.Hub.handleRegister h id) σ id))
      = sse.Hub.clients h).
Proof.
  cbv zeta.
  assert (HR : sse.Hub.handleUnregister h σ id
               = if decide (id ∈ sse.Hub.clients h)
                 then (sse.Hub.mk (sse.Hub.clients h ∖ {[id]}) (sse.Hub.broadcast h)
                         (sse.Hub.register h) (sse.Hub.unregister h) (sse.Hub.done h)
                         (sse.Hub.closed h),
                       sse.Hub.close_in σ id)
                 else (h, σ)) by reflexivity.
  destruct (decide (id ∈ sse.Hub.clients h)) as [Hin|Hout]; rewrite HR; cbn [fst snd].
  - assert (Hgone : id ∉ sse.Hub.clients h ∖ {[id]}).
    { intros H. apply elem_of_difference in H as [_ H]. apply H.
      now apply elem_of_singleton. }
    split.
    { unfold sse.Hub.handleUnregister. cbn [sse.Hub.clients].
      destruct (decide (id ∈ sse.Hub.clients h ∖ {[id]})); [contradiction | reflexivity]. }
    split; [exact Hgone|].
    split; [contradiction|].
    split; [|contradiction].
    intros _. unfold sse.Hub.close_in. split.
    + destruct (σ !! id) as [c|] eqn:E; [|now rewrite E].
      now rewrite lookup_insert_eq.
    + intros id' Hne. split.
      * destruct (σ !! id) as [c|]; [|reflexivity].
        apply lookup_insert_ne. congruence.
      * cbn [sse.Hub.clients]. rewrite elem_of_difference, elem_of_singleton. tauto.
  - split.
    { unfold sse.Hub.handleUnregister.
      destruct (decide (id ∈ sse.Hub.clients h)); [contradiction | reflexivity]. }
    split; [exact Hout|].
    split; [now split|].
    split; [contradiction|].
    intros _. unfold sse.Hub.handleUnregister, sse.Hub.handleRegister.
    cbn [sse.Hub.clients].
    destruct (decide (id ∈ {[id]} ∪ sse.Hub.clients h)) as [_|Hn].
    + cbn [fst sse.Hub.clients]. apply set_eq. intros y.
      rewrite elem_of_difference, elem_of_union, elem_of_singleton.
      split; [tauto|]. intros Hy. split; [now right|]. intros ->. contradiction.
    + exfalso. apply Hn. apply elem_of_union. left. now apply elem_of_singleton.
Qed.
